(** * iFood delivery optimizer: courier/order assignment model

    Shallow embedding of [ifood_optimizer.py] (class
    [IFoodDeliveryOptimizer]) and [advanced_features.py] (class
    [IFoodAdvancedAnalyzer]), and the properties of the assignment model
    they build, solve and re-solve.

    Conventions of the embedding.
    - Finite floating-point numbers are idealised as rationals ([Q]); the
      only operation of the program that leaves the finite numbers is the
      division of the cost estimator, whose result is an [np_float].
    - A pandas data frame is the list of its rows, a row is a record; the
      positional access [df.iloc[k]] is [nth k] (the program only uses it
      under [for k in range(len(df))]).
    - The f-string names of variables and constraints ([x_{i}_{j}],
      [Capacidade_Entregador_{i}], ...) are kept structured.
    - The PuLP/GLPK solver and the geocoder are external: they are section
      variables, constrained by explicit hypotheses where a property needs
      them. *)

From Stdlib Require Import List ZArith QArith Qabs Lia Lqa Bool String PeanoNat DecimalString Permutation Qminmax.
Import ListNotations.

Set Implicit Arguments.

(* ================================================================== *)
(** ** Numbers *)
(* ================================================================== *)

(** Result of a numpy float64 division: finite, infinite (with its sign)
    or not-a-number. *)
Inductive np_float : Type :=
| Fin (q : Q)
| Inf (negativo : bool)
| NaN.

Definition Qneg_b (q : Q) : bool := negb (Qle_bool 0 q).

(** [a / b] on numpy floats (no exception: division by zero gives
    [inf], [-inf] or [nan]). *)
Definition np_div (a b : Q) : np_float :=
  if Qeq_bool b 0 then (if Qeq_bool a 0 then NaN else Inf (Qneg_b a))
  else Fin (a / b).

(** [x * k] for a finite constant [k]. *)
Definition np_mul (x : np_float) (k : Q) : np_float :=
  match x with
  | Fin q => Fin (q * k)
  | Inf s => if Qeq_bool k 0 then NaN else Inf (xorb s (Qneg_b k))
  | NaN => NaN
  end.

(** [x + k] for a finite constant [k]. *)
Definition np_add (x : np_float) (k : Q) : np_float :=
  match x with
  | Fin q => Fin (q + k)
  | Inf s => Inf s
  | NaN => NaN
  end.

Definition is_fin (x : np_float) : Prop :=
  match x with Fin _ => True | _ => False end.

Definition is_finb (x : np_float) : bool :=
  match x with Fin _ => true | _ => false end.

(** Equality of float results, up to the equality of rationals. *)
Definition np_eq (x y : np_float) : Prop :=
  match x, y with
  | Fin p, Fin q => p == q
  | Inf s, Inf t => s = t
  | NaN, NaN => True
  | _, _ => False
  end.

(** The finite value of a coefficient (0 when there is none; a model
    with such a coefficient is not well formed, see [bem_formado]). *)
Definition coef (c : np_float) : Q :=
  match c with Fin q => q | _ => 0 end.

(** [sum(l)] *)
Fixpoint somaQ (l : list Q) : Q :=
  match l with
  | [] => 0
  | q :: l' => q + somaQ l'
  end.

(* ================================================================== *)
(** ** Data frames *)
(* ================================================================== *)

(** A row of [entregadores] (couriers). *)
Record Entregador : Type := {
  ent_ID : string;                    (* 'ID' *)
  ent_cep : string;                   (* 'Endereço (CEP)' *)
  ent_velocidade : Q;                 (* 'Velocidade Média (km/h)' *)
  ent_custo : Q;                      (* 'Custo Operacional (R$/h)' *)
  ent_capacidade : Z;                 (* 'Capacidade Máxima' *)
  ent_disponibilidade : Q             (* 'Disponibilidade (h/dia)' *)
}.

(** A row of [pedidos] (orders). *)
Record Pedido : Type := {
  pedido_id : string;
  nome_restaurante : string;
  cep_cliente : Z;
  prioridade : Z;
  valor_pedido : Q;
  tempo_preparo_min : Q;
  tempo_deslocamento_min : Q;
  distancia_km : Q
}.

(** A row of [restaurantes]. *)
Record Restaurante : Type := {
  rest_nome : string;                 (* 'Restaurante' *)
  rest_cep : string                   (* 'CEP' *)
}.

Definition entregador_nulo : Entregador :=
  {| ent_ID := ""; ent_cep := ""; ent_velocidade := 0; ent_custo := 0;
     ent_capacidade := 0; ent_disponibilidade := 0 |}.

Definition pedido_nulo : Pedido :=
  {| pedido_id := ""; nome_restaurante := ""; cep_cliente := 0;
     prioridade := 0; valor_pedido := 0; tempo_preparo_min := 0;
     tempo_deslocamento_min := 0; distancia_km := 0 |}.

(** [self.entregadores['Capacidade Máxima'] = cap]: a scalar is broadcast
    to every row. *)
Definition set_capacidade (c : Z) (e : Entregador) : Entregador :=
  {| ent_ID := ent_ID e; ent_cep := ent_cep e;
     ent_velocidade := ent_velocidade e; ent_custo := ent_custo e;
     ent_capacidade := c; ent_disponibilidade := ent_disponibilidade e |}.

Definition broadcast_capacidade (c : Z) (df : list Entregador) : list Entregador :=
  map (set_capacidade c) df.

(** [df['Capacidade Máxima'] = serie]: the series is aligned on the row
    index.  The frames of the program keep the default index 0..n-1 and
    the series is always the saved column of the same frame, so the k-th
    row takes the k-th value. *)
Definition atribuir_capacidade (serie : list Z) (df : list Entregador)
  : list Entregador :=
  map (fun ce => set_capacidade (fst ce) (snd ce)) (combine serie df).

(** The column ['Capacidade Máxima'] (and its [.copy()]). *)
Definition coluna_capacidade (df : list Entregador) : list Z :=
  map ent_capacidade df.

(** [df.iloc[k]] under [for k in range(len(df))]. *)
Definition iloc_ent (df : list Entregador) (k : nat) : Entregador :=
  nth k df entregador_nulo.

Definition iloc_ped (df : list Pedido) (k : nat) : Pedido :=
  nth k df pedido_nulo.

(* ================================================================== *)
(** ** PuLP: variables, affine expressions, constraints, problems *)
(* ================================================================== *)

(** Variable names: [f"x_{i}_{j}"] and [f"T_{j}"]. *)
Inductive LpNome : Type :=
| x_ (i j : nat)
| T_ (j : nat).

Definition LpNome_eqb (a b : LpNome) : bool :=
  match a, b with
  | x_ i j, x_ i' j' => Nat.eqb i i' && Nat.eqb j j'
  | T_ j, T_ j' => Nat.eqb j j'
  | _, _ => false
  end.

Inductive LpCategoria : Type := Continuous | Integer | Binary.

Record LpVariable : Type := {
  var_nome : LpNome;
  lowBound : option Q;
  upBound : option Q;
  var_cat : LpCategoria
}.

(** [LpVariable(f"x_{i}_{j}", cat='Binary')] *)
Definition var_x (i j : nat) : LpVariable :=
  {| var_nome := x_ i j; lowBound := None; upBound := None; var_cat := Binary |}.

(** [LpVariable(f"T_{j}", lowBound=0)] *)
Definition var_T (j : nat) : LpVariable :=
  {| var_nome := T_ j; lowBound := Some 0; upBound := None; var_cat := Continuous |}.

(** An affine expression: its terms (variable, coefficient) in the order
    they were added, and its constant. *)
Record LpAffineExpression : Type := {
  termos : list (LpVariable * np_float);
  constante : Q
}.

(** A variable used as an expression. *)
Definition expr_var (x : LpVariable) : LpAffineExpression :=
  {| termos := [(x, Fin 1)]; constante := 0 |}.

(** [x * c]: PuLP keeps no term when [c] is (a finite) zero.  PuLP
    refuses to multiply a variable by [inf] or [nan]; the term is kept
    here, where it leaves the expression without value at any point, and
    the statements about runs of the builder assume finite costs
    ([custos_finitos] below). *)
Definition expr_mul (x : LpVariable) (c : np_float) : LpAffineExpression :=
  match c with
  | Fin q => if Qeq_bool q 0 then {| termos := []; constante := 0 |}
             else {| termos := [(x, c)]; constante := 0 |}
  | _ => {| termos := [(x, c)]; constante := 0 |}
  end.

(** A number used as an expression. *)
Definition expr_const (c : Q) : LpAffineExpression :=
  {| termos := []; constante := c |}.

Definition lpSum (l : list LpAffineExpression) : LpAffineExpression :=
  {| termos := flat_map termos l; constante := somaQ (map constante l) |}.

Inductive LpSentido : Type := LpLE | LpEQ | LpGE.

(** [lhs <= rhs], [lhs == rhs], [lhs >= rhs] *)
Record LpConstraint : Type := {
  c_lhs : LpAffineExpression;
  c_sentido : LpSentido;
  c_rhs : LpAffineExpression
}.

(** Constraint names (f-strings of [criar_modelo]); the restricted model
    of the analyzer leaves its constraints unnamed. *)
Inductive NomeRestricao : Type :=
| Atribuicao_Unica_Pedido (j : nat)
| Calculo_Tempo_Pedido (j : nat)
| Capacidade_Entregador (i : nat)
| SemNome.

Definition NomeRestricao_eqb (a b : NomeRestricao) : bool :=
  match a, b with
  | Atribuicao_Unica_Pedido j, Atribuicao_Unica_Pedido j' => Nat.eqb j j'
  | Calculo_Tempo_Pedido j, Calculo_Tempo_Pedido j' => Nat.eqb j j'
  | Capacidade_Entregador i, Capacidade_Entregador i' => Nat.eqb i i'
  | SemNome, SemNome => true
  | _, _ => false
  end.

Inductive LpSense : Type := LpMinimize | LpMaximize.

Record LpProblem : Type := {
  prob_nome : string;
  prob_sense : LpSense;
  objective : option LpAffineExpression;
  constraints : list (NomeRestricao * LpConstraint)
}.

(** [LpProblem(nome, sense)] *)
Definition novo_LpProblem (nome : string) (s : LpSense) : LpProblem :=
  {| prob_nome := nome; prob_sense := s; objective := None; constraints := [] |}.

(** [prob += expr]: an expression becomes the objective. *)
Definition add_objetivo (m : LpProblem) (e : LpAffineExpression) : LpProblem :=
  {| prob_nome := prob_nome m; prob_sense := prob_sense m;
     objective := Some e; constraints := constraints m |}.

(** [prob += constraint, name]: a constraint is appended. *)
Definition add_restricao (m : LpProblem) (n : NomeRestricao) (c : LpConstraint)
  : LpProblem :=
  {| prob_nome := prob_nome m; prob_sense := prob_sense m;
     objective := objective m; constraints := constraints m ++ [(n, c)] |}.

(** [prob.objective = expr] *)
Definition set_objective (m : LpProblem) (e : LpAffineExpression) : LpProblem :=
  {| prob_nome := prob_nome m; prob_sense := prob_sense m;
     objective := Some e; constraints := constraints m |}.

Definition restr (l : LpAffineExpression) (s : LpSentido) (r : LpAffineExpression)
  : LpConstraint :=
  {| c_lhs := l; c_sentido := s; c_rhs := r |}.

(** *** Meaning of a problem *)

(** A valuation gives every variable (by name) a value. *)
Definition valoracao : Type := LpNome -> Q.

Definition valor_termo (v : valoracao) (t : LpVariable * np_float) : Q :=
  coef (snd t) * v (var_nome (fst t)).

Definition valor_expr (v : valoracao) (e : LpAffineExpression) : Q :=
  somaQ (map (valor_termo v) (termos e)) + constante e.

Definition satisfaz (v : valoracao) (c : LpConstraint) : Prop :=
  match c_sentido c with
  | LpLE => valor_expr v (c_lhs c) <= valor_expr v (c_rhs c)
  | LpEQ => valor_expr v (c_lhs c) == valor_expr v (c_rhs c)
  | LpGE => valor_expr v (c_rhs c) <= valor_expr v (c_lhs c)
  end.

Definition satisfazb (v : valoracao) (c : LpConstraint) : bool :=
  match c_sentido c with
  | LpLE => Qle_bool (valor_expr v (c_lhs c)) (valor_expr v (c_rhs c))
  | LpEQ => Qeq_bool (valor_expr v (c_lhs c)) (valor_expr v (c_rhs c))
  | LpGE => Qle_bool (valor_expr v (c_rhs c)) (valor_expr v (c_lhs c))
  end.

(** Bounds and category of a variable. *)
Definition dominio_ok (v : valoracao) (x : LpVariable) : Prop :=
  (match lowBound x with Some l => l <= v (var_nome x) | None => True end) /\
  (match upBound x with Some u => v (var_nome x) <= u | None => True end) /\
  (match var_cat x with
   | Continuous => True
   | Integer => exists z : Z, v (var_nome x) == inject_Z z
   | Binary => v (var_nome x) == 0 \/ v (var_nome x) == 1
   end).

Definition vars_expr (e : LpAffineExpression) : list LpVariable :=
  map fst (termos e).

Definition exprs_restricao (c : LpConstraint) : list LpAffineExpression :=
  [c_lhs c; c_rhs c].

Definition exprs_problema (m : LpProblem) : list LpAffineExpression :=
  match objective m with Some e => [e] | None => [] end
  ++ flat_map (fun nc => exprs_restricao (snd nc)) (constraints m).

(** [prob.variables()]: the variables of the objective and constraints. *)
Definition variaveis (m : LpProblem) : list LpVariable :=
  flat_map vars_expr (exprs_problema m).

(** Every coefficient is a finite number. *)
Definition expr_finita (e : LpAffineExpression) : Prop :=
  Forall (fun t => is_fin (snd t)) (termos e).

Definition bem_formado (m : LpProblem) : Prop :=
  Forall expr_finita (exprs_problema m).

(** [v] is a feasible point of [m]. *)
Definition viavel (m : LpProblem) (v : valoracao) : Prop :=
  bem_formado m /\
  Forall (dominio_ok v) (variaveis m) /\
  Forall (fun nc => satisfaz v (snd nc)) (constraints m).

Definition valor_objetivo_de (m : LpProblem) (v : valoracao) : Q :=
  match objective m with Some e => valor_expr v e | None => 0 end.

(** [v] is an optimal point of [m]. *)
Definition otimo (m : LpProblem) (v : valoracao) : Prop :=
  viavel m v /\
  forall v', viavel m v' ->
    match prob_sense m with
    | LpMinimize => valor_objetivo_de m v <= valor_objetivo_de m v'
    | LpMaximize => valor_objetivo_de m v' <= valor_objetivo_de m v
    end.

(** *** Solver interface *)

(** [LpStatus] of PuLP: 1, 0, -1, -2, -3. *)
Inductive LpStatus : Type :=
| LpStatusOptimal
| LpStatusNotSolved
| LpStatusInfeasible
| LpStatusUnbounded
| LpStatusUndefined.

Definition LpStatus_eqb (a b : LpStatus) : bool :=
  match a, b with
  | LpStatusOptimal, LpStatusOptimal
  | LpStatusNotSolved, LpStatusNotSolved
  | LpStatusInfeasible, LpStatusInfeasible
  | LpStatusUnbounded, LpStatusUnbounded
  | LpStatusUndefined, LpStatusUndefined => true
  | _, _ => false
  end.

(** The values the solver leaves in the variable objects
    ([var.varValue], [None] when the variable got no value). *)
Definition valores : Type := LpNome -> option Q.

Definition sem_valores : valores := fun _ => None.

(** The valuation read from the variable objects. *)
Definition val_de (s : valores) : valoracao :=
  fun n => match s n with Some q => q | None => 0 end.

(** A solver run: [prob.solve(solver)] returns the status and stores
    the values in the variables. *)
Definition Solver : Type := LpProblem -> LpStatus * valores.

(** [var.value() == 1] *)
Definition value_eq_1 (s : valores) (n : LpNome) : bool :=
  match s n with Some q => Qeq_bool q 1 | None => false end.

(** [value(expr)]: [None] as soon as a variable has no value. *)
Definition value (s : valores) (e : LpAffineExpression) : option Q :=
  if forallb (fun t => match s (var_nome (fst t)) with Some _ => true | None => false end)
             (termos e)
  then Some (valor_expr (val_de s) e)
  else None.

(** The truth value of an expression ([if expr:]): a non-zero constant
    or at least one term. *)
Definition expr_bool (e : LpAffineExpression) : bool :=
  negb (Qeq_bool (constante e) 0) || negb (Nat.eqb (List.length (termos e)) 0).

(** The coefficient of a variable in an expression (0 when absent). *)
Definition coef_de (e : LpAffineExpression) (n : LpNome) : np_float :=
  match find (fun t => LpNome_eqb (var_nome (fst t)) n) (termos e) with
  | Some t => snd t
  | None => Fin 0
  end.

(** The constraint of a given name. *)
Definition restricao_de (m : LpProblem) (n : NomeRestricao) : option LpConstraint :=
  match find (fun nc => NomeRestricao_eqb (fst nc) n) (constraints m) with
  | Some nc => Some (snd nc)
  | None => None
  end.

(* ================================================================== *)
(** ** Python outcomes *)
(* ================================================================== *)

Inductive Excecao : Type := AttributeError | TypeError | ZeroDivisionError.

(** A method call returns a value or raises; the object state is kept in
    both cases. *)
Inductive Res (S A : Type) : Type :=
| Retorna (a : A) (s : S)
| Levanta (e : Excecao) (s : S).

Arguments Retorna {S A} a s.
Arguments Levanta {S A} e s.

Definition bind {S A B} (r : Res S A) (k : A -> S -> Res S B) : Res S B :=
  match r with
  | Retorna a s => k a s
  | Levanta e s => Levanta e s
  end.

Definition estado_final {S A} (r : Res S A) : S :=
  match r with Retorna _ s => s | Levanta _ s => s end.

Definition normal {S A} (r : Res S A) : Prop :=
  match r with Retorna _ _ => True | Levanta _ _ => False end.

(* ================================================================== *)
(** ** [IFoodDeliveryOptimizer] *)
(* ================================================================== *)

(** An entry of [resultado['alocacoes']]. *)
Record Alocacao : Type := {
  a_entregador_id : string;
  a_entregador_idx : nat;
  a_pedido_id : string;
  a_pedido_idx : nat;
  a_restaurante : string;
  a_prioridade : Z;
  a_valor_pedido : Q;
  a_tempo_entrega : option Q
}.

(** [self.resultado] *)
Record Resultado : Type := {
  valor_objetivo : option Q;
  tempo_total : Q;
  tempo_medio : Q;
  alocacoes : list Alocacao;
  num_entregadores_usados : nat;
  num_pedidos_alocados : nat;
  num_pedidos_total : nat
}.

(** The attributes of the optimizer object.  [x_vars] and [t_vars] are
    the key sets of the two dictionaries of variables (the variable
    stored at key [(i,j)] is [var_x i j], at key [j] it is [var_T j]);
    [sol] holds the values the last solve left in those variables. *)
Record Otimizador : Type := {
  restaurantes : list Restaurante;
  entregadores : list Entregador;
  pedidos : list Pedido;
  modelo : option LpProblem;
  resultado : option Resultado;
  x_vars : list (nat * nat);
  t_vars : list nat;
  sol : valores;
  mapa_restaurante_cep : list (string * string)
}.

Definition com_entregadores (st : Otimizador) (df : list Entregador) : Otimizador :=
  {| restaurantes := restaurantes st; entregadores := df; pedidos := pedidos st;
     modelo := modelo st; resultado := resultado st; x_vars := x_vars st;
     t_vars := t_vars st; sol := sol st;
     mapa_restaurante_cep := mapa_restaurante_cep st |}.

Definition com_sol (st : Otimizador) (s : valores) : Otimizador :=
  {| restaurantes := restaurantes st; entregadores := entregadores st;
     pedidos := pedidos st; modelo := modelo st; resultado := resultado st;
     x_vars := x_vars st; t_vars := t_vars st; sol := s;
     mapa_restaurante_cep := mapa_restaurante_cep st |}.

Definition com_resultado (st : Otimizador) (r : Resultado) : Otimizador :=
  {| restaurantes := restaurantes st; entregadores := entregadores st;
     pedidos := pedidos st; modelo := modelo st; resultado := Some r;
     x_vars := x_vars st; t_vars := t_vars st; sol := sol st;
     mapa_restaurante_cep := mapa_restaurante_cep st |}.

(** *** Cost estimator *)

(** [calcular_tempo_deslocamento]: the order's own [distancia_km] over
    the courier's speed, in minutes. *)
Definition calcular_tempo_deslocamento (st : Otimizador)
    (entregador_idx pedido_idx : nat) : np_float :=
  let velocidade := ent_velocidade (iloc_ent (entregadores st) entregador_idx) in
  let distancia_estimada := distancia_km (iloc_ped (pedidos st) pedido_idx) in
  let tempo_deslocamento := np_mul (np_div distancia_estimada velocidade) 60 in
  tempo_deslocamento.

Definition Coordenadas : Type := (Q * Q)%type.

(** [dict.get]: first binding of the key. *)
Fixpoint dict_get (d : list (string * string)) (k : string) : option string :=
  match d with
  | [] => None
  | (k', v) :: d' => if String.eqb k' k then Some v else dict_get d' k
  end.

(** [str(cep)] of a value that may be [None]. *)
Definition str_cep (o : option string) : string :=
  match o with Some s => s | None => "None" end.

Section Geocodificacao.

(** The geocoder behind [obter_coordenadas_por_cep] (with its cache, a
    function of the CEP) and the great-circle distance of two resolved
    coordinates. *)
Variable obter_coordenadas_por_cep : string -> option Coordenadas.
Variable haversine_km : Coordenadas -> Coordenadas -> Q.

(** [calcular_distancia_coordenadas] *)
Definition calcular_distancia_coordenadas (coords1 coords2 : option Coordenadas) : Q :=
  match coords1, coords2 with
  | Some c1, Some c2 => haversine_km c1 c2
  | _, _ => 999
  end.

(** [calcular_tempo_entregador_restaurante]: the geocoded estimate,
    from the courier's base CEP to the restaurant's CEP. *)
Definition calcular_tempo_entregador_restaurante (st : Otimizador)
    (entregador_idx pedido_idx : nat) : np_float :=
  let entregador := iloc_ent (entregadores st) entregador_idx in
  let cep_entregador := ent_cep entregador in
  let velocidade_kmh := ent_velocidade entregador in
  let nome_rest := nome_restaurante (iloc_ped (pedidos st) pedido_idx) in
  let cep_restaurante := dict_get (mapa_restaurante_cep st) nome_rest in
  let coords_entregador := obter_coordenadas_por_cep cep_entregador in
  let coords_restaurante := obter_coordenadas_por_cep (str_cep cep_restaurante) in
  match coords_entregador, coords_restaurante with
  | Some _, Some _ =>
      let distancia := calcular_distancia_coordenadas coords_entregador coords_restaurante in
      if Qeq_bool velocidade_kmh 0 then Fin 9999
      else np_mul (np_div distancia velocidade_kmh) 60
  | _, _ => Fin 9999
  end.

End Geocodificacao.

(** *** Model builder *)

(** The cost of the pair (i, j) in the time-definition constraint. *)
Definition custo (st : Otimizador) (i j : nat) : np_float :=
  let tempo_preparo := tempo_preparo_min (iloc_ped (pedidos st) j) in
  let tempo_deslocamento_cliente := tempo_deslocamento_min (iloc_ped (pedidos st) j) in
  np_add (np_add (calcular_tempo_deslocamento st i j) tempo_preparo)
         tempo_deslocamento_cliente.

Definition chaves_x (I J : list nat) : list (nat * nat) :=
  flat_map (fun i => map (fun j => (i, j)) J) I.

(** R1, for order [j]. *)
Definition R1 (I : list nat) (j : nat) : LpConstraint :=
  restr (lpSum (map (fun i => expr_var (var_x i j)) I)) LpEQ (expr_const 1).

(** R2, for order [j]. *)
Definition R2 (st : Otimizador) (I : list nat) (j : nat) : LpConstraint :=
  let tempo_total_expr := lpSum (map (fun i => expr_mul (var_x i j) (custo st i j)) I) in
  restr (expr_var (var_T j)) LpEQ tempo_total_expr.

(** R3, for courier [i]. *)
Definition R3 (st : Otimizador) (J : list nat) (i : nat) : LpConstraint :=
  let capacidade_max := ent_capacidade (iloc_ent (entregadores st) i) in
  restr (lpSum (map (fun j => expr_var (var_x i j)) J)) LpLE
        (expr_const (inject_Z capacidade_max)).

(** R4: the priority-weighted objective. *)
Definition objetivo_ponderado (st : Otimizador) (J : list nat) : LpAffineExpression :=
  lpSum (map (fun j => expr_mul (var_T j)
                         (Fin (inject_Z (prioridade (iloc_ped (pedidos st) j))))) J).

(** The first objective: the plain sum of the times. *)
Definition objetivo_simples (J : list nat) : LpAffineExpression :=
  lpSum (map (fun j => expr_var (var_T j)) J).

(** [criar_modelo], statement by statement.  This is the model the
    method builds when every cost is a finite number; with a courier of
    speed 0 and an order, the product [x[i,j] * tempo] of R2 is refused
    by PuLP and the method stops there. *)
Definition construir_modelo (st : Otimizador) : LpProblem :=
  let I := seq 0 (List.length (entregadores st)) in
  let J := seq 0 (List.length (pedidos st)) in
  let m := novo_LpProblem "IFood_Delivery_Optimization" LpMinimize in
  let m := add_objetivo m (objetivo_simples J) in
  let m := fold_left (fun m j => add_restricao m (Atribuicao_Unica_Pedido j) (R1 I j)) J m in
  let m := fold_left (fun m j => add_restricao m (Calculo_Tempo_Pedido j) (R2 st I j)) J m in
  let m := fold_left (fun m i => add_restricao m (Capacidade_Entregador i) (R3 st J i)) I m in
  let m := set_objective m (objetivo_ponderado st J) in
  m.

Definition criar_modelo (st : Otimizador) : Otimizador :=
  let I := seq 0 (List.length (entregadores st)) in
  let J := seq 0 (List.length (pedidos st)) in
  {| restaurantes := restaurantes st; entregadores := entregadores st;
     pedidos := pedidos st;
     modelo := Some (construir_modelo st);
     resultado := resultado st;
     x_vars := chaves_x I J;
     t_vars := J;
     sol := sem_valores;
     mapa_restaurante_cep := mapa_restaurante_cep st |}.

(** *** Result extractor and solver adapter *)

(** [(i, j) in self.x_vars] *)
Definition em_x_vars (st : Otimizador) (i j : nat) : bool :=
  existsb (fun k => Nat.eqb (fst k) i && Nat.eqb (snd k) j) (x_vars st).

(** [j in self.t_vars] *)
Definition em_t_vars (st : Otimizador) (j : nat) : bool :=
  existsb (Nat.eqb j) (t_vars st).

Definition alocacao_de (st : Otimizador) (i j : nat) : Alocacao :=
  {| a_entregador_id := ent_ID (iloc_ent (entregadores st) i);
     a_entregador_idx := i;
     a_pedido_id := pedido_id (iloc_ped (pedidos st) j);
     a_pedido_idx := j;
     a_restaurante := nome_restaurante (iloc_ped (pedidos st) j);
     a_prioridade := prioridade (iloc_ped (pedidos st) j);
     a_valor_pedido := valor_pedido (iloc_ped (pedidos st) j);
     a_tempo_entrega := if em_t_vars st j then sol st (T_ j) else Some 0 |}.

(** The two nested loops that fill [alocacoes]. *)
Definition extrair_alocacoes (st : Otimizador) : list Alocacao :=
  flat_map (fun i =>
    flat_map (fun j =>
      if em_x_vars st i j && value_eq_1 (sol st) (x_ i j)
      then [alocacao_de st i j] else [])
      (seq 0 (List.length (pedidos st))))
    (seq 0 (List.length (entregadores st))).

Definition tempos_validos (st : Otimizador) : list Q :=
  flat_map (fun j =>
    if em_t_vars st j
    then match sol st (T_ j) with Some q => [q] | None => [] end
    else [])
    (seq 0 (List.length (pedidos st))).

(** [value(self.modelo.objective) if self.modelo.objective else 0]; the
    coefficients of an objective are the (finite) priorities. *)
Definition valor_do_objetivo (m : LpProblem) (s : valores) : option Q :=
  match objective m with
  | Some e => if expr_bool e then value s e else Some 0
  | None => Some 0
  end.

(** [extrair_resultado].  The Solution is stored first; the report that
    follows formats [valor_objetivo] with [:.2f], a [TypeError] when the
    objective has no value (a variable of the objective was left without
    value).  The totals are numbers, so the other lines of the report
    raise nothing. *)
Definition extrair_resultado (st : Otimizador) : Res Otimizador unit :=
  if Nat.eqb (List.length (pedidos st)) 0 then Retorna tt st
  else
    let alocs := extrair_alocacoes st in
    let tempo_total := somaQ (tempos_validos st) in
    let tempo_medio := tempo_total / inject_Z (Z.of_nat (List.length (pedidos st))) in
    match modelo st with
    | None => Levanta AttributeError st
    | Some m =>
        let st' :=
          com_resultado st
            {| valor_objetivo := valor_do_objetivo m (sol st);
               tempo_total := tempo_total;
               tempo_medio := tempo_medio;
               alocacoes := alocs;
               num_entregadores_usados :=
                 List.length (nodup Nat.eq_dec (map a_entregador_idx alocs));
               num_pedidos_alocados := List.length alocs;
               num_pedidos_total := List.length (pedidos st) |} in
        match valor_do_objetivo m (sol st) with
        | Some _ => Retorna tt st'
        | None => Levanta TypeError st'
        end
    end.

(** [resolver_modelo]; [solver] is [GLPK_CMD(msg=1, timeLimit=300)]. *)
Definition resolver_modelo (solver : Solver) (st : Otimizador) : Res Otimizador bool :=
  match modelo st with
  | None => Levanta AttributeError st
  | Some m =>
      let (status, s) := solver m in
      let st := com_sol st s in
      match status with
      | LpStatusOptimal =>
          bind (extrair_resultado st) (fun _ st => Retorna true st)
      | LpStatusInfeasible => Retorna false st
      | LpStatusUnbounded => Retorna false st
      | _ => Retorna false st
      end
  end.

(** *** Data cleaning *)

(** Rows as loaded, after [pd.to_numeric(..., errors='coerce')]: a cell
    that is NaN is [None].  The frames are taken with all the columns
    the model builder reads, so every [if col in ....columns] holds. *)
Record PedidoBruto : Type := {
  pb_pedido_id : string;
  pb_nome_restaurante : string;
  pb_cep_cliente : Z;
  pb_prioridade : Z;
  pb_valor_pedido : option Q;
  pb_tempo_preparo_min : option Q;
  pb_tempo_deslocamento_min : option Q;
  pb_distancia_km : option Q
}.

Record EntregadorBruto : Type := {
  eb_ID : string;
  eb_cep : string;
  eb_velocidade : option Q;
  eb_custo : option Q;
  eb_capacidade : option Z;
  eb_disponibilidade : Q
}.

(** The optimizer after [carregar_dados]. *)
Record OtimizadorBruto : Type := {
  ob_restaurantes : list Restaurante;
  ob_entregadores : list EntregadorBruto;
  ob_pedidos : list PedidoBruto
}.

(** [dropna(subset=colunas_essenciais_ped)] on one row. *)
Definition limpar_pedido (p : PedidoBruto) : option Pedido :=
  match pb_tempo_deslocamento_min p, pb_distancia_km p,
        pb_valor_pedido p, pb_tempo_preparo_min p with
  | Some t, Some d, Some v, Some tp =>
      Some {| pedido_id := pb_pedido_id p;
              nome_restaurante := pb_nome_restaurante p;
              cep_cliente := pb_cep_cliente p;
              prioridade := pb_prioridade p;
              valor_pedido := v;
              tempo_preparo_min := tp;
              tempo_deslocamento_min := t;
              distancia_km := d |}
  | _, _, _, _ => None
  end.

(** [dropna(subset=colunas_essenciais_ent)] on one row. *)
Definition limpar_entregador (e : EntregadorBruto) : option Entregador :=
  match eb_velocidade e, eb_custo e, eb_capacidade e with
  | Some v, Some c, Some cap =>
      Some {| ent_ID := eb_ID e; ent_cep := eb_cep e; ent_velocidade := v;
              ent_custo := c; ent_capacidade := cap;
              ent_disponibilidade := eb_disponibilidade e |}
  | _, _, _ => None
  end.

Definition dropna {A B} (f : A -> option B) (df : list A) : list B :=
  flat_map (fun a => match f a with Some b => [b] | None => [] end) df.

(** [str(n)] *)
Definition str_nat (n : nat) : string :=
  NilEmpty.string_of_uint (Nat.to_uint n).

(** One synthetic order of [dados_exemplo]. *)
Definition pedido_exemplo (i : nat) : Pedido :=
  let q := inject_Z (Z.of_nat i) in
  {| pedido_id := "EXEMPLO_" ++ str_nat (i + 1);
     nome_restaurante := "Restaurante Exemplo " ++ str_nat (i + 1);
     cep_cliente := 36000000 + Z.of_nat i;
     prioridade := Z.of_nat (i mod 3) + 1;
     valor_pedido := 25 + q * 5;
     tempo_preparo_min := 15 + q * 2;
     tempo_deslocamento_min := 10 + q * 3;
     distancia_km := 2 + q * (1 # 2) |}.

Definition dados_exemplo : list Pedido := map pedido_exemplo (seq 0 5).

(** [restaurantes.set_index('Restaurante')['CEP'].to_dict()]: the last
    row of a name wins. *)
Definition mapear_restaurantes (df : list Restaurante) : list (string * string) :=
  rev (map (fun r => (rest_nome r, rest_cep r)) df).

Definition otimizador_de (rs : list Restaurante) (es : list Entregador)
    (ps : list Pedido) (mapa : list (string * string)) : Otimizador :=
  {| restaurantes := rs; entregadores := es; pedidos := ps;
     modelo := None; resultado := None; x_vars := []; t_vars := [];
     sol := sem_valores; mapa_restaurante_cep := mapa |}.

(** [preprocessar_dados]: the returned flag and the optimizer after it. *)
Definition preprocessar_dados (ob : OtimizadorBruto) : bool * Otimizador :=
  let ents := dropna limpar_entregador (ob_entregadores ob) in
  let peds := dropna limpar_pedido (ob_pedidos ob) in
  let peds := if Nat.eqb (List.length peds) 0 then dados_exemplo else peds in
  if Nat.eqb (List.length peds) 0 then
    (false, otimizador_de (ob_restaurantes ob) ents peds [])
  else if Nat.eqb (List.length ents) 0 then
    (false, otimizador_de (ob_restaurantes ob) ents peds [])
  else
    (true, otimizador_de (ob_restaurantes ob) ents peds
             (mapear_restaurantes (ob_restaurantes ob))).

(* ================================================================== *)
(** ** [IFoodAdvancedAnalyzer] *)
(* ================================================================== *)

(** A row of the capacity-sweep table. *)
Record LinhaSensibilidade : Type := {
  ls_capacidade : Z;
  ls_tempo_total : Q;
  ls_tempo_medio : Q;
  ls_entregadores_usados : nat;
  ls_valor_objetivo : option Q
}.

Record AlocacaoRestrita : Type := {
  ar_entregador_id : string;
  ar_pedido_id : string;
  ar_prioridade : Z;
  ar_tempo_entrega : option Q
}.

Record ResultadoRestrito : Type := {
  rr_valor_objetivo : option Q;
  rr_alocacoes : list AlocacaoRestrita;
  rr_tempo_total : Q;
  rr_restricoes_atendidas : bool
}.

Inductive NomeCenario : Type := Original | Com_Restricoes_Tempo | Capacidade_Reduzida.

Record Cenario : Type := {
  cn_tempo_total : Q;
  cn_tempo_medio : Q;
  cn_entregadores_usados : nat
}.

(** The analyzer object: the optimizer it wraps (shared, mutated in
    place) and the entries of [self.analises] used here. *)
Record Analisador : Type := {
  otimizador : Otimizador;
  sensibilidade_capacidade : option (list LinhaSensibilidade);
  otimizacao_restrita : option ResultadoRestrito;
  comparacao_cenarios : option (list (NomeCenario * Cenario))
}.

Definition com_otimizador (an : Analisador) (ot : Otimizador) : Analisador :=
  {| otimizador := ot;
     sensibilidade_capacidade := sensibilidade_capacidade an;
     otimizacao_restrita := otimizacao_restrita an;
     comparacao_cenarios := comparacao_cenarios an |}.

(** [range(a, b + 1)] *)
Definition py_range (a b : Z) : list Z :=
  map (fun k => (a + Z.of_nat k)%Z) (seq 0 (Z.to_nat (b + 1 - a))).

Definition linha_de (cap : Z) (r : Resultado) : LinhaSensibilidade :=
  {| ls_capacidade := cap;
     ls_tempo_total := tempo_total r;
     ls_tempo_medio := tempo_medio r;
     ls_entregadores_usados := num_entregadores_usados r;
     ls_valor_objetivo := valor_objetivo r |}.

(** One round of the capacity sweep: override, rebuild, solve, record. *)
Definition passo_sensibilidade (solver : Solver) (cap : Z)
    (ot : Otimizador) (resultados : list LinhaSensibilidade)
  : Res Otimizador (list LinhaSensibilidade) :=
  let ot := com_entregadores ot (broadcast_capacidade cap (entregadores ot)) in
  let ot := criar_modelo ot in
  bind (resolver_modelo solver ot) (fun ok ot =>
    if ok then
      match resultado ot with
      | Some r => Retorna (resultados ++ [linha_de cap r]) ot
      | None => Levanta TypeError ot
      end
    else Retorna resultados ot).

(** The [for cap in range(...)] loop. *)
Fixpoint laco_sensibilidade (solver : Solver) (caps : list Z)
    (ot : Otimizador) (resultados : list LinhaSensibilidade)
  : Res Otimizador (list LinhaSensibilidade) :=
  match caps with
  | [] => Retorna resultados ot
  | cap :: caps' =>
      bind (passo_sensibilidade solver cap ot resultados)
           (fun resultados ot => laco_sensibilidade solver caps' ot resultados)
  end.

(** [analise_sensibilidade_capacidade] *)
Definition analise_sensibilidade_capacidade (solver : Solver)
    (range_capacidade : Z * Z) (an : Analisador)
  : Res Analisador (list LinhaSensibilidade) :=
  let capacidade_original := coluna_capacidade (entregadores (otimizador an)) in
  match laco_sensibilidade solver
          (py_range (fst range_capacidade) (snd range_capacidade))
          (otimizador an) [] with
  | Levanta e ot => Levanta e (com_otimizador an ot)
  | Retorna resultados ot =>
      let ot := com_entregadores ot
                  (atribuir_capacidade capacidade_original (entregadores ot)) in
      Retorna resultados
        {| otimizador := ot;
           sensibilidade_capacidade := Some resultados;
           otimizacao_restrita := otimizacao_restrita an;
           comparacao_cenarios := comparacao_cenarios an |}
  end.

(** The deadline constraint of order [j], if its priority has one. *)
Definition restricao_prazo (ot : Otimizador) (tempo_max_expresso tempo_max_prioritario : Q)
    (j : nat) : option LpConstraint :=
  let prio := prioridade (iloc_ped (pedidos ot) j) in
  if Z.eqb prio 3 then
    Some (restr (expr_var (var_T j)) LpLE (expr_const tempo_max_expresso))
  else if Z.eqb prio 2 then
    Some (restr (expr_var (var_T j)) LpLE (expr_const tempo_max_prioritario))
  else None.

Definition add_restricao_opt (m : LpProblem) (c : option LpConstraint) : LpProblem :=
  match c with Some c => add_restricao m SemNome c | None => m end.

(** [modelo_restrito] of [otimizacao_com_restricoes_tempo]. *)
Definition construir_modelo_restrito (ot : Otimizador)
    (tempo_max_expresso tempo_max_prioritario : Q) : LpProblem :=
  let I := seq 0 (List.length (entregadores ot)) in
  let J := seq 0 (List.length (pedidos ot)) in
  let m := novo_LpProblem "IFood_Delivery_Restricted" LpMinimize in
  let m := add_objetivo m (objetivo_ponderado ot J) in
  let m := fold_left (fun m j => add_restricao m SemNome (R1 I j)) J m in
  let m := fold_left (fun m i => add_restricao m SemNome (R3 ot J i)) I m in
  let m := fold_left (fun m j => add_restricao m SemNome (R2 ot I j)) J m in
  let m := fold_left (fun m j =>
             add_restricao_opt m
               (restricao_prazo ot tempo_max_expresso tempo_max_prioritario j)) J m in
  m.

Definition alocacoes_restritas (ot : Otimizador) (s : valores) : list AlocacaoRestrita :=
  flat_map (fun i =>
    flat_map (fun j =>
      if value_eq_1 s (x_ i j)
      then [{| ar_entregador_id := ent_ID (iloc_ent (entregadores ot) i);
               ar_pedido_id := pedido_id (iloc_ped (pedidos ot) j);
               ar_prioridade := prioridade (iloc_ped (pedidos ot) j);
               ar_tempo_entrega := s (T_ j) |}]
      else [])
      (seq 0 (List.length (pedidos ot))))
    (seq 0 (List.length (entregadores ot))).

(** [sum([T[j].value() for j in J])]: adding [None] is a [TypeError]. *)
Fixpoint soma_valores (l : list (option Q)) : option Q :=
  match l with
  | [] => Some 0
  | Some q :: l' =>
      match soma_valores l' with Some r => Some (q + r) | None => None end
  | None :: _ => None
  end.

(** [otimizacao_com_restricoes_tempo]; [solver] is [GLPK_CMD(msg=0)].
    The result is [None] when the status is not optimal. *)
Definition otimizacao_com_restricoes_tempo (solver : Solver)
    (tempo_max_expresso tempo_max_prioritario : Q) (an : Analisador)
  : Res Analisador (option ResultadoRestrito) :=
  let ot := otimizador an in
  let J := seq 0 (List.length (pedidos ot)) in
  let modelo_restrito :=
    construir_modelo_restrito ot tempo_max_expresso tempo_max_prioritario in
  let (status, s) := solver modelo_restrito in
  match status with
  | LpStatusOptimal =>
      match soma_valores (map (fun j => s (T_ j)) J) with
      | None => Levanta TypeError an
      | Some total =>
          let resultado_restrito :=
            {| rr_valor_objetivo := value s (objetivo_ponderado ot J);
               rr_alocacoes := alocacoes_restritas ot s;
               rr_tempo_total := total;
               rr_restricoes_atendidas := true |} in
          Retorna (Some resultado_restrito)
            {| otimizador := otimizador an;
               sensibilidade_capacidade := sensibilidade_capacidade an;
               otimizacao_restrita := Some resultado_restrito;
               comparacao_cenarios := comparacao_cenarios an |}
      end
  | _ => Retorna None an
  end.

Definition cenario_de (r : Resultado) : Cenario :=
  {| cn_tempo_total := tempo_total r;
     cn_tempo_medio := tempo_medio r;
     cn_entregadores_usados := num_entregadores_usados r |}.

(** [self.otimizador.entregadores['Capacidade Máxima'] // 2 + 1] *)
Definition capacidade_reduzida (df : list Entregador) : list Z :=
  map (fun c => (c / 2 + 1)%Z) (coluna_capacidade df).

(** [comparar_cenarios] *)
Definition comparar_cenarios (solver : Solver) (an : Analisador)
  : Res Analisador (list (NomeCenario * Cenario)) :=
  let ot := otimizador an in
  let cenarios :=
    match resultado ot with
    | Some r => [(Original, cenario_de r)]
    | None => []
    end in
  let passo2 : Res Analisador (list (NomeCenario * Cenario)) :=
    match otimizacao_restrita an with
    | Some rest =>
        if Nat.eqb (List.length (rr_alocacoes rest)) 0
        then Levanta ZeroDivisionError an
        else Retorna
          (cenarios ++
           [(Com_Restricoes_Tempo,
             {| cn_tempo_total := rr_tempo_total rest;
                cn_tempo_medio :=
                  rr_tempo_total rest /
                  inject_Z (Z.of_nat (List.length (rr_alocacoes rest)));
                cn_entregadores_usados :=
                  List.length (nodup string_dec
                                 (map ar_entregador_id (rr_alocacoes rest))) |})])
          an
    | None => Retorna cenarios an
    end in
  bind passo2 (fun cenarios an =>
    let ot := otimizador an in
    let cap_original := coluna_capacidade (entregadores ot) in
    let ot := com_entregadores ot
                (atribuir_capacidade (capacidade_reduzida (entregadores ot))
                                     (entregadores ot)) in
    let ot := criar_modelo ot in
    match resolver_modelo solver ot with
    | Levanta e ot => Levanta e (com_otimizador an ot)
    | Retorna ok ot =>
        let passo3 : Res Analisador (list (NomeCenario * Cenario)) :=
          if ok then
            match resultado ot with
            | Some r => Retorna (cenarios ++ [(Capacidade_Reduzida, cenario_de r)])
                                (com_otimizador an ot)
            | None => Levanta TypeError (com_otimizador an ot)
            end
          else Retorna cenarios (com_otimizador an ot) in
        bind passo3 (fun cenarios an =>
          let ot := otimizador an in
          let ot := com_entregadores ot
                      (atribuir_capacidade cap_original (entregadores ot)) in
          Retorna cenarios
            {| otimizador := ot;
               sensibilidade_capacidade := sensibilidade_capacidade an;
               otimizacao_restrita := otimizacao_restrita an;
               comparacao_cenarios := Some cenarios |})
    end).

(** *** Solver contracts *)

(** An optimal status comes with a value for every variable of the
    problem, and these values are a feasible point. *)
Definition solver_viavel (solver : Solver) (m : LpProblem) : Prop :=
  fst (solver m) = LpStatusOptimal ->
  viavel m (val_de (snd (solver m))) /\
  Forall (fun x => snd (solver m) (var_nome x) <> None) (variaveis m).

(** An optimal status comes with an optimal point. *)
Definition solver_otimo (solver : Solver) (m : LpProblem) : Prop :=
  fst (solver m) = LpStatusOptimal ->
  otimo m (val_de (snd (solver m))) /\
  Forall (fun x => snd (solver m) (var_nome x) <> None) (variaveis m).

(** A problem without feasible point is reported infeasible. *)
Definition solver_detecta_inviavel (solver : Solver) (m : LpProblem) : Prop :=
  (forall v, ~ viavel m v) -> fst (solver m) = LpStatusInfeasible.

(** Total capacity of the couriers. *)
Definition capacidade_total (st : Otimizador) : Z :=
  fold_right Z.add 0%Z (coluna_capacidade (entregadores st)).

Definition eh_R1 (n : NomeRestricao) : bool :=
  match n with Atribuicao_Unica_Pedido _ => true | _ => false end.

Definition eh_R3 (n : NomeRestricao) : bool :=
  match n with Capacidade_Entregador _ => true | _ => false end.

(** [v] satisfies the constraints of [m] whose name is selected by [p]. *)
Definition satisfaz_nomeadas (m : LpProblem) (p : NomeRestricao -> bool)
    (v : valoracao) : Prop :=
  forall n c, In (n, c) (constraints m) -> p n = true -> satisfaz v c.

(** The three families of constraints of [criar_modelo]. *)
Definition restricoes_R1 (st : Otimizador) : list (NomeRestricao * LpConstraint) :=
  map (fun j => (Atribuicao_Unica_Pedido j,
                 R1 (seq 0 (List.length (entregadores st))) j))
      (seq 0 (List.length (pedidos st))).

Definition restricoes_R2 (st : Otimizador) : list (NomeRestricao * LpConstraint) :=
  map (fun j => (Calculo_Tempo_Pedido j,
                 R2 st (seq 0 (List.length (entregadores st))) j))
      (seq 0 (List.length (pedidos st))).

Definition restricoes_R3 (st : Otimizador) : list (NomeRestricao * LpConstraint) :=
  map (fun i => (Capacidade_Entregador i,
                 R3 st (seq 0 (List.length (pedidos st))) i))
      (seq 0 (List.length (entregadores st))).

(* ================================================================== *)
(** ** Concrete instances *)
(* ================================================================== *)

Definition ent_rapido : Entregador :=
  {| ent_ID := "E1"; ent_cep := "36010-000"; ent_velocidade := 30;
     ent_custo := 10; ent_capacidade := 2; ent_disponibilidade := 8 |}.

Definition ent_lento : Entregador :=
  {| ent_ID := "E2"; ent_cep := "36020-000"; ent_velocidade := 20;
     ent_custo := 8; ent_capacidade := 1; ent_disponibilidade := 8 |}.

Definition ped_expresso : Pedido :=
  {| pedido_id := "P1"; nome_restaurante := "Cantina"; cep_cliente := 36000001;
     prioridade := 3; valor_pedido := 50; tempo_preparo_min := 10;
     tempo_deslocamento_min := 5; distancia_km := 2 |}.

Definition ped_normal : Pedido :=
  {| pedido_id := "P2"; nome_restaurante := "Cantina"; cep_cliente := 36000002;
     prioridade := 1; valor_pedido := 30; tempo_preparo_min := 10;
     tempo_deslocamento_min := 5; distancia_km := 3 |}.

Definition rest_cantina : Restaurante :=
  {| rest_nome := "Cantina"; rest_cep := "36010-000" |}.

Definition otimizador_exemplo (es : list Entregador) (ps : list Pedido) : Otimizador :=
  otimizador_de [rest_cantina] es ps (mapear_restaurantes [rest_cantina]).

(** One courier of capacity 1, two orders. *)
Definition ot_sem_capacidade : Otimizador :=
  otimizador_exemplo [ent_lento] [ped_expresso; ped_normal].

(** A solver run that reports infeasibility. *)
Definition solver_inviavel : Solver := fun _ => (LpStatusInfeasible, sem_valores).

(** *** The cost of a pair, in the model and in the geocoded variant *)

(** The coefficient of [x[i,j]] in the constraint
    [Calculo_Tempo_Pedido_{j}] of the model built by [criar_modelo]. *)
Definition custo_no_modelo (st : Otimizador) (i j : nat) : option np_float :=
  match restricao_de (construir_modelo st) (Calculo_Tempo_Pedido j) with
  | Some c => Some (coef_de (c_rhs c) (x_ i j))
  | None => None
  end.

(** The cost of a pair when the travel distance is the one between the
    courier's base CEP and the restaurant's CEP (the variant of R2 that
    [criar_modelo] leaves commented out:
    [tempos_er[i, j] + tempo_preparo + tempo_deslocamento_cliente]). *)
Definition custo_geocodificado
    (geo : string -> option Coordenadas)
    (dist : Coordenadas -> Coordenadas -> Q)
    (st : Otimizador) (i j : nat) : np_float :=
  let tempo_preparo := tempo_preparo_min (iloc_ped (pedidos st) j) in
  let tempo_deslocamento_cliente := tempo_deslocamento_min (iloc_ped (pedidos st) j) in
  np_add (np_add (calcular_tempo_entregador_restaurante geo dist st i j) tempo_preparo)
         tempo_deslocamento_cliente.

(** The model's cost is the geocoded cost, for every pair. *)
Definition custo_modelo_eh_geocodificado
    (geo : string -> option Coordenadas)
    (dist : Coordenadas -> Coordenadas -> Q) (st : Otimizador) : Prop :=
  forall i j,
    (i < List.length (entregadores st))%nat ->
    (j < List.length (pedidos st))%nat ->
    exists c, custo_no_modelo st i j = Some c /\
              np_eq c (custo_geocodificado geo dist st i j).

(** A geocoder that knows two CEPs of Juiz de Fora. *)
Definition geo_exemplo (cep : string) : option Coordenadas :=
  if String.eqb cep "36010-000" then Some (-(2176 # 100), -(4335 # 100))
  else if String.eqb cep "36020-000" then Some (-(2178 # 100), -(4337 # 100))
  else None.

(** A distance on coordinates for the examples (kilometres along the
    two axes); like the great-circle distance it is 0 between a point
    and itself. *)
Definition dist_exemplo (a b : Coordenadas) : Q :=
  111 * (Qabs (fst a - fst b) + Qabs (snd a - snd b)).

(** One courier based at the restaurant's own CEP, one order. *)
Definition ot_na_porta : Otimizador :=
  otimizador_exemplo [ent_rapido] [ped_expresso].

(** *** Statements that the program does not meet *)

(** The orders left by the cleaning step of [preprocessar_dados]. *)
Definition pedidos_limpos (ob : OtimizadorBruto) : list Pedido :=
  dropna limpar_pedido (ob_pedidos ob).

Definition entregadores_limpos (ob : OtimizadorBruto) : list Entregador :=
  dropna limpar_entregador (ob_entregadores ob).

(** "When cleaning removes every order, [preprocessar_dados] installs
    the synthetic orders and returns True." *)
Definition preprocessar_sempre_prossegue : Prop :=
  forall ob, pedidos_limpos ob = [] ->
    fst (preprocessar_dados ob) = true /\
    pedidos (snd (preprocessar_dados ob)) = dados_exemplo.

(** "For a courier of zero or negative speed the cost estimator hands
    no duration to the model builder." *)
Definition estimador_rejeita_velocidade_nao_positiva : Prop :=
  forall st i j,
    (i < List.length (entregadores st))%nat ->
    (j < List.length (pedidos st))%nat ->
    ent_velocidade (iloc_ent (entregadores st) i) <= 0 ->
    ~ is_fin (calcular_tempo_deslocamento st i j).

(** The solver left an assignment in the variables. *)
Definition tem_atribuicao (s : valores) (st : Otimizador) : Prop :=
  exists i j, (i < List.length (entregadores st))%nat /\
              (j < List.length (pedidos st))%nat /\
              value_eq_1 s (x_ i j) = true.

Definition status_sem_prova (status : LpStatus) : Prop :=
  status <> LpStatusOptimal /\ status <> LpStatusInfeasible /\
  status <> LpStatusUnbounded.

(** "A solve that stops without a proof of optimality reports the
    assignment it found." *)
Definition relata_candidato (solver : Solver) (st : Otimizador) : Prop :=
  forall m, modelo st = Some m ->
    status_sem_prova (fst (solver m)) ->
    tem_atribuicao (snd (solver m)) st ->
    exists r, resultado (estado_final (resolver_modelo solver st)) = Some r /\
              alocacoes r = extrair_alocacoes (com_sol st (snd (solver m))).

(** A courier whose speed column holds a negative number. *)
Definition ent_re : Entregador :=
  {| ent_ID := "E3"; ent_cep := "36010-000"; ent_velocidade := -(30);
     ent_custo := 10; ent_capacidade := 2; ent_disponibilidade := 8 |}.

Definition ot_velocidade_negativa : Otimizador :=
  otimizador_exemplo [ent_re] [ped_expresso].

(** A solver run stopped by its time limit, with an assignment found. *)
Definition solver_tempo_esgotado : Solver :=
  fun _ => (LpStatusNotSolved,
            fun n => match n with
                     | x_ 0 0 => Some 1
                     | T_ 0 => Some 19
                     | _ => None
                     end).

(** No order and no courier survive the cleaning. *)
Definition ob_vazio : OtimizadorBruto :=
  {| ob_restaurantes := [rest_cantina]; ob_entregadores := []; ob_pedidos := [] |}.

(** The only order has no distance; one courier is valid. *)
Definition ob_pedido_invalido : OtimizadorBruto :=
  {| ob_restaurantes := [rest_cantina];
     ob_entregadores :=
       [{| eb_ID := "E1"; eb_cep := "36010-000"; eb_velocidade := Some 30;
           eb_custo := Some 10; eb_capacidade := Some 2%Z;
           eb_disponibilidade := 8 |}];
     ob_pedidos :=
       [{| pb_pedido_id := "P1"; pb_nome_restaurante := "Cantina";
           pb_cep_cliente := 36000001; pb_prioridade := 3;
           pb_valor_pedido := Some 50; pb_tempo_preparo_min := Some 10;
           pb_tempo_deslocamento_min := Some 5; pb_distancia_km := None |}] |}.

(** *** Frames of the scenario runs *)

(** Two courier rows agree on every column but ['Capacidade Máxima']. *)
Definition mesmos_outros_campos (e e' : Entregador) : Prop :=
  ent_ID e = ent_ID e' /\ ent_cep e = ent_cep e' /\
  ent_velocidade e = ent_velocidade e' /\ ent_custo e = ent_custo e' /\
  ent_disponibilidade e = ent_disponibilidade e'.

(** *** Feasibility, constraint by constraint *)

(** What feasibility asks of one constraint: finite coefficients, the
    variables in their domains, the relation satisfied. *)
Definition restricao_ok (v : valoracao) (c : LpConstraint) : Prop :=
  expr_finita (c_lhs c) /\ expr_finita (c_rhs c) /\
  Forall (dominio_ok v) (vars_expr (c_lhs c)) /\
  Forall (dominio_ok v) (vars_expr (c_rhs c)) /\
  satisfaz v c.

(** What feasibility asks of the objective. *)
Definition objetivo_ok (v : valoracao) (m : LpProblem) : Prop :=
  match objective m with
  | Some e => expr_finita e /\ Forall (dominio_ok v) (vars_expr e)
  | None => True
  end.

(** *** A solver by enumeration, for the examples *)

Definition dominio_okb (v : valoracao) (x : LpVariable) : bool :=
  (match lowBound x with Some l => Qle_bool l (v (var_nome x)) | None => true end) &&
  (match upBound x with Some u => Qle_bool (v (var_nome x)) u | None => true end) &&
  (match var_cat x with
   | Continuous => true
   | Integer => Pos.eqb (Qden (Qred (v (var_nome x)))) 1
   | Binary => Qeq_bool (v (var_nome x)) 0 || Qeq_bool (v (var_nome x)) 1
   end).

Definition tem_valor (s : valores) (x : LpVariable) : bool :=
  match s (var_nome x) with Some _ => true | None => false end.

Definition viavelb (m : LpProblem) (s : valores) : bool :=
  forallb (fun e => forallb (fun t => is_finb (snd t)) (termos e)) (exprs_problema m) &&
  forallb (fun x => tem_valor s x && dominio_okb (val_de s) x) (variaveis m) &&
  forallb (fun nc => satisfazb (val_de s) (snd nc)) (constraints m).

(** [a] is at least as good as [b] for the sense of [m]. *)
Definition melhor_ou_igual (m : LpProblem) (a b : valores) : bool :=
  match prob_sense m with
  | LpMinimize => Qle_bool (valor_objetivo_de m (val_de a)) (valor_objetivo_de m (val_de b))
  | LpMaximize => Qle_bool (valor_objetivo_de m (val_de b)) (valor_objetivo_de m (val_de a))
  end.

Fixpoint melhor_candidato (m : LpProblem) (cands : list valores)
    (melhor : option valores) : option valores :=
  match cands with
  | [] => melhor
  | s :: cands' =>
      if viavelb m s then
        match melhor with
        | None => melhor_candidato m cands' (Some s)
        | Some b =>
            if melhor_ou_igual m b s then melhor_candidato m cands' (Some b)
            else melhor_candidato m cands' (Some s)
        end
      else melhor_candidato m cands' melhor
  end.

(** The best feasible candidate of a list, or infeasible. *)
Definition solver_por_candidatos (cands : list valores) : Solver :=
  fun m =>
    match melhor_candidato m cands None with
    | Some s => (LpStatusOptimal, s)
    | None => (LpStatusInfeasible, sem_valores)
    end.

(** All the ways of giving each of [N] orders one of [M] couriers. *)
Fixpoint atribuicoes (M N : nat) : list (list nat) :=
  match N with
  | O => [[]]
  | S N' => flat_map (fun a => map (fun i => i :: a) (seq 0 M)) (atribuicoes M N')
  end.

(** The values of the variables under an assignment [a] (the courier of
    order [j] is [nth j a]). *)
Definition valores_de_atribuicao (st : Otimizador) (a : list nat) : valores :=
  let M := List.length (entregadores st) in
  let N := List.length (pedidos st) in
  fun n =>
    match n with
    | x_ i j =>
        if Nat.ltb i M && Nat.ltb j N
        then Some (if Nat.eqb (nth j a M) i then 1 else 0)
        else None
    | T_ j =>
        if Nat.ltb j N then Some (coef (custo st (nth j a M) j)) else None
    end.

Definition solver_forca_bruta (st : Otimizador) : Solver :=
  solver_por_candidatos
    (map (valores_de_atribuicao st)
         (atribuicoes (List.length (entregadores st)) (List.length (pedidos st)))).

(** *** Coverage of the orders *)

(** Number of entries of an allocation list that deliver order [j]. *)
Definition ocorrencias_pedido (j : nat) (l : list Alocacao) : nat :=
  List.length (filter (fun a => Nat.eqb (a_pedido_idx a) j) l).

(** Two couriers, two orders. *)
Definition ot_dois_por_dois : Otimizador :=
  otimizador_exemplo [ent_rapido; ent_lento] [ped_expresso; ped_normal].

(** *** The deadline constraints *)

Definition restricoes_prazo (ot : Otimizador) (te tp : Q) : list LpConstraint :=
  flat_map (fun j => match restricao_prazo ot te tp j with
                     | Some c => [c]
                     | None => []
                     end)
           (seq 0 (List.length (pedidos ot))).

(** The deadlines of the orders hold in a valuation. *)
Definition prazos_cumpridos (ot : Otimizador) (te tp : Q) (v : valoracao) : Prop :=
  forall j, (j < List.length (pedidos ot))%nat ->
    (prioridade (iloc_ped (pedidos ot) j) = 3%Z -> v (T_ j) <= te) /\
    (prioridade (iloc_ped (pedidos ot) j) = 2%Z -> v (T_ j) <= tp).

Definition analisador_de (ot : Otimizador) : Analisador :=
  {| otimizador := ot; sensibilidade_capacidade := None;
     otimizacao_restrita := None; comparacao_cenarios := None |}.

(** *** Capacity overrides *)

(** The optimizer after [entregadores['Capacidade Máxima'] = c]. *)
Definition com_capacidade (st : Otimizador) (c : Z) : Otimizador :=
  com_entregadores st (broadcast_capacidade c (entregadores st)).

(** The values found by enumeration for the two-by-two example when
    every capacity is [c]. *)
Definition sol_capacidade (c : Z) : valores :=
  snd (solver_forca_bruta ot_dois_por_dois
         (construir_modelo (com_capacidade ot_dois_por_dois c))).

(** A row of the sweep table holds the optimal objective of the model
    in which every capacity is the row's capacity. *)
Definition linha_otima (solver : Solver) (ot0 : Otimizador)
    (r : LinhaSensibilidade) : Prop :=
  let m := construir_modelo (com_capacidade ot0 (ls_capacidade r)) in
  fst (solver m) = LpStatusOptimal /\
  exists o, ls_valor_objetivo r = Some o /\
            o == valor_objetivo_de m (val_de (snd (solver m))).

(** *** Load of the couriers *)

(** Number of entries of an allocation list carried by courier [i]. *)
Definition ocorrencias_entregador (i : nat) (l : list Alocacao) : nat :=
  List.length (filter (fun a => Nat.eqb (a_entregador_idx a) i) l).

(** The realized time of an entry, 0 when the variable has no value. *)
Definition tempo_de (a : Alocacao) : Q :=
  match a_tempo_entrega a with Some t => t | None => 0 end.

(** The realized time of order [j] in an allocation list: the time of
    the first entry of the order, 0 when there is none. *)
Definition tempo_do_pedido (l : list Alocacao) (j : nat) : Q :=
  match find (fun a => Nat.eqb (a_pedido_idx a) j) l with
  | Some a => tempo_de a
  | None => 0
  end.

(** *** Pipelines *)

(** [exemplo_completo] of [exemplo_uso.py] between the loading and the
    export (the same steps open [executar_analise_completa]): the flag of
    [preprocessar_dados] is not looked at. *)
Definition exemplo_completo_nucleo (solver : Solver) (ob : OtimizadorBruto)
  : Res Otimizador bool :=
  let ot := snd (preprocessar_dados ob) in
  let ot := criar_modelo ot in
  resolver_modelo solver ot.

(** Where [main] stops before the export. *)
Inductive EtapaMain : Type :=
| ErroNoPreprocessamento
| ModeloNaoResolvido
| ProntoParaExportar
| ExcecaoCapturada (e : Excecao).

(** [main] between the loading and the export: steps 2, 3 and 4, under
    its [try] / [except Exception]. *)
Definition main_nucleo (solver : Solver) (ob : OtimizadorBruto)
  : EtapaMain * Otimizador :=
  let (ok, ot) := preprocessar_dados ob in
  if negb ok then (ErroNoPreprocessamento, ot)
  else
    let ot := criar_modelo ot in
    match resolver_modelo solver ot with
    | Retorna true ot => (ProntoParaExportar, ot)
    | Retorna false ot => (ModeloNaoResolvido, ot)
    | Levanta e ot => (ExcecaoCapturada e, ot)
    end.

(** Two rows of [restaurantes] with the same name. *)
Definition ob_duas_cantinas : OtimizadorBruto :=
  {| ob_restaurantes :=
       [rest_cantina; {| rest_nome := "Cantina"; rest_cep := "36015-000" |}];
     ob_entregadores := ob_entregadores ob_pedido_invalido;
     ob_pedidos := ob_pedidos ob_pedido_invalido |}.

(** The only order has no distance; one courier of capacity 5 is
    valid. *)
Definition ob_so_entregador : OtimizadorBruto :=
  {| ob_restaurantes := [rest_cantina];
     ob_entregadores :=
       [{| eb_ID := "E1"; eb_cep := "36010-000"; eb_velocidade := Some 30;
           eb_custo := Some 10; eb_capacidade := Some 5%Z;
           eb_disponibilidade := 8 |}];
     ob_pedidos := ob_pedidos ob_pedido_invalido |}.

(** *** The capacity sweep, row by row *)

(** The solve of the model in which every capacity is [c] is reported
    Optimal. *)
Definition eh_otimo (solver : Solver) (ot : Otimizador) (c : Z) : bool :=
  LpStatus_eqb (fst (solver (construir_modelo (com_capacidade ot c)))) LpStatusOptimal.

(** An optimizer without orders and a solver that reports every model
    Optimal, with no values. *)
Definition ot_sem_pedidos : Otimizador :=
  otimizador_exemplo [ent_rapido; ent_lento] [].

Definition solver_sempre_otimo : Solver := fun _ => (LpStatusOptimal, sem_valores).

(** *** The deadline variant beside the base extractor *)

(** The fields of an entry of [resultado['alocacoes']] that an entry of
    the variant's allocation list has too. *)
Definition restrita_de (a : Alocacao) : AlocacaoRestrita :=
  {| ar_entregador_id := a_entregador_id a;
     ar_pedido_id := a_pedido_id a;
     ar_prioridade := a_prioridade a;
     ar_tempo_entrega := a_tempo_entrega a |}.

(** The realized time of an entry of the variant, 0 when the variable
    has no value. *)
Definition tempo_restrito (a : AlocacaoRestrita) : Q :=
  match ar_tempo_entrega a with Some t => t | None => 0 end.

(** *** The reduced-capacity scenario *)

(** The optimizer after
    [entregadores['Capacidade Máxima'] = entregadores['Capacidade Máxima'] // 2 + 1]. *)
Definition com_capacidade_reduzida (st : Otimizador) : Otimizador :=
  com_entregadores st
    (atribuir_capacidade (capacidade_reduzida (entregadores st)) (entregadores st)).

(** The solve of the reduced-capacity model is reported Optimal. *)
Definition reduzido_otimo (solver : Solver) (ot : Otimizador) : bool :=
  LpStatus_eqb (fst (solver (construir_modelo (com_capacidade_reduzida ot))))
               LpStatusOptimal.

(** The keys of the scenario table, in insertion order. *)
Definition chaves_cenarios (solver : Solver) (an : Analisador) : list NomeCenario :=
  (match resultado (otimizador an) with Some _ => [Original] | None => [] end) ++
  (match otimizacao_restrita an with Some _ => [Com_Restricoes_Tempo] | None => [] end) ++
  (if reduzido_otimo solver (otimizador an) then [Capacidade_Reduzida] else []).

(* ================================================================== *)
(** ** The basic analyses of [IFoodAdvancedAnalyzer] *)
(* ================================================================== *)

(** What a basic analysis does: it returns [None] when there is no
    Solution, returns (and stores in [self.analises]) its dictionary, or
    stops on an exception; numpy adds [ValueError] to the exceptions
    met so far. *)
Inductive ExcecaoNp : Type := NpTypeError | NpZeroDivisionError | NpValueError.

Inductive ResAnalise (A : Type) : Type :=
| SemResultado
| Pronto (a : A)
| Falha (e : ExcecaoNp).
Arguments SemResultado {A}.
Arguments Pronto {A} a.
Arguments Falha {A} e.

(** *** [analise_utilizacao_entregadores] *)

(** A value of the dictionary [utilizacao]. *)
Record Utilizacao : Type := {
  u_num_pedidos : nat;
  u_tempo_total : Q;
  u_valor_total : Q;
  u_pedidos : list Alocacao
}.

Definition utilizacao_nova : Utilizacao :=
  {| u_num_pedidos := 0; u_tempo_total := 0; u_valor_total := 0; u_pedidos := [] |}.

(** [if k not in d: d[k] = nova] followed by an update in place of
    [d[k]]; a new key goes to the end (insertion order). *)
Fixpoint dict_atualizar (d : list (string * Utilizacao)) (k : string)
    (f : Utilizacao -> Utilizacao) : list (string * Utilizacao) :=
  match d with
  | [] => [(k, f utilizacao_nova)]
  | (k', u) :: d' =>
      if String.eqb k' k then (k', f u) :: d'
      else (k', u) :: dict_atualizar d' k f
  end.

(** The four updates of one round of the loop. *)
Definition somar_alocacao (a : Alocacao) (t : Q) (u : Utilizacao) : Utilizacao :=
  {| u_num_pedidos := u_num_pedidos u + 1;
     u_tempo_total := u_tempo_total u + t;
     u_valor_total := u_valor_total u + a_valor_pedido a;
     u_pedidos := u_pedidos u ++ [a] |}.

(** The loop over [resultado['alocacoes']]; adding a time that is
    [None] is a [TypeError] ([None] here). *)
Fixpoint agrupar_por_entregador (alocs : list Alocacao)
    (utilizacao : list (string * Utilizacao)) : option (list (string * Utilizacao)) :=
  match alocs with
  | [] => Some utilizacao
  | alocacao :: alocs' =>
      match a_tempo_entrega alocacao with
      | None => None
      | Some t =>
          agrupar_por_entregador alocs'
            (dict_atualizar utilizacao (a_entregador_id alocacao)
                            (somar_alocacao alocacao t))
      end
  end.

(** The dictionary returned; the standard deviation [desvio_pedidos] (a
    square root) is not part of the record. *)
Record AnaliseUtilizacao : Type := {
  entregadores_utilizados : nat;
  entregadores_disponivelis : nat;
  taxa_utilizacao : Q;
  media_pedidos_por_entregador : Q;
  max_pedidos_por_entregador : nat;
  min_pedidos_por_entregador : nat;
  detalhes_utilizacao : list (string * Utilizacao)
}.

Definition np_mean_nat (n : nat) (ns : list nat) : Q :=
  inject_Z (Z.of_nat (list_sum (n :: ns))) /
  inject_Z (Z.of_nat (List.length (n :: ns))).

(** [analise_utilizacao_entregadores].  The entries of the dictionary
    are evaluated in order: the division of [taxa_utilizacao] first,
    then [np.mean] (nan on an empty list) and [np.max], which raises
    [ValueError] on an empty list. *)
Definition analise_utilizacao_entregadores (ot : Otimizador)
  : ResAnalise AnaliseUtilizacao :=
  match resultado ot with
  | None => SemResultado
  | Some r =>
      match agrupar_por_entregador (alocacoes r) [] with
      | None => Falha NpTypeError
      | Some utilizacao =>
          let pedidos_por_entregador :=
            map (fun ku => u_num_pedidos (snd ku)) utilizacao in
          if Nat.eqb (List.length (entregadores ot)) 0
          then Falha NpZeroDivisionError
          else
            match pedidos_por_entregador with
            | [] => Falha NpValueError
            | n :: ns =>
                Pronto
                  {| entregadores_utilizados := List.length utilizacao;
                     entregadores_disponivelis := List.length (entregadores ot);
                     taxa_utilizacao :=
                       inject_Z (Z.of_nat (List.length utilizacao)) /
                       inject_Z (Z.of_nat (List.length (entregadores ot)));
                     media_pedidos_por_entregador := np_mean_nat n ns;
                     max_pedidos_por_entregador := fold_left Nat.max ns n;
                     min_pedidos_por_entregador := fold_left Nat.min ns n;
                     detalhes_utilizacao := utilizacao |}
            end
      end
  end.

(** *** [analise_distribuicao_tempos] *)

(** [sum([1 for t in tempos if p(t)])] *)
Definition contar (p : Q -> bool) (tempos : list Q) : nat :=
  list_sum (map (fun _ => 1%nat) (filter p tempos)).

Record Faixas : Type := {
  muito_rapido : nat;
  rapido : nat;
  normal_ : nat;
  lento : nat;
  muito_lento : nat
}.

(** [a < t <= b] *)
Definition entre (a b : Q) (t : Q) : bool :=
  negb (Qle_bool t a) && Qle_bool t b.

Definition distribuicao_faixas (tempos : list Q) : Faixas :=
  {| muito_rapido := contar (fun t => Qle_bool t 30) tempos;
     rapido := contar (entre 30 45) tempos;
     normal_ := contar (entre 45 60) tempos;
     lento := contar (entre 60 90) tempos;
     muito_lento := contar (fun t => negb (Qle_bool t 90)) tempos |}.

(** [[a['tempo_entrega'] for a in alocacoes]], when no time is
    [None]. *)
Fixpoint tempos_das_alocacoes (alocs : list Alocacao) : option (list Q) :=
  match alocs with
  | [] => Some []
  | a :: alocs' =>
      match a_tempo_entrega a, tempos_das_alocacoes alocs' with
      | Some t, Some ts => Some (t :: ts)
      | _, _ => None
      end
  end.

(** The dictionary returned.  The mean, the median, the quartiles and
    the standard deviation are floating-point statistics whose rounding
    the record does not follow: they are not part of it. *)
Record AnaliseTempos : Type := {
  at_minimo : Q;
  at_maximo : Q;
  at_tempos_detalhados : list Q;
  at_distribuicao_faixas : Faixas
}.

(** [analise_distribuicao_tempos]: [np.mean] raises [TypeError] on a
    [None]; on an empty list the means are nan and [np.min] raises
    [ValueError]. *)
Definition analise_distribuicao_tempos (ot : Otimizador) : ResAnalise AnaliseTempos :=
  match resultado ot with
  | None => SemResultado
  | Some r =>
      match tempos_das_alocacoes (alocacoes r) with
      | None => Falha NpTypeError
      | Some [] => Falha NpValueError
      | Some (t :: ts) =>
          Pronto
            {| at_minimo := fold_left Qmin ts t;
               at_maximo := fold_left Qmax ts t;
               at_tempos_detalhados := t :: ts;
               at_distribuicao_faixas := distribuicao_faixas (t :: ts) |}
      end
  end.

(** What a finished grouping holds for a courier id [k]: the entries of
    that id, in the order of the list, and their aggregates. *)
Definition grupo_ok (alocs : list Alocacao) (ku : string * Utilizacao) : Prop :=
  u_pedidos (snd ku) =
    filter (fun a => String.eqb (a_entregador_id a) (fst ku)) alocs /\
  u_pedidos (snd ku) <> [] /\
  u_num_pedidos (snd ku) = List.length (u_pedidos (snd ku)) /\
  u_tempo_total (snd ku) == somaQ (map tempo_de (u_pedidos (snd ku))) /\
  u_valor_total (snd ku) == somaQ (map a_valor_pedido (u_pedidos (snd ku))).

(** A Solution with three entries: two for courier "E1", one for "E2". *)
Definition aloc_exemplo (e : string) (i j : nat) (t : Q) : Alocacao :=
  {| a_entregador_id := e; a_entregador_idx := i;
     a_pedido_id := str_nat j; a_pedido_idx := j;
     a_restaurante := "Cantina"; a_prioridade := 1;
     a_valor_pedido := 30; a_tempo_entrega := Some t |}.

Definition ot_com_resultado : Otimizador :=
  com_resultado ot_dois_por_dois
    {| valor_objetivo := Some 150; tempo_total := 150; tempo_medio := 50;
       alocacoes := [aloc_exemplo "E1" 0 0 30; aloc_exemplo "E2" 1 1 45;
                     aloc_exemplo "E1" 0 2 75];
       num_entregadores_usados := 2; num_pedidos_alocados := 3;
       num_pedidos_total := 3 |}.

(* ================================================================== *)
(** ** The geocoding cache *)
(* ================================================================== *)

(** What a query to the geocoder gives: a location, no location, or an
    exception. *)
Inductive RespostaGeo : Type :=
| Local (coords : Coordenadas)
| SemLocal
| ErroGeo.

(** The rate-limited geocoder, as the program sees it: the answer to a
    query may depend on when it is asked (the number of queries sent
    before). *)
Definition Geocoder : Type := nat -> string -> RespostaGeo.

(** [self.cep_cache] and the queries sent so far, oldest first. *)
Record EstadoGeo : Type := {
  cep_cache : list (string * option Coordenadas);
  consultas : list string
}.

Definition estado_geo_inicial : EstadoGeo := {| cep_cache := []; consultas := [] |}.

(** [cep in self.cep_cache] and [self.cep_cache[cep]] *)
Fixpoint cache_get (d : list (string * option Coordenadas)) (k : string)
  : option (option Coordenadas) :=
  match d with
  | [] => None
  | (k', v) :: d' => if String.eqb k' k then Some v else cache_get d' k
  end.

(** [str.strip()] on ASCII text (a CEP is made of digits and hyphens):
    the characters 9 to 13 and 28 to 32 are white space. *)
Definition eh_espaco (c : Ascii.ascii) : bool :=
  let n := Ascii.nat_of_ascii c in
  (Nat.leb 9 n && Nat.leb n 13) || (Nat.leb 28 n && Nat.leb n 32).

Fixpoint lstrip (s : string) : string :=
  match s with
  | EmptyString => EmptyString
  | String c s' => if eh_espaco c then lstrip s' else s
  end.

Fixpoint string_rev (s : string) : string :=
  match s with
  | EmptyString => EmptyString
  | String c s' => (string_rev s' ++ String c EmptyString)%string
  end.

Definition strip (s : string) : string :=
  string_rev (lstrip (string_rev (lstrip s))).

(** [s.replace('-', '')] *)
Fixpoint remover_hifens (s : string) : string :=
  match s with
  | EmptyString => EmptyString
  | String c s' =>
      if Ascii.eqb c (Ascii.ascii_of_nat 45) then remover_hifens s'
      else String c (remover_hifens s')
  end.

(** [str(cep).strip().replace('-', '')] *)
Definition normalizar_cep (cep : string) : string := remover_hifens (strip cep).

Definition consulta_de (cep : string) : string :=
  (cep ++ ", Juiz de Fora, Brazil")%string.

(** [obter_coordenadas_por_cep]: a hit returns the cached value; a miss
    sends one query and caches its outcome, a failure as [None]. *)
Definition obter_coordenadas_por_cep (geocode : Geocoder) (cep : string)
    (e : EstadoGeo) : option Coordenadas * EstadoGeo :=
  let cep := normalizar_cep cep in
  match cache_get (cep_cache e) cep with
  | Some v => (v, e)
  | None =>
      let query := consulta_de cep in
      let location := geocode (List.length (consultas e)) query in
      let v := match location with
               | Local coords => Some coords
               | SemLocal => None
               | ErroGeo => None
               end in
      (v, {| cep_cache := (cep, v) :: cep_cache e;
             consultas := consultas e ++ [query] |})
  end.

(** [calcular_tempo_entregador_restaurante] with the cache threaded
    through its two lookups. *)
Definition calcular_tempo_entregador_restaurante_com_cache
    (geocode : Geocoder) (haversine_km : Coordenadas -> Coordenadas -> Q)
    (st : Otimizador) (entregador_idx pedido_idx : nat) (e : EstadoGeo)
  : np_float * EstadoGeo :=
  let entregador := iloc_ent (entregadores st) entregador_idx in
  let cep_entregador := ent_cep entregador in
  let velocidade_kmh := ent_velocidade entregador in
  let nome_rest := nome_restaurante (iloc_ped (pedidos st) pedido_idx) in
  let cep_restaurante := dict_get (mapa_restaurante_cep st) nome_rest in
  let (coords_entregador, e) := obter_coordenadas_por_cep geocode cep_entregador e in
  let (coords_restaurante, e) :=
    obter_coordenadas_por_cep geocode (str_cep cep_restaurante) e in
  match coords_entregador, coords_restaurante with
  | Some _, Some _ =>
      let distancia :=
        calcular_distancia_coordenadas haversine_km coords_entregador
                                       coords_restaurante in
      if Qeq_bool velocidade_kmh 0 then (Fin 9999, e)
      else (np_mul (np_div distancia velocidade_kmh) 60, e)
  | _, _ => (Fin 9999, e)
  end.

(** The lookups of a list of CEPs, one after the other. *)
Fixpoint consultar_ceps (geocode : Geocoder) (ceps : list string) (e : EstadoGeo)
  : list (option Coordenadas) * EstadoGeo :=
  match ceps with
  | [] => ([], e)
  | cep :: ceps' =>
      let (v, e1) := obter_coordenadas_por_cep geocode cep e in
      let (vs, e2) := consultar_ceps geocode ceps' e1 in
      (v :: vs, e2)
  end.

(** A geocoder whose answers do not change over time, and the function
    of the CEP it then defines. *)
Definition geocoder_estavel (geocode : Geocoder) : Prop :=
  forall n m q, geocode n q = geocode m q.

Definition coordenadas_de (geocode : Geocoder) (cep : string) : option Coordenadas :=
  match geocode 0%nat (consulta_de (normalizar_cep cep)) with
  | Local coords => Some coords
  | _ => None
  end.

(** Every cached value is the geocoder's answer for its key. *)
Definition cache_coerente (geocode : Geocoder) (e : EstadoGeo) : Prop :=
  forall k v, cache_get (cep_cache e) k = Some v ->
    v = match geocode 0%nat (consulta_de k) with
        | Local coords => Some coords
        | _ => None
        end.

(** A geocoder that knows two CEPs, and one that is down. *)
Definition geocoder_exemplo : Geocoder :=
  fun _ q =>
    if String.eqb q "36010000, Juiz de Fora, Brazil" then Local (1, 2)
    else if String.eqb q "36015000, Juiz de Fora, Brazil" then Local (3, 4)
    else SemLocal.

Definition geocoder_fora_do_ar : Geocoder := fun _ _ => ErroGeo.

(** *** The feasible points of the model, spelled out *)

(** [v] is a binary assignment of every order to one courier, within
    the capacities, with every time non-negative and equal to the cost
    of the chosen pair. *)
Definition atribuicao_viavel (st : Otimizador) (v : valoracao) : Prop :=
  let I := seq 0 (List.length (entregadores st)) in
  let J := seq 0 (List.length (pedidos st)) in
  (forall i j, In i I -> In j J -> v (x_ i j) == 0 \/ v (x_ i j) == 1) /\
  (forall j, In j J -> somaQ (map (fun i => v (x_ i j)) I) == 1) /\
  (forall j, In j J -> 0 <= v (T_ j)) /\
  (forall j, In j J ->
     v (T_ j) == somaQ (map (fun i => coef (custo st i j) * v (x_ i j)) I)) /\
  (forall i, In i I ->
     somaQ (map (fun j => v (x_ i j)) J) <=
     inject_Z (ent_capacidade (iloc_ent (entregadores st) i))).

(* ================================================================== *)
(** ** Exporting the Solution *)
(* ================================================================== *)

(** [s.replace(old, new)] for a non-empty [old]: the occurrences of
    [old] are replaced from left to right, without overlap.  [skip] is
    the number of characters of the occurrence just replaced that are
    still to be passed over. *)
Fixpoint substituir (old new : string) (skip : nat) (s : string) : string :=
  match s with
  | EmptyString => EmptyString
  | String c s' =>
      match skip with
      | S k => substituir old new k s'
      | O =>
          if String.prefix old s
          then (new ++ substituir old new (String.length old - 1) s')%string
          else String c (substituir old new 0 s')
      end
  end.

Definition str_replace (old new s : string) : string := substituir old new 0 s.

(** [sub in s], for a non-empty [sub]. *)
Fixpoint contem (sub s : string) : bool :=
  match s with
  | EmptyString => false
  | String _ s' => String.prefix sub s || contem sub s'
  end.

(** What a file written by the export holds. *)
Inductive Conteudo : Type :=
| ArquivoJSON (r : Resultado) (timestamp : string) (parametros : nat * nat * nat)
| ArquivoCSV (alocs : list Alocacao).

(** The files written so far, newest first. *)
Definition Arquivos : Type := list (string * Conteudo).

Fixpoint ler (fs : Arquivos) (caminho : string) : option Conteudo :=
  match fs with
  | [] => None
  | (c, x) :: fs' => if String.eqb c caminho then Some x else ler fs' caminho
  end.

(** The optimizer, the two keys that the export adds to
    [self.resultado] (['timestamp'] and ['parametros']), and the
    files. *)
Record EstadoExport : Type := {
  ee_otimizador : Otimizador;
  ee_extra : option (string * (nat * nat * nat));
  ee_arquivos : Arquivos
}.

(** [exportar_resultados]; [agora] is [datetime.now().isoformat()] and
    [pode_gravar] tells whether [open(path, 'w')] succeeds (a failure
    is an exception, caught by the [try]). *)
Definition exportar_resultados (agora : string) (pode_gravar : string -> bool)
    (arquivo_saida : string) (e : EstadoExport) : bool * EstadoExport :=
  let ot := ee_otimizador e in
  match resultado ot with
  | None => (false, e)
  | Some r =>
      let parametros :=
        (List.length (entregadores ot), List.length (pedidos ot),
         List.length (restaurantes ot)) in
      let extra := Some (agora, parametros) in
      if negb (pode_gravar arquivo_saida)
      then (false, {| ee_otimizador := ot; ee_extra := extra;
                      ee_arquivos := ee_arquivos e |})
      else
        let fs := (arquivo_saida, ArquivoJSON r agora parametros) :: ee_arquivos e in
        let arquivo_csv := str_replace ".json" "_alocacoes.csv" arquivo_saida in
        if negb (pode_gravar arquivo_csv)
        then (false, {| ee_otimizador := ot; ee_extra := extra; ee_arquivos := fs |})
        else (true, {| ee_otimizador := ot; ee_extra := extra;
                       ee_arquivos := (arquivo_csv, ArquivoCSV (alocacoes r)) :: fs |})
  end.

(** *** The Solution that [extrair_resultado] stores *)

Definition solucao_extraida (st : Otimizador) (m : LpProblem) : Resultado :=
  {| valor_objetivo := valor_do_objetivo m (sol st);
     tempo_total := somaQ (tempos_validos st);
     tempo_medio :=
       somaQ (tempos_validos st) / inject_Z (Z.of_nat (List.length (pedidos st)));
     alocacoes := extrair_alocacoes st;
     num_entregadores_usados :=
       List.length (nodup Nat.eq_dec (map a_entregador_idx (extrair_alocacoes st)));
     num_pedidos_alocados := List.length (extrair_alocacoes st);
     num_pedidos_total := List.length (pedidos st) |}.

(** An Optimal status comes with a value for every variable of the
    problem. *)
Definition solver_valora (solver : Solver) (m : LpProblem) : Prop :=
  fst (solver m) = LpStatusOptimal ->
  Forall (fun x => snd (solver m) (var_nome x) <> None) (variaveis m).

(** Every cost of the model is a finite number: PuLP refuses to
    multiply a variable by [inf] or [nan], so [criar_modelo] builds its
    model only then.  It holds when no courier has speed 0. *)
Definition custos_finitos (st : Otimizador) : Prop :=
  forall i j, (i < List.length (entregadores st))%nat ->
              (j < List.length (pedidos st))%nat -> is_fin (custo st i j).

(* ================================================================== *)
(** * Properties *)
(* ================================================================== *)

(** ** Sums of rationals *)

Lemma somaQ_app (l1 l2 : list Q) : somaQ (l1 ++ l2) == somaQ l1 + somaQ l2.
Proof.
  induction l1 as [|a l1 IH]; simpl.
  - lra.
  - rewrite IH. lra.
Qed.

Lemma somaQ_map_ext {A} (f g : A -> Q) (l : list A) :
  (forall a, In a l -> f a == g a) -> somaQ (map f l) == somaQ (map g l).
Proof.
  induction l as [|a l IH]; simpl; intros H.
  - lra.
  - rewrite (H a (or_introl eq_refl)), IH; [lra|].
    intros b Hb. apply H. now right.
Qed.

Lemma somaQ_map_plus {A} (f g : A -> Q) (l : list A) :
  somaQ (map (fun a => f a + g a) l) == somaQ (map f l) + somaQ (map g l).
Proof.
  induction l as [|a l IH]; simpl.
  - lra.
  - rewrite IH. lra.
Qed.

Lemma somaQ_map_const {A} (c : Q) (l : list A) :
  somaQ (map (fun _ => c) l) == inject_Z (Z.of_nat (List.length l)) * c.
Proof.
  induction l as [|a l IH].
  - cbn [map somaQ List.length Z.of_nat]. unfold inject_Z. lra.
  - cbn [map somaQ List.length].
    rewrite IH, Nat2Z.inj_succ, <- Z.add_1_r, inject_Z_plus.
    change (inject_Z 1) with 1. lra.
Qed.

(** Exchange of two finite sums. *)
Lemma somaQ_troca {A B} (f : A -> B -> Q) (la : list A) (lb : list B) :
  somaQ (map (fun a => somaQ (map (fun b => f a b) lb)) la) ==
  somaQ (map (fun b => somaQ (map (fun a => f a b) la)) lb).
Proof.
  induction la as [|a la IH]; simpl.
  - induction lb as [|b lb IHb]; simpl; [lra|]. rewrite <- IHb. lra.
  - rewrite IH. rewrite <- somaQ_map_plus. apply somaQ_map_ext. intros; lra.
Qed.

Lemma somaQ_map_le {A} (f g : A -> Q) (l : list A) :
  (forall a, In a l -> f a <= g a) -> somaQ (map f l) <= somaQ (map g l).
Proof.
  induction l as [|a l IH]; simpl; intros H.
  - lra.
  - assert (f a <= g a) by (apply H; now left).
    assert (somaQ (map f l) <= somaQ (map g l)) by (apply IH; intros; apply H; now right).
    lra.
Qed.

Lemma somaQ_inject_Z (l : list Z) :
  somaQ (map inject_Z l) == inject_Z (fold_right Z.add 0%Z l).
Proof.
  induction l as [|a l IH]; simpl.
  - reflexivity.
  - rewrite IH, inject_Z_plus. lra.
Qed.

(** ** Values of expressions *)

Lemma valor_expr_var v x : valor_expr v (expr_var x) == v (var_nome x).
Proof. unfold valor_expr, valor_termo; simpl. lra. Qed.

Lemma valor_expr_const v c : valor_expr v (expr_const c) == c.
Proof. unfold valor_expr; simpl. lra. Qed.

Lemma valor_expr_mul v x c : valor_expr v (expr_mul x c) == coef c * v (var_nome x).
Proof.
  unfold expr_mul. destruct c as [q| |]; try (unfold valor_expr, valor_termo; simpl; lra).
  destruct (Qeq_bool q 0) eqn:E; unfold valor_expr, valor_termo; simpl.
  - apply Qeq_bool_iff in E. rewrite E. lra.
  - lra.
Qed.

Lemma valor_expr_lpSum v (l : list LpAffineExpression) :
  valor_expr v (lpSum l) == somaQ (map (valor_expr v) l).
Proof.
  unfold valor_expr at 1. cbn [lpSum termos constante].
  induction l as [|e l IH]; cbn [flat_map map somaQ].
  - lra.
  - rewrite map_app, somaQ_app. unfold valor_expr at 1. lra.
Qed.

Lemma valor_lpSum_map {A} v (f : A -> LpAffineExpression) (l : list A) :
  valor_expr v (lpSum (map f l)) == somaQ (map (fun a => valor_expr v (f a)) l).
Proof. rewrite valor_expr_lpSum, map_map. reflexivity. Qed.

(** ** Shape of the models *)

Lemma fold_add_restricao {A} (nm : A -> NomeRestricao) (f : A -> LpConstraint)
    (l : list A) (m : LpProblem) :
  let m' := fold_left (fun m a => add_restricao m (nm a) (f a)) l m in
  constraints m' = constraints m ++ map (fun a => (nm a, f a)) l /\
  objective m' = objective m /\
  prob_sense m' = prob_sense m.
Proof.
  revert m. induction l as [|a l IH]; intros m; simpl.
  - now rewrite app_nil_r.
  - destruct (IH (add_restricao m (nm a) (f a))) as (Hc & Ho & Hs).
    rewrite Hc, Ho, Hs. simpl. now rewrite <- app_assoc.
Qed.

Lemma constraints_construir_modelo st :
  constraints (construir_modelo st) =
  restricoes_R1 st ++ restricoes_R2 st ++ restricoes_R3 st.
Proof.
  unfold construir_modelo. cbn [set_objective constraints].
  rewrite (proj1 (fold_add_restricao _ _ _ _)).
  rewrite (proj1 (fold_add_restricao _ _ _ _)).
  rewrite (proj1 (fold_add_restricao _ _ _ _)).
  simpl. now rewrite <- app_assoc.
Qed.

Lemma objective_construir_modelo st :
  objective (construir_modelo st) =
  Some (objetivo_ponderado st (seq 0 (List.length (pedidos st)))).
Proof. reflexivity. Qed.

Lemma sense_construir_modelo st : prob_sense (construir_modelo st) = LpMinimize.
Proof.
  unfold construir_modelo. cbn [set_objective prob_sense].
  rewrite (proj2 (proj2 (fold_add_restricao _ _ _ _))).
  rewrite (proj2 (proj2 (fold_add_restricao _ _ _ _))).
  rewrite (proj2 (proj2 (fold_add_restricao _ _ _ _))).
  reflexivity.
Qed.

Lemma valor_objetivo_ponderado st v (J : list nat) :
  valor_expr v (objetivo_ponderado st J) ==
  somaQ (map (fun j => v (T_ j) *
                       inject_Z (prioridade (iloc_ped (pedidos st) j))) J).
Proof.
  unfold objetivo_ponderado. rewrite valor_lpSum_map.
  apply somaQ_map_ext. intros j _. rewrite valor_expr_mul. simpl. lra.
Qed.

Lemma valor_objetivo_simples v (J : list nat) :
  valor_expr v (objetivo_simples J) == somaQ (map (fun j => v (T_ j)) J).
Proof.
  unfold objetivo_simples. rewrite valor_lpSum_map.
  apply somaQ_map_ext. intros j _. now rewrite valor_expr_var.
Qed.

Lemma map_nth_seq {A B} (f : A -> B) (l : list A) (d : A) :
  map (fun k => f (nth k l d)) (seq 0 (List.length l)) = map f l.
Proof.
  induction l as [|a l IH]; simpl; [reflexivity|].
  f_equal. rewrite <- seq_shift, map_map. exact IH.
Qed.

Lemma in_restricoes_R1 st j :
  (j < List.length (pedidos st))%nat ->
  In (Atribuicao_Unica_Pedido j, R1 (seq 0 (List.length (entregadores st))) j)
     (constraints (construir_modelo st)).
Proof.
  intros Hj. rewrite constraints_construir_modelo. apply in_or_app. left.
  unfold restricoes_R1.
  apply (in_map (fun j => (Atribuicao_Unica_Pedido j, R1 _ j))).
  apply in_seq. lia.
Qed.

Lemma in_restricoes_R2 st j :
  (j < List.length (pedidos st))%nat ->
  In (Calculo_Tempo_Pedido j, R2 st (seq 0 (List.length (entregadores st))) j)
     (constraints (construir_modelo st)).
Proof.
  intros Hj. rewrite constraints_construir_modelo.
  apply in_or_app. right. apply in_or_app. left.
  unfold restricoes_R2.
  apply (in_map (fun j => (Calculo_Tempo_Pedido j, R2 st _ j))).
  apply in_seq. lia.
Qed.

Lemma in_restricoes_R3 st i :
  (i < List.length (entregadores st))%nat ->
  In (Capacidade_Entregador i, R3 st (seq 0 (List.length (pedidos st))) i)
     (constraints (construir_modelo st)).
Proof.
  intros Hi. rewrite constraints_construir_modelo.
  apply in_or_app. right. apply in_or_app. right.
  unfold restricoes_R3.
  apply (in_map (fun i => (Capacidade_Entregador i, R3 st _ i))).
  apply in_seq. lia.
Qed.

(** What R1 and R3 say of a valuation. *)
Lemma satisfaz_R1 v (I : list nat) j :
  satisfaz v (R1 I j) <-> somaQ (map (fun i => v (x_ i j)) I) == 1.
Proof.
  unfold satisfaz, R1; cbn [restr c_sentido c_lhs c_rhs].
  rewrite valor_lpSum_map, valor_expr_const.
  assert (E : somaQ (map (fun i => valor_expr v (expr_var (var_x i j))) I) ==
              somaQ (map (fun i => v (x_ i j)) I)).
  { apply somaQ_map_ext. intros i _. now rewrite valor_expr_var. }
  rewrite E. reflexivity.
Qed.

Lemma satisfaz_R3 st v (J : list nat) i :
  satisfaz v (R3 st J i) <->
  somaQ (map (fun j => v (x_ i j)) J) <=
  inject_Z (ent_capacidade (iloc_ent (entregadores st) i)).
Proof.
  unfold satisfaz, R3; cbn [restr c_sentido c_lhs c_rhs].
  rewrite valor_lpSum_map, valor_expr_const.
  assert (E : somaQ (map (fun j => valor_expr v (expr_var (var_x i j))) J) ==
              somaQ (map (fun j => v (x_ i j)) J)).
  { apply somaQ_map_ext. intros j _. now rewrite valor_expr_var. }
  rewrite E. reflexivity.
Qed.

(** Double counting: unique assignment needs as many capacity units as
    there are orders. *)
Lemma atribuicao_exige_capacidade st v :
  satisfaz_nomeadas (construir_modelo st) eh_R1 v ->
  satisfaz_nomeadas (construir_modelo st) eh_R3 v ->
  (Z.of_nat (List.length (pedidos st)) <= capacidade_total st)%Z.
Proof.
  intros H1 H3.
  set (I := seq 0 (List.length (entregadores st))).
  set (J := seq 0 (List.length (pedidos st))).
  assert (E1 : somaQ (map (fun j => somaQ (map (fun i => v (x_ i j)) I)) J) ==
               inject_Z (Z.of_nat (List.length (pedidos st)))).
  { rewrite (somaQ_map_ext _ (fun _ => 1)).
    - rewrite somaQ_map_const. unfold J. rewrite length_seq. lra.
    - intros j Hj. apply in_seq in Hj. apply satisfaz_R1.
      apply (H1 (Atribuicao_Unica_Pedido j)); [|reflexivity].
      apply in_restricoes_R1. lia. }
  assert (E3 : somaQ (map (fun i => somaQ (map (fun j => v (x_ i j)) J)) I) <=
               inject_Z (capacidade_total st)).
  { unfold capacidade_total, coluna_capacidade.
    rewrite <- somaQ_inject_Z, map_map.
    rewrite <- (map_nth_seq (fun e => inject_Z (ent_capacidade e))
                            (entregadores st) entregador_nulo).
    apply somaQ_map_le. intros i Hi. apply in_seq in Hi.
    apply (satisfaz_R3 st v J i).
    apply (H3 (Capacidade_Entregador i)); [|reflexivity].
    apply in_restricoes_R3. lia. }
  rewrite (somaQ_troca (fun i j => v (x_ i j)) I J) in E3.
  rewrite E1 in E3. now rewrite Zle_Qle.
Qed.

Lemma viavel_satisfaz_nomeadas m p v : viavel m v -> satisfaz_nomeadas m p v.
Proof.
  intros (_ & _ & Hc) n c Hin _.
  rewrite Forall_forall in Hc. exact (Hc (n, c) Hin).
Qed.

(** ** The solver adapter *)

Lemma resolver_modelo_nao_otimo solver st m :
  modelo st = Some m ->
  fst (solver m) <> LpStatusOptimal ->
  resolver_modelo solver st = Retorna false (com_sol st (snd (solver m))).
Proof.
  intros Hm Hs. unfold resolver_modelo. rewrite Hm.
  destruct (solver m) as [status s]. simpl in *.
  destruct status; try reflexivity. congruence.
Qed.

Lemma resolver_modelo_otimo solver st m :
  modelo st = Some m ->
  fst (solver m) = LpStatusOptimal ->
  resolver_modelo solver st =
  bind (extrair_resultado (com_sol st (snd (solver m))))
       (fun _ st => Retorna true st).
Proof.
  intros Hm Hs. unfold resolver_modelo. rewrite Hm.
  destruct (solver m) as [status s]. simpl in *. now subst.
Qed.

Lemma valor_do_objetivo_ok m s :
  Forall (fun x => s (var_nome x) <> None) (variaveis m) ->
  exists o, valor_do_objetivo m s = Some o /\
            o == valor_objetivo_de m (val_de s).
Proof.
  intros Hs. unfold valor_do_objetivo, valor_objetivo_de.
  destruct (objective m) as [e|] eqn:Eo; [|exists 0; split; reflexivity].
  destruct (expr_bool e) eqn:Eb.
  - unfold value.
    assert (F : forallb (fun t => match s (var_nome (fst t)) with
                                  | Some _ => true | None => false end)
                        (termos e) = true).
    { apply forallb_forall. intros t Ht. rewrite Forall_forall in Hs.
      assert (Hin : In (fst t) (variaveis m)).
      { unfold variaveis, exprs_problema. rewrite Eo.
        apply in_flat_map. exists e. split; [now left|].
        unfold vars_expr. now apply in_map. }
      specialize (Hs _ Hin). destruct (s (var_nome (fst t))); [reflexivity|contradiction]. }
    rewrite F. eexists. split; reflexivity.
  - exists 0. split; [reflexivity|].
    unfold expr_bool in Eb. apply orb_false_elim in Eb. destruct Eb as [Ec Et].
    apply negb_false_iff in Ec, Et.
    apply Qeq_bool_iff in Ec. apply Nat.eqb_eq in Et.
    unfold valor_expr. destruct (termos e); [|discriminate]. simpl. lra.
Qed.

(** [extrair_resultado] on an optimizer that has a model: it stops only
    on the [TypeError] of the report, after the Solution is stored. *)
Lemma extrair_resultado_casos st m :
  modelo st = Some m ->
  (pedidos st = [] -> extrair_resultado st = Retorna tt st) /\
  (pedidos st <> [] ->
   exists st',
     resultado st' <> None /\
     entregadores st' = entregadores st /\ pedidos st' = pedidos st /\
     extrair_resultado st =
       match valor_do_objetivo m (sol st) with
       | Some _ => Retorna tt st'
       | None => Levanta TypeError st'
       end).
Proof.
  intros Hm. unfold extrair_resultado. split.
  - intros ->. reflexivity.
  - intros HN. destruct (pedidos st) as [|p ps] eqn:Ep; [contradiction|].
    cbn [List.length Nat.eqb]. rewrite Hm.
    eexists. split; [|split; [|split; [|reflexivity]]].
    + cbn [com_resultado resultado]. discriminate.
    + reflexivity.
    + cbn [com_resultado pedidos]. exact Ep.
Qed.

Lemma extrair_resultado_valorado st m o :
  modelo st = Some m -> pedidos st <> [] ->
  valor_do_objetivo m (sol st) = Some o ->
  extrair_resultado st = Retorna tt (com_resultado st (solucao_extraida st m)).
Proof.
  intros Hm HN Ho. unfold extrair_resultado, solucao_extraida.
  destruct (Nat.eqb (List.length (pedidos st)) 0) eqn:E.
  - apply Nat.eqb_eq, length_zero_iff_nil in E. contradiction.
  - rewrite Hm, Ho. reflexivity.
Qed.

(** An Optimal solve that gives every variable a value, over a
    non-empty order set: [resolver_modelo] stores the Solution and
    returns [True]. *)
Lemma resolver_modelo_otimo_valorado solver st m :
  modelo st = Some m ->
  fst (solver m) = LpStatusOptimal ->
  Forall (fun x => snd (solver m) (var_nome x) <> None) (variaveis m) ->
  pedidos st <> [] ->
  let st1 := com_sol st (snd (solver m)) in
  resolver_modelo solver st =
    Retorna true (com_resultado st1 (solucao_extraida st1 m)).
Proof.
  intros Hm Hopt Hval HN st1.
  rewrite (resolver_modelo_otimo solver st Hm Hopt).
  destruct (valor_do_objetivo_ok m _ Hval) as (o & Ho & _).
  change (com_sol st (snd (solver m))) with st1.
  rewrite (@extrair_resultado_valorado st1 m o Hm HN Ho).
  reflexivity.
Qed.

Lemma resolver_modelo_otimo_extrai solver st :
  fst (solver (construir_modelo st)) = LpStatusOptimal ->
  Forall (fun x => snd (solver (construir_modelo st)) (var_nome x) <> None)
         (variaveis (construir_modelo st)) ->
  pedidos st <> [] ->
  let st1 := com_sol (criar_modelo st) (snd (solver (construir_modelo st))) in
  resolver_modelo solver (criar_modelo st) =
    Retorna true (com_resultado st1 (solucao_extraida st1 (construir_modelo st))).
Proof.
  intros Hopt Hval HN.
  exact (@resolver_modelo_otimo_valorado solver (criar_modelo st)
           (construir_modelo st) eq_refl Hopt Hval HN).
Qed.

Lemma LpStatus_eqb_otimo status :
  LpStatus_eqb status LpStatusOptimal = true <-> status = LpStatusOptimal.
Proof. destruct status; simpl; split; congruence. Qed.

(** [resolver_modelo] right after [criar_modelo], case by case. *)
Lemma resolver_modelo_criar_casos solver st :
  let m := construir_modelo st in
  let st1 := com_sol (criar_modelo st) (snd (solver m)) in
  let st2 := com_resultado st1 (solucao_extraida st1 m) in
  resolver_modelo solver (criar_modelo st) =
    if LpStatus_eqb (fst (solver m)) LpStatusOptimal then
      if Nat.eqb (List.length (pedidos st)) 0 then Retorna true st1
      else match valor_do_objetivo m (snd (solver m)) with
           | Some _ => Retorna true st2
           | None => Levanta TypeError st2
           end
    else Retorna false st1.
Proof.
  intros m st1 st2.
  destruct (LpStatus_eqb (fst (solver m)) LpStatusOptimal) eqn:E.
  - apply LpStatus_eqb_otimo in E.
    rewrite (resolver_modelo_otimo solver (criar_modelo st) eq_refl E).
    change (com_sol (criar_modelo st) (snd (solver (construir_modelo st)))) with st1.
    unfold extrair_resultado.
    change (pedidos st1) with (pedidos st).
    destruct (Nat.eqb (List.length (pedidos st)) 0); [reflexivity|].
    change (modelo st1) with (Some m). change (sol st1) with (snd (solver m)).
    cbv beta iota. subst st2. unfold solucao_extraida.
    change (pedidos st1) with (pedidos st). change (sol st1) with (snd (solver m)).
    destruct (valor_do_objetivo m (snd (solver m))); reflexivity.
  - assert (Hn : fst (solver m) <> LpStatusOptimal)
      by (intros Ho; apply LpStatus_eqb_otimo in Ho; congruence).
    now rewrite (resolver_modelo_nao_otimo solver (criar_modelo st) eq_refl Hn).
Qed.

Lemma custo_finito_iff st i j :
  is_fin (custo st i j) <-> ~ ent_velocidade (iloc_ent (entregadores st) i) == 0.
Proof.
  unfold custo, calcular_tempo_deslocamento, np_div.
  destruct (Qeq_bool (ent_velocidade (iloc_ent (entregadores st) i)) 0) eqn:E.
  - apply Qeq_bool_iff in E. split; [|contradiction].
    destruct (Qeq_bool (distancia_km (iloc_ped (pedidos st) j)) 0); cbn; intros [].
  - split; [|intros _; exact I]. intros _ H. apply Qeq_bool_iff in H. congruence.
Qed.

Lemma custos_finitos_velocidades st :
  Forall (fun e => ~ ent_velocidade e == 0) (entregadores st) -> custos_finitos st.
Proof.
  intros H i j Hi _. apply custo_finito_iff.
  rewrite Forall_forall in H. apply H. unfold iloc_ent. now apply nth_In.
Qed.

Lemma modelo_criar_modelo st : modelo (criar_modelo st) = Some (construir_modelo st).
Proof. reflexivity. Qed.

Lemma resultado_com_sol st s : resultado (com_sol st s) = resultado st.
Proof. reflexivity. Qed.

(** ** The objective (C3) *)

Lemma fold_add_restricao_opt_objetivo (f : nat -> option LpConstraint)
    (l : list nat) (m : LpProblem) :
  objective (fold_left (fun m j => add_restricao_opt m (f j)) l m) = objective m /\
  prob_sense (fold_left (fun m j => add_restricao_opt m (f j)) l m) = prob_sense m.
Proof.
  revert m. induction l as [|a l IH]; intros m; simpl; [now split|].
  destruct (IH (add_restricao_opt m (f a))) as [Ho Hs].
  rewrite Ho, Hs. destruct (f a); now split.
Qed.

Lemma objective_modelo_restrito ot te tp :
  objective (construir_modelo_restrito ot te tp) =
    Some (objetivo_ponderado ot (seq 0 (List.length (pedidos ot)))) /\
  prob_sense (construir_modelo_restrito ot te tp) = LpMinimize.
Proof.
  unfold construir_modelo_restrito.
  rewrite (proj1 (fold_add_restricao_opt_objetivo _ _ _)).
  rewrite (proj2 (fold_add_restricao_opt_objetivo _ _ _)).
  rewrite !(proj1 (proj2 (fold_add_restricao _ _ _ _))).
  rewrite !(proj2 (proj2 (fold_add_restricao _ _ _ _))).
  split; reflexivity.
Qed.

(** C3. The model left by [criar_modelo] minimises the sum over the
    orders of [T[j]] times the order's priority: the plain sum of times
    installed first is replaced before the model is solved.  The model of
    the deadline variant has the same objective. *)
Theorem C3_objetivo_ponderado_por_prioridade (st : Otimizador) :
  let J := seq 0 (List.length (pedidos st)) in
  exists m,
    modelo (criar_modelo st) = Some m /\
    prob_sense m = LpMinimize /\
    objective m = Some (objetivo_ponderado st J) /\
    (forall v, valor_objetivo_de m v ==
               somaQ (map (fun j => v (T_ j) *
                                    inject_Z (prioridade (iloc_ped (pedidos st) j))) J)) /\
    (forall te tp,
       objective (construir_modelo_restrito st te tp) = objective m /\
       prob_sense (construir_modelo_restrito st te tp) = LpMinimize).
Proof.
  intros J. exists (construir_modelo st).
  split; [reflexivity|]. split; [apply sense_construir_modelo|].
  split; [reflexivity|]. split.
  - intros v. unfold valor_objetivo_de. rewrite objective_construir_modelo.
    apply valor_objetivo_ponderado.
  - intros te tp. rewrite objective_construir_modelo.
    apply objective_modelo_restrito.
Qed.

(** The replaced objective differs from the plain sum of times as soon
    as an order has a priority other than 1. *)
Lemma objetivo_ponderado_difere_do_simples :
  let st := ot_sem_capacidade in
  let v : valoracao := fun n => match n with T_ _ => 1 | x_ _ _ => 0 end in
  valor_objetivo_de (construir_modelo st) v == 4 /\
  valor_expr v (objetivo_simples (seq 0 (List.length (pedidos st)))) == 2.
Proof. split; vm_compute; reflexivity. Qed.

(** ** Capacity shortfall (C2) *)

(** C2. When the capacities of all couriers add up to less than the
    number of orders, no valuation (0/1 or not) satisfies both the
    unique-assignment and the capacity constraints of the model; the
    model has no feasible point, a solver that detects infeasibility
    reports [Infeasible], and [resolver_modelo] returns [False] without
    producing a Solution. *)
Theorem C2_capacidade_insuficiente_inviavel (solver : Solver) (st : Otimizador)
    (Hcap : (capacidade_total st < Z.of_nat (List.length (pedidos st)))%Z) :
  let m := construir_modelo st in
  (forall v, ~ (satisfaz_nomeadas m eh_R1 v /\ satisfaz_nomeadas m eh_R3 v)) /\
  (forall v, ~ viavel m v) /\
  (solver_detecta_inviavel solver m -> fst (solver m) = LpStatusInfeasible) /\
  (solver_viavel solver m \/ solver_detecta_inviavel solver m ->
   exists st', resolver_modelo solver (criar_modelo st) = Retorna false st' /\
               resultado st' = resultado st).
Proof.
  intros m.
  assert (H13 : forall v, ~ (satisfaz_nomeadas m eh_R1 v /\ satisfaz_nomeadas m eh_R3 v)).
  { intros v [H1 H3]. pose proof (atribuicao_exige_capacidade H1 H3). lia. }
  assert (Hinv : forall v, ~ viavel m v).
  { intros v Hv. apply (H13 v). split; now apply viavel_satisfaz_nomeadas. }
  split; [exact H13|]. split; [exact Hinv|]. split.
  - intros Hd. exact (Hd Hinv).
  - intros Hs.
    assert (Hno : fst (solver m) <> LpStatusOptimal).
    { destruct Hs as [Hs|Hs].
      - intros Ho. destruct (Hs Ho) as [Hv _]. exact (Hinv _ Hv).
      - rewrite (Hs Hinv). discriminate. }
    exists (com_sol (criar_modelo st) (snd (solver m))). split.
    + apply resolver_modelo_nao_otimo; [reflexivity|exact Hno].
    + reflexivity.
Qed.

Lemma C2_capacidade_insuficiente_witness :
  (capacidade_total ot_sem_capacidade <
   Z.of_nat (List.length (pedidos ot_sem_capacidade)))%Z /\
  fst (solver_inviavel (construir_modelo ot_sem_capacidade)) = LpStatusInfeasible /\
  exists st', resolver_modelo solver_inviavel (criar_modelo ot_sem_capacidade)
              = Retorna false st' /\
              resultado st' = resultado ot_sem_capacidade.
Proof.
  assert (Hcap : (capacidade_total ot_sem_capacidade <
                  Z.of_nat (List.length (pedidos ot_sem_capacidade)))%Z)
    by reflexivity.
  destruct (C2_capacidade_insuficiente_inviavel solver_inviavel ot_sem_capacidade Hcap)
    as (_ & _ & Hd & Hr).
  split; [exact Hcap|]. split.
  - apply Hd. intros _. reflexivity.
  - apply Hr. right. intros _. reflexivity.
Defined.

(** ** The cost of a pair (C1) *)

Lemma np_eq_refl x : np_eq x x.
Proof. destruct x; simpl; auto. reflexivity. Qed.

Lemma np_eq_trans x y z : np_eq x y -> np_eq y z -> np_eq x z.
Proof.
  destruct x, y, z; simpl; try tauto; try congruence.
  intros H1 H2. now rewrite H1.
Defined.

Lemma find_app_or {A} (p : A -> bool) (l1 l2 : list A) :
  find p (l1 ++ l2) =
  match find p l1 with Some a => Some a | None => find p l2 end.
Proof.
  induction l1 as [|a l1 IH]; simpl; [reflexivity|].
  destruct (p a); [reflexivity|exact IH].
Qed.

Lemma find_all_false {A} (p : A -> bool) (l : list A) :
  (forall a, In a l -> p a = false) -> find p l = None.
Proof.
  induction l as [|a l IH]; simpl; intros H; [reflexivity|].
  rewrite (H a (or_introl eq_refl)). apply IH. intros b Hb. apply H. now right.
Qed.

Lemma find_R2_seq (f : nat -> LpConstraint) (j n a : nat) :
  (a <= j < a + n)%nat ->
  find (fun nc => NomeRestricao_eqb (fst nc) (Calculo_Tempo_Pedido j))
       (map (fun k => (Calculo_Tempo_Pedido k, f k)) (seq a n))
  = Some (Calculo_Tempo_Pedido j, f j).
Proof.
  revert a. induction n as [|n IH]; intros a H; [lia|].
  simpl. destruct (Nat.eqb a j) eqn:E.
  - apply Nat.eqb_eq in E. now subst.
  - apply Nat.eqb_neq in E. apply IH. lia.
Qed.

Lemma restricao_de_R2 st j :
  (j < List.length (pedidos st))%nat ->
  restricao_de (construir_modelo st) (Calculo_Tempo_Pedido j) =
  Some (R2 st (seq 0 (List.length (entregadores st))) j).
Proof.
  intros Hj. unfold restricao_de.
  rewrite constraints_construir_modelo, find_app_or.
  rewrite find_all_false.
  - rewrite find_app_or. unfold restricoes_R2.
    rewrite (find_R2_seq (fun k => R2 st _ k)); [reflexivity|lia].
  - intros [n c] Hin. unfold restricoes_R1 in Hin.
    apply in_map_iff in Hin. destruct Hin as (k & Hk & _).
    inversion Hk; subst. reflexivity.
Qed.

Lemma find_termos_antes (c : nat -> np_float) (i j n a : nat) :
  (i < a)%nat ->
  find (fun t => LpNome_eqb (var_nome (fst t)) (x_ i j))
       (flat_map termos (map (fun k => expr_mul (var_x k j) (c k)) (seq a n)))
  = None.
Proof.
  intros Hi. apply find_all_false. intros [x q] Hin.
  apply in_flat_map in Hin. destruct Hin as (e & He & Hin).
  apply in_map_iff in He. destruct He as (k & Hk & Hks). subst e.
  apply in_seq in Hks.
  assert (Hx : x = var_x k j).
  { unfold expr_mul in Hin. destruct (c k) as [r| |]; simpl in Hin.
    - destruct (Qeq_bool r 0); simpl in Hin; [contradiction|].
      destruct Hin as [Hin|[]]. congruence.
    - destruct Hin as [Hin|[]]. congruence.
    - destruct Hin as [Hin|[]]. congruence. }
  subst x. simpl. apply andb_false_iff. left. apply Nat.eqb_neq. lia.
Qed.

Lemma coef_de_R2 (c : nat -> np_float) (i j n a : nat) :
  (a <= i < a + n)%nat ->
  np_eq (coef_de (lpSum (map (fun k => expr_mul (var_x k j) (c k)) (seq a n)))
                 (x_ i j))
        (c i).
Proof.
  unfold coef_de, lpSum; cbn [termos].
  revert a. induction n as [|n IH]; intros a H; [lia|].
  cbn [seq map flat_map]. rewrite find_app_or.
  destruct (Nat.eq_dec a i) as [->|Hne].
  - unfold expr_mul at 1.
    destruct (c i) as [r| |] eqn:Ec; cbn [termos find fst snd var_x var_nome LpNome_eqb].
    + destruct (Qeq_bool r 0) eqn:Er; cbn [termos find fst snd var_x var_nome LpNome_eqb].
      * rewrite find_termos_antes by lia. simpl.
        apply Qeq_bool_iff in Er. now rewrite Er.
      * rewrite !Nat.eqb_refl. simpl. reflexivity.
    + rewrite !Nat.eqb_refl. simpl. reflexivity.
    + rewrite !Nat.eqb_refl. simpl. exact I.
  - assert (Hnone : find (fun t => LpNome_eqb (var_nome (fst t)) (x_ i j))
                         (termos (expr_mul (var_x a j) (c a))) = None).
    { apply find_all_false. intros [x q] Hin.
      assert (Hx : x = var_x a j).
      { unfold expr_mul in Hin. destruct (c a) as [r| |]; simpl in Hin.
        - destruct (Qeq_bool r 0); simpl in Hin; [contradiction|].
          destruct Hin as [Hin|[]]. congruence.
        - destruct Hin as [Hin|[]]. congruence.
        - destruct Hin as [Hin|[]]. congruence. }
      subst x. simpl. apply andb_false_iff. left. now apply Nat.eqb_neq. }
    rewrite Hnone. apply IH. lia.
Qed.

(** The cost of the pair (i, j) in the model: the order's own
    [distancia_km] over the courier's speed, times 60, plus the
    preparation and the customer-leg durations. *)
Lemma custo_formula st i j :
  custo st i j =
  np_add (np_add (np_mul (np_div (distancia_km (iloc_ped (pedidos st) j))
                                 (ent_velocidade (iloc_ent (entregadores st) i))) 60)
                 (tempo_preparo_min (iloc_ped (pedidos st) j)))
         (tempo_deslocamento_min (iloc_ped (pedidos st) j)).
Proof. reflexivity. Qed.

(** C1 (as amended). For every courier i and order j, the constraint
    [Calculo_Tempo_Pedido_j] of the model equates [T[j]] with a sum in
    which [x[i,j]] has the coefficient (order j's own [distancia_km]
    divided by courier i's speed) times 60, plus order j's preparation
    duration, plus order j's customer-leg duration.  The courier's base
    location plays no part. *)
Theorem C1_custo_usa_distancia_do_pedido (st : Otimizador) (i j : nat)
    (Hi : (i < List.length (entregadores st))%nat)
    (Hj : (j < List.length (pedidos st))%nat) :
  let e := iloc_ent (entregadores st) i in
  let p := iloc_ped (pedidos st) j in
  exists r c,
    restricao_de (construir_modelo st) (Calculo_Tempo_Pedido j) = Some r /\
    c_lhs r = expr_var (var_T j) /\
    c_sentido r = LpEQ /\
    custo_no_modelo st i j = Some c /\
    np_eq c (np_add (np_add (np_mul (np_div (distancia_km p) (ent_velocidade e)) 60)
                            (tempo_preparo_min p))
                    (tempo_deslocamento_min p)).
Proof.
  intros e p.
  exists (R2 st (seq 0 (List.length (entregadores st))) j).
  exists (coef_de (c_rhs (R2 st (seq 0 (List.length (entregadores st))) j)) (x_ i j)).
  split; [now apply restricao_de_R2|].
  split; [reflexivity|]. split; [reflexivity|]. split.
  - unfold custo_no_modelo. now rewrite restricao_de_R2.
  - unfold R2; cbn [restr c_rhs]. subst e p.
    rewrite <- (custo_formula st i j).
    apply (coef_de_R2 (fun k => custo st k j)). lia.
Qed.

Lemma C1_custo_usa_distancia_do_pedido_witness :
  exists c, custo_no_modelo ot_na_porta 0 0 = Some c /\ np_eq c (Fin 19).
Proof.
  destruct (C1_custo_usa_distancia_do_pedido ot_na_porta (i := 0) (j := 0))
    as (r & c & _ & _ & _ & Hc & Heq).
  - simpl. lia.
  - simpl. lia.
  - exists c. split; [exact Hc|].
    eapply np_eq_trans; [exact Heq|]. vm_compute. reflexivity.
Defined.

(** For any distance on coordinates that is 0 between a point and
    itself, a courier based at the restaurant's CEP has the geocoded cost
    15 (no travel at all), while the model charges 19. *)
Lemma custo_difere_na_porta (dist : Coordenadas -> Coordenadas -> Q) :
  (forall p, dist p p == 0) ->
  ~ custo_modelo_eh_geocodificado geo_exemplo dist ot_na_porta.
Proof.
  intros Hd H.
  destruct (H 0%nat 0%nat) as (c & Hc & Heq); [simpl; lia|simpl; lia|].
  vm_compute in Hc. injection Hc as <-.
  unfold custo_geocodificado, calcular_tempo_entregador_restaurante in Heq.
  cbn in Heq.
  match type of Heq with context [dist ?a ?b] => set (d := dist a b) in * end.
  assert (H0 : d == 0) by apply Hd.
  rewrite H0 in Heq. vm_compute in Heq. discriminate.
Qed.

(** C1 (as stated) fails: the model's cost of a pair is not the one
    computed from the distance between the courier's base location and
    the restaurant. *)
Lemma C1_counterexample :
  ~ custo_modelo_eh_geocodificado geo_exemplo dist_exemplo ot_na_porta.
Proof.
  apply custo_difere_na_porta. intros [a b]. unfold dist_exemplo.
  cbn [fst snd].
  assert (Ea : a - a == 0) by ring.
  assert (Eb : b - b == 0) by ring.
  rewrite Ea, Eb. reflexivity.
Qed.

(** ** Non-positive speeds (C6) *)

Lemma np_div_nao_zero a b : ~ b == 0 -> np_div a b = Fin (a / b).
Proof.
  intros H. unfold np_div. destruct (Qeq_bool b 0) eqn:E; [|reflexivity].
  apply Qeq_bool_iff in E. contradiction.
Qed.

(** C6 (as amended). No courier-validity error exists.  For a negative
    speed both estimators perform the division and return the (negative)
    duration distance / speed * 60, the geocoded one when both CEPs
    resolve; for a zero speed the geocoded estimator returns the penalty
    9999 without dividing. *)
Theorem C6_velocidade_nao_positiva (geo : string -> option Coordenadas)
    (dist : Coordenadas -> Coordenadas -> Q) (st : Otimizador) (i j : nat)
    (Hv : ent_velocidade (iloc_ent (entregadores st) i) <= 0) :
  let e := iloc_ent (entregadores st) i in
  let p := iloc_ped (pedidos st) j in
  (ent_velocidade e == 0 ->
   calcular_tempo_entregador_restaurante geo dist st i j = Fin 9999) /\
  (ent_velocidade e < 0 ->
   calcular_tempo_deslocamento st i j =
     Fin (distancia_km p / ent_velocidade e * 60) /\
   forall ce cr,
     geo (ent_cep e) = Some ce ->
     geo (str_cep (dict_get (mapa_restaurante_cep st) (nome_restaurante p))) = Some cr ->
     calcular_tempo_entregador_restaurante geo dist st i j =
       Fin (dist ce cr / ent_velocidade e * 60)).
Proof.
  intros e p. split.
  - intros H0. unfold calcular_tempo_entregador_restaurante.
    fold e. apply Qeq_bool_iff in H0. rewrite H0.
    destruct (geo (ent_cep e)); [|reflexivity].
    destruct (geo _); reflexivity.
  - intros Hneg.
    assert (Hnz : ~ ent_velocidade e == 0) by lra.
    split.
    + unfold calcular_tempo_deslocamento. fold e p.
      now rewrite (np_div_nao_zero _ Hnz).
    + intros ce cr Hce Hcr. unfold calcular_tempo_entregador_restaurante.
      fold e p. rewrite Hce, Hcr.
      destruct (Qeq_bool (ent_velocidade e) 0) eqn:E.
      * apply Qeq_bool_iff in E. contradiction.
      * unfold calcular_distancia_coordenadas.
        now rewrite (np_div_nao_zero _ Hnz).
Qed.

Lemma C6_velocidade_nao_positiva_witness :
  ent_velocidade (iloc_ent (entregadores ot_velocidade_negativa) 0) <= 0 /\
  calcular_tempo_deslocamento ot_velocidade_negativa 0 0 = Fin (2 / -(30) * 60).
Proof.
  assert (Hv : ent_velocidade (iloc_ent (entregadores ot_velocidade_negativa) 0) <= 0)
    by (vm_compute; discriminate).
  split; [exact Hv|].
  destruct (C6_velocidade_nao_positiva geo_exemplo dist_exemplo
              ot_velocidade_negativa 0 0 Hv) as [_ H].
  destruct H as [H _]; [reflexivity|exact H].
Defined.

(** C6 (as stated) fails: with a speed of -30 km/h the estimator used by
    the model builder divides and returns the duration -4 minutes, which
    enters the model as the cost 11. *)
Lemma C6_counterexample : ~ estimador_rejeita_velocidade_nao_positiva.
Proof.
  intros H.
  apply (H ot_velocidade_negativa 0%nat 0%nat).
  - simpl. lia.
  - simpl. lia.
  - vm_compute. discriminate.
  - exact I.
Qed.

Lemma custo_com_velocidade_negativa :
  np_eq (calcular_tempo_deslocamento ot_velocidade_negativa 0 0) (Fin (-(4))) /\
  exists c, custo_no_modelo ot_velocidade_negativa 0 0 = Some c /\ np_eq c (Fin 11).
Proof.
  split; [vm_compute; reflexivity|].
  eexists. split; [vm_compute; reflexivity|]. vm_compute. reflexivity.
Qed.

(** ** Statuses without a proof of optimality (C7) *)

(** C7 (as amended). When the status is not Optimal (so also when the
    time budget ran out), [resolver_modelo] returns [False], keeps
    [self.resultado] as it was and extracts nothing: the assignment the
    solver may have found is discarded, and never presented as optimal.
    Whenever the call returns, it returns [True] exactly on Optimal.  On
    Optimal it runs the extraction and returns [True]; only the report
    that ends the extraction can stop it, with a [TypeError], when the
    objective was left without value (the Solution is stored by
    then). *)
Theorem C7_sem_prova_nada_e_extraido (solver : Solver) (st : Otimizador)
    (m : LpProblem) (Hm : modelo st = Some m) :
  (fst (solver m) <> LpStatusOptimal ->
   resolver_modelo solver st = Retorna false (com_sol st (snd (solver m))) /\
   resultado (estado_final (resolver_modelo solver st)) = resultado st) /\
  (forall ok st', resolver_modelo solver st = Retorna ok st' ->
                  (ok = true <-> fst (solver m) = LpStatusOptimal)) /\
  (fst (solver m) = LpStatusOptimal ->
   (pedidos st = [] \/ valor_do_objetivo m (snd (solver m)) <> None ->
    exists st', resolver_modelo solver st = Retorna true st') /\
   (pedidos st <> [] -> valor_do_objetivo m (snd (solver m)) = None ->
    exists st', resolver_modelo solver st = Levanta TypeError st' /\
                resultado st' <> None)).
Proof.
  assert (Hcasos := @extrair_resultado_casos (com_sol st (snd (solver m))) m Hm).
  change (pedidos (com_sol st (snd (solver m)))) with (pedidos st) in Hcasos.
  change (sol (com_sol st (snd (solver m)))) with (snd (solver m)) in Hcasos.
  destruct Hcasos as [Hvazio Hcheio].
  split; [|split].
  - intros Hs. rewrite (resolver_modelo_nao_otimo solver st Hm Hs). now split.
  - intros ok st' H.
    destruct (LpStatus_eqb (fst (solver m)) LpStatusOptimal) eqn:E.
    + assert (Ho : fst (solver m) = LpStatusOptimal)
        by (destruct (fst (solver m)); simpl in E; congruence).
      rewrite (resolver_modelo_otimo solver st Hm Ho) in H.
      destruct (extrair_resultado (com_sol st (snd (solver m)))) as [u st1|e st1];
        [|discriminate].
      cbn [bind] in H. injection H as <- _. tauto.
    + assert (Hs : fst (solver m) <> LpStatusOptimal)
        by (intros Ho; rewrite Ho in E; discriminate).
      rewrite (resolver_modelo_nao_otimo solver st Hm Hs) in H.
      injection H as <- _. split; [discriminate|contradiction].
  - intros Ho. rewrite (resolver_modelo_otimo solver st Hm Ho). split.
    + intros Hou.
      destruct (pedidos st) as [|p ps] eqn:Ep.
      * rewrite (Hvazio eq_refl). eexists. reflexivity.
      * destruct Hou as [Hc|Hval]; [discriminate|].
        destruct Hcheio as (st1 & _ & _ & _ & ->); [discriminate|].
        destruct (valor_do_objetivo m (snd (solver m))); [|contradiction].
        eexists. reflexivity.
    + intros HN Hval.
      destruct (Hcheio HN) as (st1 & Hr & _ & _ & ->). rewrite Hval.
      exists st1. split; [reflexivity|exact Hr].
Qed.

Lemma C7_sem_prova_nada_e_extraido_witness :
  modelo (criar_modelo ot_na_porta) = Some (construir_modelo ot_na_porta) /\
  resultado (estado_final
               (resolver_modelo solver_tempo_esgotado (criar_modelo ot_na_porta)))
  = None.
Proof.
  split; [reflexivity|].
  destruct (C7_sem_prova_nada_e_extraido solver_tempo_esgotado
              (criar_modelo ot_na_porta) eq_refl) as [H _].
  destruct H as [_ H]; [discriminate|exact H].
Defined.

(** C7 (as stated) fails: the solve stops with status Not Solved and the
    assignment x[0,0] = 1 in the variables; nothing is reported. *)
Lemma C7_counterexample :
  ~ relata_candidato solver_tempo_esgotado (criar_modelo ot_na_porta).
Proof.
  intros H.
  destruct (H (construir_modelo ot_na_porta) eq_refl) as (r & Hr & _).
  - repeat split; discriminate.
  - exists 0%nat, 0%nat. repeat split; simpl; lia.
  - simpl in Hr. discriminate.
Qed.

(** ** Empty order set after cleaning (C10) *)

Lemma preprocessar_sem_pedidos ob :
  pedidos_limpos ob = [] ->
  pedidos (snd (preprocessar_dados ob)) = dados_exemplo /\
  fst (preprocessar_dados ob) =
    negb (Nat.eqb (List.length (entregadores_limpos ob)) 0).
Proof.
  unfold pedidos_limpos, entregadores_limpos, preprocessar_dados.
  intros ->. cbn [List.length Nat.eqb].
  change (Nat.eqb (List.length dados_exemplo) 0) with false. cbv iota.
  destruct (Nat.eqb (List.length (dropna limpar_entregador (ob_entregadores ob))) 0);
    now split.
Qed.

(** C10 (as amended). If cleaning removes every order,
    [preprocessar_dados] installs exactly 5 synthetic orders, of
    priorities 1, 2, 3, 1, 2; it returns True when at least one courier
    is left by the cleaning, and False when none is. *)
Theorem C10_pedidos_de_exemplo (ob : OtimizadorBruto)
    (Hvazio : pedidos_limpos ob = []) :
  pedidos (snd (preprocessar_dados ob)) = dados_exemplo /\
  List.length (pedidos (snd (preprocessar_dados ob))) = 5%nat /\
  map prioridade (pedidos (snd (preprocessar_dados ob))) = [1; 2; 3; 1; 2]%Z /\
  (fst (preprocessar_dados ob) = true <-> entregadores_limpos ob <> []).
Proof.
  destruct (preprocessar_sem_pedidos ob Hvazio) as [Hp Hf].
  rewrite Hp, Hf. repeat split; try reflexivity.
  - destruct (entregadores_limpos ob); simpl; congruence.
  - destruct (entregadores_limpos ob); simpl; congruence.
Qed.

Lemma C10_pedidos_de_exemplo_witness :
  pedidos_limpos ob_pedido_invalido = [] /\
  fst (preprocessar_dados ob_pedido_invalido) = true /\
  List.length (pedidos (snd (preprocessar_dados ob_pedido_invalido))) = 5%nat.
Proof.
  assert (Hvazio : pedidos_limpos ob_pedido_invalido = []) by reflexivity.
  destruct (C10_pedidos_de_exemplo ob_pedido_invalido Hvazio) as (_ & Hl & _ & Ht).
  split; [exact Hvazio|]. split; [|exact Hl].
  apply Ht. discriminate.
Defined.

(** C10 (as stated) fails: when the cleaning leaves no courier either,
    the call returns False. *)
Lemma C10_counterexample : ~ preprocessar_sempre_prossegue.
Proof.
  intros H. destruct (H ob_vazio eq_refl) as [Hf _]. discriminate.
Qed.

(** ** Restoration of the capacities (C8) *)

Lemma mesmos_outros_set_capacidade c e : mesmos_outros_campos e (set_capacidade c e).
Proof. repeat split. Qed.

Lemma mesmos_outros_trans e1 e2 e3 :
  mesmos_outros_campos e1 e2 -> mesmos_outros_campos e2 e3 ->
  mesmos_outros_campos e1 e3.
Proof.
  unfold mesmos_outros_campos. intros (a & b & c & d & f) (a' & b' & c' & d' & f').
  repeat split; congruence.
Qed.

Lemma Forall2_mesmos_refl df : Forall2 mesmos_outros_campos df df.
Proof. induction df; constructor; auto. repeat split. Qed.

Lemma Forall2_mesmos_trans df1 df2 df3 :
  Forall2 mesmos_outros_campos df1 df2 -> Forall2 mesmos_outros_campos df2 df3 ->
  Forall2 mesmos_outros_campos df1 df3.
Proof.
  intros H. revert df3. induction H; intros df3 H'; inversion H'; subst; constructor.
  - eapply mesmos_outros_trans; eauto.
  - auto.
Qed.

Lemma Forall2_mesmos_broadcast c df :
  Forall2 mesmos_outros_campos df (broadcast_capacidade c df).
Proof.
  induction df; simpl; constructor; auto. apply mesmos_outros_set_capacidade.
Qed.

Lemma Forall2_mesmos_atribuir serie df :
  List.length serie = List.length df ->
  Forall2 mesmos_outros_campos df (atribuir_capacidade serie df).
Proof.
  revert serie. induction df as [|e df IH]; intros [|c serie] H;
    simpl in *; try discriminate; constructor.
  - apply mesmos_outros_set_capacidade.
  - apply IH. lia.
Qed.

(** Writing back the saved column gives back the saved frame. *)
Lemma restaurar_capacidade df df' :
  Forall2 mesmos_outros_campos df df' ->
  atribuir_capacidade (coluna_capacidade df) df' = df.
Proof.
  induction 1 as [|e e' df df' He _ IH]; [reflexivity|].
  unfold atribuir_capacidade, coluna_capacidade in *. simpl. rewrite IH. f_equal.
  destruct He as (a & b & c & d & f). destruct e, e'; simpl in *.
  unfold set_capacidade; simpl. congruence.
Qed.

Lemma entregadores_extrair_resultado st :
  entregadores (estado_final (extrair_resultado st)) = entregadores st /\
  pedidos (estado_final (extrair_resultado st)) = pedidos st.
Proof.
  unfold extrair_resultado. destruct (Nat.eqb _ 0); [now split|].
  destruct (modelo st) as [m|]; [|now split].
  destruct (valor_do_objetivo m (sol st)); now split.
Qed.

Lemma entregadores_resolver_modelo solver st :
  entregadores (estado_final (resolver_modelo solver st)) = entregadores st /\
  pedidos (estado_final (resolver_modelo solver st)) = pedidos st.
Proof.
  unfold resolver_modelo. destruct (modelo st) as [m|]; [|now split].
  destruct (solver m) as [status s].
  destruct status; try (now split).
  pose proof (entregadores_extrair_resultado (com_sol st s)) as [He Hp].
  destruct (extrair_resultado (com_sol st s)); simpl in *; now split.
Qed.

Lemma entregadores_passo_sensibilidade solver cap ot res :
  entregadores (estado_final (passo_sensibilidade solver cap ot res)) =
    broadcast_capacidade cap (entregadores ot) /\
  pedidos (estado_final (passo_sensibilidade solver cap ot res)) = pedidos ot.
Proof.
  unfold passo_sensibilidade.
  pose proof (entregadores_resolver_modelo solver
                (criar_modelo (com_entregadores ot
                   (broadcast_capacidade cap (entregadores ot))))) as [He Hp].
  destruct (resolver_modelo solver _) as [ok st'|e st']; simpl in *; [|now split].
  destruct ok; [|now split].
  destruct (resultado st'); now split.
Qed.

Lemma entregadores_laco_sensibilidade solver caps ot res :
  Forall2 mesmos_outros_campos (entregadores ot)
    (entregadores (estado_final (laco_sensibilidade solver caps ot res))) /\
  pedidos (estado_final (laco_sensibilidade solver caps ot res)) = pedidos ot.
Proof.
  revert ot res. induction caps as [|cap caps IH]; intros ot res; simpl.
  - split; [apply Forall2_mesmos_refl|reflexivity].
  - pose proof (entregadores_passo_sensibilidade solver cap ot res) as [He Hp].
    destruct (passo_sensibilidade solver cap ot res) as [res' ot'|e ot']; simpl in *.
    + destruct (IH ot' res') as [IHe IHp]. split.
      * eapply Forall2_mesmos_trans; [|exact IHe].
        rewrite He. apply Forall2_mesmos_broadcast.
      * congruence.
    + split; [|exact Hp]. rewrite He. apply Forall2_mesmos_broadcast.
Qed.

Lemma entregadores_analise_sensibilidade solver rg an res an' :
  analise_sensibilidade_capacidade solver rg an = Retorna res an' ->
  entregadores (otimizador an') = entregadores (otimizador an).
Proof.
  unfold analise_sensibilidade_capacidade.
  pose proof (entregadores_laco_sensibilidade solver
                (py_range (fst rg) (snd rg)) (otimizador an) []) as [He _].
  destruct (laco_sensibilidade solver _ (otimizador an) []) as [r ot|e ot];
    [|discriminate].
  intros H. injection H as _ <-. simpl in *.
  now apply restaurar_capacidade.
Qed.

Lemma length_capacidade_reduzida df :
  List.length (capacidade_reduzida df) = List.length df.
Proof. unfold capacidade_reduzida, coluna_capacidade. now rewrite !length_map. Qed.

Lemma entregadores_comparar_cenarios solver an :
  Forall2 mesmos_outros_campos (entregadores (otimizador an))
    (entregadores (otimizador (estado_final (comparar_cenarios solver an)))) /\
  forall res an', comparar_cenarios solver an = Retorna res an' ->
                  entregadores (otimizador an') = entregadores (otimizador an).
Proof.
  unfold comparar_cenarios.
  set (cen0 := match resultado (otimizador an) with
               | Some r => [(Original, cenario_de r)] | None => [] end).
  assert (Hred : Forall2 mesmos_outros_campos (entregadores (otimizador an))
                   (atribuir_capacidade
                      (capacidade_reduzida (entregadores (otimizador an)))
                      (entregadores (otimizador an))))
    by (apply Forall2_mesmos_atribuir, length_capacidade_reduzida).
  assert (G : forall cen,
    let r := bind (Retorna cen an : Res Analisador (list (NomeCenario * Cenario)))
      (fun cenarios an0 =>
        let ot := otimizador an0 in
        let cap_original := coluna_capacidade (entregadores ot) in
        let ot0 := com_entregadores ot
                     (atribuir_capacidade (capacidade_reduzida (entregadores ot))
                                          (entregadores ot)) in
        let ot1 := criar_modelo ot0 in
        match resolver_modelo solver ot1 with
        | Levanta e ot2 => Levanta e (com_otimizador an0 ot2)
        | Retorna ok ot2 =>
            let passo3 : Res Analisador (list (NomeCenario * Cenario)) :=
              if ok then
                match resultado ot2 with
                | Some r => Retorna (cenarios ++ [(Capacidade_Reduzida, cenario_de r)])
                                    (com_otimizador an0 ot2)
                | None => Levanta TypeError (com_otimizador an0 ot2)
                end
              else Retorna cenarios (com_otimizador an0 ot2) in
            bind passo3 (fun cenarios an1 =>
              let ot3 := otimizador an1 in
              let ot4 := com_entregadores ot3
                          (atribuir_capacidade cap_original (entregadores ot3)) in
              Retorna cenarios
                {| otimizador := ot4;
                   sensibilidade_capacidade := sensibilidade_capacidade an1;
                   otimizacao_restrita := otimizacao_restrita an1;
                   comparacao_cenarios := Some cenarios |})
        end) in
    Forall2 mesmos_outros_campos (entregadores (otimizador an))
      (entregadores (otimizador (estado_final r))) /\
    forall res an', r = Retorna res an' ->
                    entregadores (otimizador an') = entregadores (otimizador an)).
  { intros cen. cbn [bind].
    pose proof (entregadores_resolver_modelo solver
                  (criar_modelo (com_entregadores (otimizador an)
                     (atribuir_capacidade
                        (capacidade_reduzida (entregadores (otimizador an)))
                        (entregadores (otimizador an)))))) as [He _].
    destruct (resolver_modelo solver _) as [ok ot2|e ot2]; cbn in He |- *.
    - assert (Hrest : atribuir_capacidade
                        (coluna_capacidade (entregadores (otimizador an)))
                        (entregadores ot2) = entregadores (otimizador an))
        by (apply restaurar_capacidade; rewrite He; exact Hred).
      destruct ok; [destruct (resultado ot2)|]; cbn.
      + rewrite Hrest. split; [apply Forall2_mesmos_refl|].
        intros res an' H. injection H as _ <-. reflexivity.
      + split; [rewrite He; exact Hred|discriminate].
      + rewrite Hrest. split; [apply Forall2_mesmos_refl|].
        intros res an' H. injection H as _ <-. reflexivity.
    - split; [rewrite He; exact Hred|discriminate]. }
  destruct (otimizacao_restrita an) as [rest|].
  - destruct (Nat.eqb (List.length (rr_alocacoes rest)) 0).
    + cbn. split; [apply Forall2_mesmos_refl|discriminate].
    + apply G.
  - apply G.
Qed.

(** C8. When the capacity sweep or the reduced-capacity scenario
    returns, the courier table is the one before the scenario: every
    courier has its own previous capacity back and all the other columns
    as before.  At every stage of the two scenarios (also when one stops
    on an exception) the rows differ from the original ones in the
    capacity column only. *)
Theorem C8_capacidades_restauradas (solver : Solver) :
  (forall rg an res an',
     analise_sensibilidade_capacidade solver rg an = Retorna res an' ->
     entregadores (otimizador an') = entregadores (otimizador an)) /\
  (forall an res an',
     comparar_cenarios solver an = Retorna res an' ->
     entregadores (otimizador an') = entregadores (otimizador an)) /\
  (forall caps ot res,
     Forall2 mesmos_outros_campos (entregadores ot)
       (entregadores (estado_final (laco_sensibilidade solver caps ot res)))) /\
  (forall an,
     Forall2 mesmos_outros_campos (entregadores (otimizador an))
       (entregadores (otimizador (estado_final (comparar_cenarios solver an))))).
Proof.
  split; [|split; [|split]].
  - intros rg an res an'. apply entregadores_analise_sensibilidade.
  - intros an res an'. apply (proj2 (entregadores_comparar_cenarios solver an)).
  - intros caps ot res. apply (proj1 (entregadores_laco_sensibilidade solver caps ot res)).
  - intros an. apply (proj1 (entregadores_comparar_cenarios solver an)).
Qed.

(** ** Feasibility, constraint by constraint *)

Lemma Forall_restricoes v (cs : list (NomeRestricao * LpConstraint)) :
  Forall expr_finita (flat_map (fun nc => exprs_restricao (snd nc)) cs) /\
  Forall (dominio_ok v)
         (flat_map vars_expr (flat_map (fun nc => exprs_restricao (snd nc)) cs)) /\
  Forall (fun nc => satisfaz v (snd nc)) cs
  <-> Forall (restricao_ok v) (map snd cs).
Proof.
  induction cs as [|[n c] cs IH]; simpl.
  - split; [constructor|repeat split; constructor].
  - split.
    + intros (Hf & Hd & Hs).
      inversion Hf as [|? ? Hfl Hf']; subst. inversion Hf' as [|? ? Hfr Hf'']; subst.
      apply Forall_app in Hd. destruct Hd as [Hdl Hd].
      apply Forall_app in Hd. destruct Hd as [Hdr Hd].
      inversion Hs as [|? ? Hsc Hs']; subst.
      constructor.
      * repeat split; assumption.
      * apply IH. repeat split; assumption.
    + intros H. inversion H as [|? ? (Hfl & Hfr & Hdl & Hdr & Hsc) H']; subst.
      apply IH in H'. destruct H' as (Hf & Hd & Hs).
      repeat split.
      * constructor; [exact Hfl|]. constructor; [exact Hfr|exact Hf].
      * apply Forall_app. split; [exact Hdl|].
        apply Forall_app. split; [exact Hdr|exact Hd].
      * constructor; [exact Hsc|exact Hs].
Qed.

Lemma viavel_por_restricao m v :
  viavel m v <-> objetivo_ok v m /\ Forall (restricao_ok v) (map snd (constraints m)).
Proof.
  unfold viavel, bem_formado, variaveis, exprs_problema, objetivo_ok.
  rewrite <- Forall_restricoes.
  destruct (objective m) as [e|]; simpl.
  - split.
    + intros (Hf & Hd & Hs). inversion Hf; subst.
      apply Forall_app in Hd. destruct Hd. repeat split; assumption.
    + intros ((Hfe & Hde) & Hf & Hd & Hs). repeat split.
      * constructor; assumption.
      * apply Forall_app. split; assumption.
      * assumption.
  - tauto.
Qed.

(** ** The solver by enumeration meets the feasibility contract *)

Lemma dominio_okb_ok v x : dominio_okb v x = true -> dominio_ok v x.
Proof.
  unfold dominio_okb, dominio_ok. intros H.
  apply andb_prop in H. destruct H as [H Hc].
  apply andb_prop in H. destruct H as [Hl Hu].
  repeat split.
  - destruct (lowBound x); [now apply Qle_bool_iff|exact I].
  - destruct (upBound x); [now apply Qle_bool_iff|exact I].
  - destruct (var_cat x); [exact I| |].
    + exists (Qnum (Qred (v (var_nome x)))).
      apply Pos.eqb_eq in Hc.
      rewrite <- (Qred_correct (v (var_nome x))) at 1.
      destruct (Qred (v (var_nome x))) as [n d]. simpl in *. subst d. reflexivity.
    + apply orb_prop in Hc. destruct Hc as [Hc|Hc]; apply Qeq_bool_iff in Hc; auto.
Qed.

Lemma satisfazb_ok v c : satisfazb v c = true -> satisfaz v c.
Proof.
  unfold satisfazb, satisfaz. destruct (c_sentido c); intros H.
  - now apply Qle_bool_iff.
  - now apply Qeq_bool_iff.
  - now apply Qle_bool_iff.
Qed.

Lemma viavelb_ok m s :
  viavelb m s = true ->
  viavel m (val_de s) /\
  Forall (fun x => s (var_nome x) <> None) (variaveis m).
Proof.
  unfold viavelb, viavel, bem_formado. intros H.
  apply andb_prop in H. destruct H as [H Hc].
  apply andb_prop in H. destruct H as [Hf Hv].
  rewrite forallb_forall in Hf, Hv, Hc.
  repeat split.
  - apply Forall_forall. intros e He. apply Forall_forall. intros t Ht.
    specialize (Hf e He). rewrite forallb_forall in Hf. specialize (Hf t Ht).
    destruct (snd t); simpl in *; [exact I|discriminate|discriminate].
  - apply Forall_forall. intros x Hx. specialize (Hv x Hx).
    apply andb_prop in Hv. now apply dominio_okb_ok.
  - apply Forall_forall. intros nc Hnc. apply satisfazb_ok. now apply Hc.
  - apply Forall_forall. intros x Hx. specialize (Hv x Hx).
    apply andb_prop in Hv. destruct Hv as [Hv _]. unfold tem_valor in Hv.
    destruct (s (var_nome x)); [discriminate|discriminate].
Qed.

Lemma melhor_candidato_viavel m cands melhor s :
  (forall b, melhor = Some b -> viavelb m b = true) ->
  melhor_candidato m cands melhor = Some s -> viavelb m s = true.
Proof.
  revert melhor. induction cands as [|c cands IH]; intros melhor Hb; simpl.
  - intros ->. now apply Hb.
  - destruct (viavelb m c) eqn:Ec.
    + destruct melhor as [b|].
      * destruct (melhor_ou_igual m b c); apply IH; intros b' Hb'.
        -- injection Hb' as <-. now apply Hb.
        -- injection Hb' as <-. exact Ec.
      * apply IH. intros b' Hb'. injection Hb' as <-. exact Ec.
    + now apply IH.
Qed.

Lemma solver_por_candidatos_viavel cands m :
  solver_viavel (solver_por_candidatos cands) m.
Proof.
  unfold solver_viavel, solver_por_candidatos.
  destruct (melhor_candidato m cands None) as [s|] eqn:E; simpl; [|discriminate].
  intros _. apply viavelb_ok.
  apply (melhor_candidato_viavel m cands (melhor := None)); [discriminate|exact E].
Defined.

(** ** What a feasible point of the model satisfies *)

Lemma vars_lpSum_var {A} (f : A -> LpVariable) (l : list A) :
  vars_expr (lpSum (map (fun a => expr_var (f a)) l)) = map f l.
Proof.
  unfold vars_expr, lpSum; cbn [termos].
  induction l as [|a l IH]; simpl; [reflexivity|]. now rewrite IH.
Qed.

Lemma restricao_ok_em_modelo m v n c :
  viavel m v -> In (n, c) (constraints m) -> restricao_ok v c.
Proof.
  intros Hv Hin. apply viavel_por_restricao in Hv. destruct Hv as [_ Hc].
  rewrite Forall_forall in Hc. apply Hc.
  change c with (snd (n, c)). now apply in_map.
Qed.

Lemma satisfaz_R2 st v (I : list nat) j :
  satisfaz v (R2 st I j) <->
  v (T_ j) == somaQ (map (fun i => coef (custo st i j) * v (x_ i j)) I).
Proof.
  unfold satisfaz, R2; cbn [restr c_sentido c_lhs c_rhs].
  rewrite valor_lpSum_map, valor_expr_var.
  assert (E : somaQ (map (fun i => valor_expr v (expr_mul (var_x i j) (custo st i j))) I) ==
              somaQ (map (fun i => coef (custo st i j) * v (x_ i j)) I)).
  { apply somaQ_map_ext. intros i _. now rewrite valor_expr_mul. }
  rewrite E. reflexivity.
Qed.

(** The reading of the model of section 4.2: binary assignment, one
    courier per order, capacities respected, times defined. *)
Lemma viavel_fatos st v :
  viavel (construir_modelo st) v ->
  let I := seq 0 (List.length (entregadores st)) in
  let J := seq 0 (List.length (pedidos st)) in
  (forall i j, In i I -> In j J -> v (x_ i j) == 0 \/ v (x_ i j) == 1) /\
  (forall j, In j J -> somaQ (map (fun i => v (x_ i j)) I) == 1) /\
  (forall j, In j J -> 0 <= v (T_ j)) /\
  (forall j, In j J ->
     v (T_ j) == somaQ (map (fun i => coef (custo st i j) * v (x_ i j)) I)) /\
  (forall i, In i I ->
     somaQ (map (fun j => v (x_ i j)) J) <=
     inject_Z (ent_capacidade (iloc_ent (entregadores st) i))).
Proof.
  intros Hv I J.
  assert (H1 : forall j, In j J -> restricao_ok v (R1 I j)).
  { intros j Hj. apply in_seq in Hj.
    apply (restricao_ok_em_modelo (Atribuicao_Unica_Pedido j) _ Hv).
    apply in_restricoes_R1. lia. }
  assert (H2 : forall j, In j J -> restricao_ok v (R2 st I j)).
  { intros j Hj. apply in_seq in Hj.
    apply (restricao_ok_em_modelo (Calculo_Tempo_Pedido j) _ Hv).
    apply in_restricoes_R2. lia. }
  assert (H3 : forall i, In i I -> restricao_ok v (R3 st J i)).
  { intros i Hi. apply in_seq in Hi.
    apply (restricao_ok_em_modelo (Capacidade_Entregador i) _ Hv).
    apply in_restricoes_R3. lia. }
  repeat split.
  - intros i j Hi Hj. destruct (H1 j Hj) as (_ & _ & Hd & _ & _).
    unfold R1 in Hd; cbn [restr c_lhs] in Hd. rewrite vars_lpSum_var in Hd.
    rewrite Forall_forall in Hd.
    destruct (Hd (var_x i j)) as (_ & _ & Hb).
    + now apply (in_map (fun i => var_x i j)).
    + exact Hb.
  - intros j Hj. destruct (H1 j Hj) as (_ & _ & _ & _ & Hs). now apply satisfaz_R1.
  - intros j Hj. destruct (H2 j Hj) as (_ & _ & Hd & _ & _).
    unfold R2 in Hd; cbn [restr c_lhs expr_var vars_expr termos map fst] in Hd.
    inversion Hd as [|? ? (Hl & _) _]; subst. exact Hl.
  - intros j Hj. destruct (H2 j Hj) as (_ & _ & _ & _ & Hs). now apply satisfaz_R2.
  - intros i Hi. destruct (H3 i Hi) as (_ & _ & _ & _ & Hs).
    now apply (satisfaz_R3 st v J i).
Qed.

(** ** Coverage (C4) *)

Lemma value_eq_1_val_de s n : value_eq_1 s n = Qeq_bool (val_de s n) 1.
Proof. unfold value_eq_1, val_de. destruct (s n); reflexivity. Qed.

(** A sum of 0/1 values counts the ones. *)
Lemma soma_binarios (l : list Q) :
  Forall (fun q => q == 0 \/ q == 1) l ->
  somaQ l == inject_Z (Z.of_nat (List.length (filter (fun q => Qeq_bool q 1) l))).
Proof.
  induction 1 as [|q l Hq _ IH]; [reflexivity|].
  cbn [somaQ filter].
  destruct Hq as [Hq|Hq].
  - assert (E : Qeq_bool q 1 = false).
    { destruct (Qeq_bool q 1) eqn:E; [|reflexivity].
      apply Qeq_bool_iff in E. lra. }
    rewrite E. lra.
  - assert (E : Qeq_bool q 1 = true) by now apply Qeq_bool_iff.
    rewrite E. cbn [List.length].
    rewrite Nat2Z.inj_succ, <- Z.add_1_r, inject_Z_plus.
    change (inject_Z 1) with 1. lra.
Qed.

Lemma em_x_vars_criar_modelo st s i j :
  In i (seq 0 (List.length (entregadores st))) ->
  In j (seq 0 (List.length (pedidos st))) ->
  em_x_vars (com_sol (criar_modelo st) s) i j = true.
Proof.
  intros Hi Hj. unfold em_x_vars; cbn [com_sol criar_modelo x_vars].
  apply existsb_exists. exists (i, j). split.
  - unfold chaves_x. apply in_flat_map. exists i. split; [exact Hi|].
    now apply (in_map (fun j => (i, j))).
  - simpl. now rewrite !Nat.eqb_refl.
Qed.

(** Entries for order [j] produced by the inner loop of a courier. *)
Lemma ocorrencias_fora_do_laco (f : nat -> Alocacao) (c : nat -> bool) j n a :
  (forall k, a_pedido_idx (f k) = k) ->
  (j < a \/ a + n <= j)%nat ->
  ocorrencias_pedido j
    (flat_map (fun k => if c k then [f k] else []) (seq a n)) = 0%nat.
Proof.
  intros Hf. unfold ocorrencias_pedido.
  revert a. induction n as [|n IH]; intros a Hj; [reflexivity|].
  cbn [seq flat_map]. rewrite filter_app, length_app, IH by lia.
  destruct (c a); simpl; [|reflexivity].
  rewrite Hf. assert (E : Nat.eqb a j = false) by (apply Nat.eqb_neq; lia).
  now rewrite E.
Qed.

Lemma ocorrencias_laco_interno (f : nat -> Alocacao) (c : nat -> bool) j n a :
  (forall k, a_pedido_idx (f k) = k) ->
  (a <= j < a + n)%nat ->
  ocorrencias_pedido j
    (flat_map (fun k => if c k then [f k] else []) (seq a n)) =
  if c j then 1%nat else 0%nat.
Proof.
  intros Hf. revert a. induction n as [|n IH]; intros a Hj; [lia|].
  cbn [seq flat_map]. unfold ocorrencias_pedido in *.
  rewrite filter_app, length_app.
  destruct (Nat.eq_dec a j) as [->|Hne].
  - pose proof (@ocorrencias_fora_do_laco f c j n (S j) Hf) as H0.
    unfold ocorrencias_pedido in H0. rewrite H0 by lia.
    destruct (c j); simpl; [|reflexivity].
    now rewrite Hf, Nat.eqb_refl.
  - rewrite IH by lia.
    destruct (c a); simpl; [|reflexivity].
    rewrite Hf. assert (E : Nat.eqb a j = false) by (now apply Nat.eqb_neq).
    now rewrite E.
Qed.

Lemma ocorrencias_flat_map {A} (g : A -> list Alocacao) j (l : list A) :
  ocorrencias_pedido j (flat_map g l) =
  list_sum (map (fun a => ocorrencias_pedido j (g a)) l).
Proof.
  unfold ocorrencias_pedido. induction l as [|a l IH]; simpl; [reflexivity|].
  now rewrite filter_app, length_app, IH.
Qed.

Lemma list_sum_indicador (p : nat -> bool) (l : list nat) :
  list_sum (map (fun i => if p i then 1%nat else 0%nat) l) =
  List.length (filter p l).
Proof.
  induction l as [|a l IH]; simpl; [reflexivity|].
  rewrite IH. destruct (p a); reflexivity.
Qed.

Lemma length_filter_map {A B} (f : A -> B) (p : B -> bool) (l : list A) :
  List.length (filter p (map f l)) = List.length (filter (fun a => p (f a)) l).
Proof.
  induction l as [|a l IH]; simpl; [reflexivity|].
  destruct (p (f a)); simpl; now rewrite IH.
Qed.

(** Every order is delivered by exactly one entry. *)
Lemma ocorrencias_extrair_alocacoes st s j :
  viavel (construir_modelo st) (val_de s) ->
  (j < List.length (pedidos st))%nat ->
  ocorrencias_pedido j (extrair_alocacoes (com_sol (criar_modelo st) s)) = 1%nat.
Proof.
  intros Hv Hj.
  destruct (viavel_fatos Hv) as (Hb & H1 & _).
  set (I := seq 0 (List.length (entregadores st))) in *.
  set (J := seq 0 (List.length (pedidos st))) in *.
  set (st' := com_sol (criar_modelo st) s).
  assert (HJ : In j J) by (apply in_seq; lia).
  unfold extrair_alocacoes.
  change (List.length (pedidos st')) with (List.length (pedidos st)).
  change (List.length (entregadores st')) with (List.length (entregadores st)).
  fold I J. rewrite ocorrencias_flat_map.
  rewrite (map_ext_in _ (fun i => if Qeq_bool (val_de s (x_ i j)) 1
                                  then 1%nat else 0%nat)).
  - rewrite list_sum_indicador.
    specialize (H1 j HJ).
    rewrite (soma_binarios (l := map (fun i => val_de s (x_ i j)) I)) in H1.
    + rewrite length_filter_map in H1.
      apply Nat2Z.inj. change (Z.of_nat 1) with 1%Z.
      apply (proj1 (inject_Z_injective _ _)) in H1. exact H1.
    + apply Forall_forall. intros q Hq. apply in_map_iff in Hq.
      destruct Hq as (i & <- & Hi). now apply Hb.
  - intros i Hi. unfold J.
    rewrite (@ocorrencias_laco_interno (alocacao_de st' i)
               (fun k => em_x_vars st' i k && value_eq_1 (sol st') (x_ i k))
               j (List.length (pedidos st)) 0).
    + unfold st' at 1. rewrite em_x_vars_criar_modelo by assumption.
      cbn [andb]. now rewrite value_eq_1_val_de.
    + reflexivity.
    + lia.
Qed.

Lemma pedido_idx_extrair_alocacoes st a :
  In a (extrair_alocacoes st) ->
  (a_pedido_idx a < List.length (pedidos st))%nat /\
  (a_entregador_idx a < List.length (entregadores st))%nat.
Proof.
  unfold extrair_alocacoes. intros H.
  apply in_flat_map in H. destruct H as (i & Hi & H).
  apply in_flat_map in H. destruct H as (j & Hj & H).
  apply in_seq in Hi. apply in_seq in Hj.
  destruct (em_x_vars st i j && value_eq_1 (sol st) (x_ i j)); [|contradiction].
  destruct H as [<-|[]]. simpl. lia.
Qed.

(** A list whose entries all deliver an order below [N] is as long as
    the orders are delivered in total. *)
Lemma length_por_ocorrencias (l : list Alocacao) (N : nat) :
  (forall a, In a l -> (a_pedido_idx a < N)%nat) ->
  List.length l = list_sum (map (fun j => ocorrencias_pedido j l) (seq 0 N)).
Proof.
  induction l as [|a l IH]; intros H.
  - unfold ocorrencias_pedido. simpl.
    induction (seq 0 N); simpl; auto.
  - assert (Ha : (a_pedido_idx a < N)%nat) by (apply H; now left).
    assert (IH' := IH (fun b Hb => H b (or_intror Hb))).
    assert (E : forall j, ocorrencias_pedido j (a :: l) =
                          ((if Nat.eqb (a_pedido_idx a) j then 1 else 0) +
                           ocorrencias_pedido j l)%nat).
    { intros j. unfold ocorrencias_pedido. simpl.
      destruct (Nat.eqb (a_pedido_idx a) j); reflexivity. }
    rewrite (map_ext _ _ E).
    assert (S : forall (f g : nat -> nat) (k : list nat),
              list_sum (map (fun j => (f j + g j)%nat) k) =
              (list_sum (map f k) + list_sum (map g k))%nat).
    { intros f g k. induction k as [|x k IHk]; simpl; [reflexivity|].
      rewrite IHk. lia. }
    rewrite S, <- IH'. rewrite list_sum_indicador.
    assert (F : forall n b, (b <= a_pedido_idx a < b + n)%nat ->
                List.length (filter (Nat.eqb (a_pedido_idx a)) (seq b n)) = 1%nat).
    { induction n as [|n IHn]; intros b Hb; [lia|].
      simpl. destruct (Nat.eqb (a_pedido_idx a) b) eqn:Eb.
      - apply Nat.eqb_eq in Eb. simpl. f_equal.
        assert (G : forall m c, (a_pedido_idx a < c)%nat ->
                  List.length (filter (Nat.eqb (a_pedido_idx a)) (seq c m)) = 0%nat).
        { induction m as [|m IHm]; intros c Hc; [reflexivity|].
          simpl. assert (Ec : Nat.eqb (a_pedido_idx a) c = false)
            by (apply Nat.eqb_neq; lia).
          rewrite Ec. apply IHm. lia. }
        apply G. lia.
      - apply Nat.eqb_neq in Eb. apply IHn. lia. }
    rewrite (F N 0%nat) by lia. simpl. reflexivity.
Qed.

Lemma list_sum_uns {A} (l : list A) :
  list_sum (map (fun _ => 1%nat) l) = List.length l.
Proof. induction l; simpl; congruence. Qed.

Lemma length_extrair_alocacoes st s :
  viavel (construir_modelo st) (val_de s) ->
  List.length (extrair_alocacoes (com_sol (criar_modelo st) s)) =
  List.length (pedidos st).
Proof.
  intros Hv.
  rewrite (@length_por_ocorrencias _ (List.length (pedidos st))).
  - rewrite (map_ext_in _ (fun _ => 1%nat)).
    + now rewrite list_sum_uns, length_seq.
    + intros j Hj. apply in_seq in Hj.
      apply ocorrencias_extrair_alocacoes; [exact Hv|lia].
  - intros a Ha. apply pedido_idx_extrair_alocacoes in Ha. apply Ha.
Qed.

(** C4. When the solve of the model built by [criar_modelo] is reported
    Optimal (with a feasible point, as the solver contract says),
    [resolver_modelo] returns [True]; for a non-empty order set the
    Solution it leaves in [self.resultado] has as many allocated orders
    as orders in total, and every order is in exactly one entry of the
    allocation list.  (With no order at all the extractor leaves without
    producing a Solution.) *)
Theorem C4_cobertura_dos_pedidos (solver : Solver) (st : Otimizador)
    (Hopt : fst (solver (construir_modelo st)) = LpStatusOptimal)
    (Hsv : solver_viavel solver (construir_modelo st)) :
  let N := List.length (pedidos st) in
  exists st',
    resolver_modelo solver (criar_modelo st) = Retorna true st' /\
    (N = 0%nat -> resultado st' = resultado st) /\
    ((0 < N)%nat ->
     exists r,
       resultado st' = Some r /\
       num_pedidos_alocados r = num_pedidos_total r /\
       num_pedidos_total r = N /\
       List.length (alocacoes r) = N /\
       (forall j, (j < N)%nat -> ocorrencias_pedido j (alocacoes r) = 1%nat) /\
       (forall a, In a (alocacoes r) -> (a_pedido_idx a < N)%nat)).
Proof.
  intros N. destruct (Hsv Hopt) as [Hv Hval].
  rewrite (resolver_modelo_otimo solver (criar_modelo st) eq_refl Hopt).
  set (s := snd (solver (construir_modelo st))) in *.
  unfold extrair_resultado.
  change (List.length (pedidos (com_sol (criar_modelo st) s))) with N.
  destruct (Nat.eqb N 0) eqn:E.
  - apply Nat.eqb_eq in E. eexists. split; [reflexivity|].
    split; [reflexivity|]. intros HN. lia.
  - apply Nat.eqb_neq in E. cbn [modelo com_sol criar_modelo bind sol].
    destruct (valor_do_objetivo_ok (construir_modelo st) s Hval) as (o & Ho & _).
    rewrite Ho. cbn [bind].
    eexists. split; [reflexivity|]. split; [intros HN; contradiction|].
    intros _. eexists. split; [reflexivity|].
    cbn [num_pedidos_alocados num_pedidos_total alocacoes].
    pose proof (length_extrair_alocacoes Hv) as Hl.
    repeat split.
    + exact Hl.
    + exact Hl.
    + intros j Hj. now apply ocorrencias_extrair_alocacoes.
    + intros a Ha. apply pedido_idx_extrair_alocacoes in Ha. apply Ha.
Qed.

Lemma C4_cobertura_dos_pedidos_witness :
  exists st' r,
    resolver_modelo (solver_forca_bruta ot_dois_por_dois)
                    (criar_modelo ot_dois_por_dois) = Retorna true st' /\
    resultado st' = Some r /\
    num_pedidos_alocados r = 2%nat /\ num_pedidos_total r = 2%nat.
Proof.
  assert (Hopt : fst (solver_forca_bruta ot_dois_por_dois
                        (construir_modelo ot_dois_por_dois)) = LpStatusOptimal)
    by (vm_compute; reflexivity).
  destruct (@C4_cobertura_dos_pedidos (solver_forca_bruta ot_dois_por_dois)
              ot_dois_por_dois Hopt (solver_por_candidatos_viavel _ _))
    as (st' & Hr & _ & H).
  destruct H as (r & Hres & Ha & Ht & _); [simpl; lia|].
  exists st', r. repeat split; [exact Hr|exact Hres|rewrite Ha; exact Ht|exact Ht].
Defined.

(** ** The deadline variant (C5) *)

Lemma fold_add_restricao_opt (f : nat -> option LpConstraint) (l : list nat)
    (m : LpProblem) :
  map snd (constraints (fold_left (fun m j => add_restricao_opt m (f j)) l m)) =
  map snd (constraints m) ++
  flat_map (fun j => match f j with Some c => [c] | None => [] end) l.
Proof.
  revert m. induction l as [|a l IH]; intros m; simpl.
  - now rewrite app_nil_r.
  - rewrite IH. destruct (f a) as [c|]; simpl.
    + now rewrite map_app, <- app_assoc.
    + reflexivity.
Qed.

Lemma restricoes_modelo_restrito ot te tp :
  map snd (constraints (construir_modelo_restrito ot te tp)) =
  map snd (restricoes_R1 ot) ++ map snd (restricoes_R3 ot) ++
  map snd (restricoes_R2 ot) ++ restricoes_prazo ot te tp.
Proof.
  unfold construir_modelo_restrito. rewrite fold_add_restricao_opt.
  rewrite !(proj1 (fold_add_restricao _ _ _ _)). cbn [add_objetivo novo_LpProblem constraints].
  rewrite !map_app. cbn [map app].
  unfold restricoes_R1, restricoes_R2, restricoes_R3, restricoes_prazo.
  rewrite !map_map. cbn [snd]. now rewrite <- !app_assoc.
Qed.


Lemma objetivo_ok_restrito ot te tp v :
  objetivo_ok v (construir_modelo_restrito ot te tp) <->
  objetivo_ok v (construir_modelo ot).
Proof.
  unfold objetivo_ok.
  rewrite (proj1 (objective_modelo_restrito ot te tp)), objective_construir_modelo.
  reflexivity.
Qed.

(** The deadline variant is the base model plus the deadline
    constraints. *)
Lemma viavel_restrito_base ot te tp v :
  viavel (construir_modelo_restrito ot te tp) v <->
  viavel (construir_modelo ot) v /\
  Forall (restricao_ok v) (restricoes_prazo ot te tp).
Proof.
  rewrite !viavel_por_restricao, objetivo_ok_restrito.
  rewrite restricoes_modelo_restrito, constraints_construir_modelo.
  rewrite !map_app, !Forall_app. tauto.
Qed.

Lemma restricao_ok_prazo v j t :
  0 <= v (T_ j) ->
  (restricao_ok v (restr (expr_var (var_T j)) LpLE (expr_const t)) <-> v (T_ j) <= t).
Proof.
  intros H0. unfold restricao_ok, satisfaz, expr_finita, vars_expr.
  cbn [restr c_lhs c_rhs c_sentido expr_var expr_const termos map fst].
  rewrite valor_expr_var, valor_expr_const. cbn [var_T var_nome].
  split.
  - intros (_ & _ & _ & _ & H). exact H.
  - intros H. repeat split; repeat constructor; simpl; auto.
Qed.

Lemma prazos_ok ot te tp v :
  viavel (construir_modelo ot) v ->
  (Forall (restricao_ok v) (restricoes_prazo ot te tp) <-> prazos_cumpridos ot te tp v).
Proof.
  intros Hv. destruct (viavel_fatos Hv) as (_ & _ & HT & _).
  unfold restricoes_prazo, prazos_cumpridos.
  rewrite Forall_flat_map, Forall_forall.
  split.
  - intros H j Hj.
    assert (Hin : In j (seq 0 (List.length (pedidos ot)))) by (apply in_seq; lia).
    specialize (H j Hin). specialize (HT j Hin).
    unfold restricao_prazo in H.
    destruct (Z.eqb (prioridade (iloc_ped (pedidos ot) j)) 3) eqn:E3.
    + apply Z.eqb_eq in E3. inversion H as [|? ? Hc _]; subst.
      apply (restricao_ok_prazo v j te HT) in Hc.
      split; [intros _; exact Hc|intros E2; lia].
    + apply Z.eqb_neq in E3.
      destruct (Z.eqb (prioridade (iloc_ped (pedidos ot) j)) 2) eqn:E2.
      * inversion H as [|? ? Hc _]; subst.
        apply (restricao_ok_prazo v j tp HT) in Hc.
        split; [intros E; contradiction|intros _; exact Hc].
      * apply Z.eqb_neq in E2. split; intros E; contradiction.
  - intros H j Hin. pose proof (HT j Hin) as H0.
    apply in_seq in Hin. destruct (H j) as [H3 H2]; [lia|].
    unfold restricao_prazo.
    destruct (Z.eqb (prioridade (iloc_ped (pedidos ot) j)) 3) eqn:E3.
    + apply Z.eqb_eq in E3. constructor; [|constructor].
      apply (restricao_ok_prazo v j te H0). auto.
    + destruct (Z.eqb (prioridade (iloc_ped (pedidos ot) j)) 2) eqn:E2.
      * apply Z.eqb_eq in E2. constructor; [|constructor].
        apply (restricao_ok_prazo v j tp H0). auto.
      * constructor.
Qed.

Lemma viavel_restrito_iff ot te tp v :
  viavel (construir_modelo_restrito ot te tp) v <->
  viavel (construir_modelo ot) v /\ prazos_cumpridos ot te tp v.
Proof.
  rewrite viavel_restrito_base. split.
  - intros [Hv Hp]. split; [exact Hv|]. now apply prazos_ok.
  - intros [Hv Hp]. split; [exact Hv|]. now apply prazos_ok.
Qed.

Lemma in_variaveis m c x :
  In c (map snd (constraints m)) ->
  In x (vars_expr (c_lhs c)) -> In x (variaveis m).
Proof.
  intros Hc Hx. unfold variaveis, exprs_problema.
  apply in_flat_map. exists (c_lhs c). split; [|exact Hx].
  apply in_or_app. right. apply in_flat_map.
  apply in_map_iff in Hc. destruct Hc as (nc & <- & Hnc).
  exists nc. split; [exact Hnc|]. now left.
Qed.

Lemma var_T_no_modelo_restrito ot te tp j :
  (j < List.length (pedidos ot))%nat ->
  In (var_T j) (variaveis (construir_modelo_restrito ot te tp)).
Proof.
  intros Hj.
  apply (in_variaveis (construir_modelo_restrito ot te tp)
           (R2 ot (seq 0 (List.length (entregadores ot))) j)).
  - rewrite restricoes_modelo_restrito.
    apply in_or_app. right. apply in_or_app. right. apply in_or_app. left.
    unfold restricoes_R2. rewrite map_map. cbn [snd].
    apply (in_map (fun j => R2 ot _ j)). apply in_seq. lia.
  - now left.
Qed.

Lemma in_alocacoes_restritas ot s a :
  In a (alocacoes_restritas ot s) ->
  exists j, (j < List.length (pedidos ot))%nat /\
            ar_prioridade a = prioridade (iloc_ped (pedidos ot) j) /\
            ar_tempo_entrega a = s (T_ j).
Proof.
  unfold alocacoes_restritas. intros H.
  apply in_flat_map in H. destruct H as (i & _ & H).
  apply in_flat_map in H. destruct H as (j & Hj & H).
  apply in_seq in Hj.
  destruct (value_eq_1 s (x_ i j)); [|contradiction].
  destruct H as [<-|[]]. exists j. simpl. repeat split. lia.
Qed.

Lemma otimizacao_restrita_nao_otima solver te tp an :
  fst (solver (construir_modelo_restrito (otimizador an) te tp)) <> LpStatusOptimal ->
  otimizacao_com_restricoes_tempo solver te tp an = Retorna None an.
Proof.
  unfold otimizacao_com_restricoes_tempo. intros H.
  destruct (solver _) as [status s]. simpl in H.
  destruct status; try reflexivity. contradiction.
Qed.

Lemma otimizacao_restrita_retorna solver te tp an r an' :
  otimizacao_com_restricoes_tempo solver te tp an = Retorna (Some r) an' ->
  fst (solver (construir_modelo_restrito (otimizador an) te tp)) = LpStatusOptimal /\
  rr_alocacoes r =
    alocacoes_restritas (otimizador an)
      (snd (solver (construir_modelo_restrito (otimizador an) te tp))).
Proof.
  unfold otimizacao_com_restricoes_tempo.
  destruct (solver _) as [status s]. simpl.
  destruct status; try discriminate.
  destruct (soma_valores _); [|discriminate].
  intros H. injection H as <- _. now split.
Qed.

(** With an express deadline of 10 minutes the example has no feasible
    point: the variant returns [None]. *)
Lemma variante_com_prazo_inalcancavel :
  otimizacao_com_restricoes_tempo (solver_forca_bruta ot_dois_por_dois) 10 45
    (analisador_de ot_dois_por_dois)
  = Retorna None (analisador_de ot_dois_por_dois).
Proof.
  apply otimizacao_restrita_nao_otima. vm_compute. discriminate.
Qed.

(** ** The capacity sweep (C9) *)

Lemma iloc_broadcast c df i :
  ent_velocidade (iloc_ent (broadcast_capacidade c df) i) =
    ent_velocidade (iloc_ent df i) /\
  ((i < List.length df)%nat ->
   ent_capacidade (iloc_ent (broadcast_capacidade c df) i) = c).
Proof.
  unfold iloc_ent, broadcast_capacidade.
  revert i. induction df as [|e df IH]; intros i; simpl.
  - split; [now destruct i|lia].
  - destruct i as [|i]; simpl.
    + split; [reflexivity|reflexivity].
    + destruct (IH i) as [Hv Hc]. split; [exact Hv|]. intros Hi. apply Hc. lia.
Qed.

Lemma custo_com_capacidade st c i j : custo (com_capacidade st c) i j = custo st i j.
Proof.
  unfold custo, calcular_tempo_deslocamento, com_capacidade.
  cbn [com_entregadores entregadores pedidos].
  now rewrite (proj1 (iloc_broadcast c (entregadores st) i)).
Qed.

Lemma length_entregadores_com_capacidade st c :
  List.length (entregadores (com_capacidade st c)) = List.length (entregadores st).
Proof. unfold com_capacidade, broadcast_capacidade. simpl. apply length_map. Qed.

Lemma R1_com_capacidade st c : restricoes_R1 (com_capacidade st c) = restricoes_R1 st.
Proof.
  unfold restricoes_R1. rewrite length_entregadores_com_capacidade. reflexivity.
Qed.

Lemma R2_com_capacidade st c : restricoes_R2 (com_capacidade st c) = restricoes_R2 st.
Proof.
  unfold restricoes_R2. rewrite length_entregadores_com_capacidade.
  change (pedidos (com_capacidade st c)) with (pedidos st).
  apply map_ext. intros j. f_equal. unfold R2. f_equal. f_equal.
  apply map_ext. intros i. now rewrite custo_com_capacidade.
Qed.

Lemma R3_com_capacidade st c :
  restricoes_R3 (com_capacidade st c) =
  map (fun i => (Capacidade_Entregador i,
                 restr (lpSum (map (fun j => expr_var (var_x i j))
                                   (seq 0 (List.length (pedidos st)))))
                       LpLE (expr_const (inject_Z c))))
      (seq 0 (List.length (entregadores st))).
Proof.
  unfold restricoes_R3. rewrite length_entregadores_com_capacidade.
  change (pedidos (com_capacidade st c)) with (pedidos st).
  apply map_ext_in. intros i Hi. apply in_seq in Hi. f_equal. unfold R3.
  unfold com_capacidade at 1. cbn [com_entregadores entregadores].
  rewrite (proj2 (iloc_broadcast c (entregadores st) i)) by lia. reflexivity.
Qed.

Lemma restricao_ok_folga v (l : LpAffineExpression) (c1 c2 : Z) :
  (c1 <= c2)%Z ->
  restricao_ok v (restr l LpLE (expr_const (inject_Z c1))) ->
  restricao_ok v (restr l LpLE (expr_const (inject_Z c2))).
Proof.
  intros Hc (Hl & Hr & Hdl & Hdr & Hs). repeat split; try assumption.
  unfold satisfaz in *. cbn [restr c_sentido c_lhs c_rhs] in *.
  rewrite valor_expr_const in *. rewrite Zle_Qle in Hc. lra.
Qed.

(** A point feasible under capacity [c1] is feasible under any larger
    capacity. *)
Lemma viavel_com_mais_capacidade st c1 c2 v :
  (c1 <= c2)%Z ->
  viavel (construir_modelo (com_capacidade st c1)) v ->
  viavel (construir_modelo (com_capacidade st c2)) v.
Proof.
  intros Hc. rewrite !viavel_por_restricao.
  unfold objetivo_ok. rewrite !objective_construir_modelo.
  rewrite !constraints_construir_modelo.
  rewrite !R1_com_capacidade, !R2_com_capacidade, !R3_com_capacidade.
  rewrite !map_app, !Forall_app.
  intros (Ho & H1 & H2 & H3). repeat split; try assumption.
  - apply Ho.
  - apply Ho.
  - rewrite map_map in *. cbn [snd] in *.
    rewrite Forall_forall in H3 |- *. intros c Hin.
    apply in_map_iff in Hin. destruct Hin as (i & <- & Hi).
    apply (restricao_ok_folga Hc). apply H3.
    apply in_map_iff. exists i. now split.
Qed.

Lemma objetivo_com_capacidade st c v :
  valor_objetivo_de (construir_modelo (com_capacidade st c)) v =
  valor_objetivo_de (construir_modelo st) v.
Proof. reflexivity. Qed.

Lemma otimo_monotono st c1 c2 v1 v2 :
  (c1 <= c2)%Z ->
  otimo (construir_modelo (com_capacidade st c1)) v1 ->
  otimo (construir_modelo (com_capacidade st c2)) v2 ->
  valor_objetivo_de (construir_modelo (com_capacidade st c2)) v2 <=
  valor_objetivo_de (construir_modelo (com_capacidade st c1)) v1.
Proof.
  intros Hc [Hv1 _] [_ Hmin].
  specialize (Hmin v1 (viavel_com_mais_capacidade Hc Hv1)).
  rewrite sense_construir_modelo in Hmin.
  rewrite objetivo_com_capacidade in *. rewrite objetivo_com_capacidade. exact Hmin.
Qed.

Lemma fatos_dois_por_dois c v :
  viavel (construir_modelo (com_capacidade ot_dois_por_dois c)) v ->
  (0 <= v (x_ 0 0) /\ 0 <= v (x_ 0 1) /\ 0 <= v (x_ 1 0) /\ 0 <= v (x_ 1 1)) /\
  v (x_ 0 0) + v (x_ 1 0) == 1 /\
  v (x_ 0 1) + v (x_ 1 1) == 1 /\
  v (T_ 0) == 19 * v (x_ 0 0) + 21 * v (x_ 1 0) /\
  v (T_ 1) == 21 * v (x_ 0 1) + 24 * v (x_ 1 1) /\
  v (x_ 0 0) + v (x_ 0 1) <= inject_Z c /\
  v (x_ 1 0) + v (x_ 1 1) <= inject_Z c.
Proof.
  intros Hv. destruct (viavel_fatos Hv) as (Hb & H1 & _ & H2 & H3).
  rewrite length_entregadores_com_capacidade in *.
  change (pedidos (com_capacidade ot_dois_por_dois c)) with (pedidos ot_dois_por_dois) in *.
  change (seq 0 (List.length (entregadores ot_dois_por_dois))) with [0;1]%nat in *.
  change (seq 0 (List.length (pedidos ot_dois_por_dois))) with [0;1]%nat in *.
  assert (I0 : In 0%nat [0;1]%nat) by (simpl; auto).
  assert (I1 : In 1%nat [0;1]%nat) by (simpl; auto).
  pose proof (H2 0%nat I0) as T0. pose proof (H2 1%nat I1) as T1.
  cbn [map somaQ] in T0, T1.
  rewrite !custo_com_capacidade in T0, T1.
  assert (E00 : custo ot_dois_por_dois 0 0 = Fin (570 # 30)) by (vm_compute; reflexivity).
  assert (E10 : custo ot_dois_por_dois 1 0 = Fin (420 # 20)) by (vm_compute; reflexivity).
  assert (E01 : custo ot_dois_por_dois 0 1 = Fin (630 # 30)) by (vm_compute; reflexivity).
  assert (E11 : custo ot_dois_por_dois 1 1 = Fin (480 # 20)) by (vm_compute; reflexivity).
  rewrite E00, E10 in T0. rewrite E01, E11 in T1. cbn [coef] in T0, T1.
  pose proof (H1 0%nat I0) as S0. pose proof (H1 1%nat I1) as S1.
  pose proof (H3 0%nat I0) as C0. pose proof (H3 1%nat I1) as C1.
  cbn [map somaQ] in S0, S1, C0, C1.
  unfold com_capacidade at 1 in C0. unfold com_capacidade at 1 in C1.
  cbn [com_entregadores entregadores] in C0, C1.
  rewrite (proj2 (iloc_broadcast c _ _)) in C0 by (simpl; lia).
  rewrite (proj2 (iloc_broadcast c _ _)) in C1 by (simpl; lia).
  pose proof (Hb 0%nat 0%nat I0 I0) as B00. pose proof (Hb 0%nat 1%nat I0 I1) as B01.
  pose proof (Hb 1%nat 0%nat I1 I0) as B10. pose proof (Hb 1%nat 1%nat I1 I1) as B11.
  repeat split; lra.
Qed.

Lemma objetivo_dois_por_dois c v :
  valor_objetivo_de (construir_modelo (com_capacidade ot_dois_por_dois c)) v ==
  3 * v (T_ 0) + v (T_ 1).
Proof.
  unfold valor_objetivo_de. rewrite objective_construir_modelo.
  rewrite valor_objetivo_ponderado.
  change (pedidos (com_capacidade ot_dois_por_dois c)) with (pedidos ot_dois_por_dois).
  change (seq 0 (List.length (pedidos ot_dois_por_dois))) with [0;1]%nat.
  cbn [map somaQ].
  change (inject_Z (prioridade (iloc_ped (pedidos ot_dois_por_dois) 0))) with 3.
  change (inject_Z (prioridade (iloc_ped (pedidos ot_dois_por_dois) 1))) with 1.
  lra.
Qed.

Lemma otimo_capacidade_1 :
  otimo (construir_modelo (com_capacidade ot_dois_por_dois 1))
        (val_de (sol_capacidade 1)).
Proof.
  split.
  - apply (solver_por_candidatos_viavel _ _). vm_compute. reflexivity.
  - intros v' Hv'. rewrite sense_construir_modelo.
    assert (E : valor_objetivo_de (construir_modelo (com_capacidade ot_dois_por_dois 1))
                  (val_de (sol_capacidade 1)) == 81) by (vm_compute; reflexivity).
    rewrite E, objetivo_dois_por_dois.
    destruct (fatos_dois_por_dois Hv') as (Hb & S0 & S1 & T0 & T1 & C0 & C1).
    change (inject_Z 1) with 1 in C0, C1. lra.
Qed.

Lemma otimo_capacidade_2 :
  otimo (construir_modelo (com_capacidade ot_dois_por_dois 2))
        (val_de (sol_capacidade 2)).
Proof.
  split.
  - apply (solver_por_candidatos_viavel _ _). vm_compute. reflexivity.
  - intros v' Hv'. rewrite sense_construir_modelo.
    assert (E : valor_objetivo_de (construir_modelo (com_capacidade ot_dois_por_dois 2))
                  (val_de (sol_capacidade 2)) == 78) by (vm_compute; reflexivity).
    rewrite E, objetivo_dois_por_dois.
    destruct (fatos_dois_por_dois Hv') as (Hb & S0 & S1 & T0 & T1 & C0 & C1).
    lra.
Qed.

(** C9. For a fixed set of orders and couriers, overriding every
    capacity with [c1] or with a larger [c2] and solving both models to
    optimality, the optimal priority-weighted objective under [c2] is at
    most the one under [c1]. *)
Theorem C9_objetivo_nao_cresce_com_capacidade (st : Otimizador) (c1 c2 : Z)
    (v1 v2 : valoracao)
    (Hc : (c1 <= c2)%Z)
    (H1 : otimo (construir_modelo (com_capacidade st c1)) v1)
    (H2 : otimo (construir_modelo (com_capacidade st c2)) v2) :
  valor_objetivo_de (construir_modelo (com_capacidade st c2)) v2 <=
  valor_objetivo_de (construir_modelo (com_capacidade st c1)) v1.
Proof. exact (otimo_monotono Hc H1 H2). Qed.

Lemma C9_objetivo_nao_cresce_witness :
  valor_objetivo_de (construir_modelo (com_capacidade ot_dois_por_dois 2))
                    (val_de (sol_capacidade 2)) <=
  valor_objetivo_de (construir_modelo (com_capacidade ot_dois_por_dois 1))
                    (val_de (sol_capacidade 1)).
Proof.
  apply (@C9_objetivo_nao_cresce_com_capacidade ot_dois_por_dois 1 2).
  - lia.
  - exact otimo_capacidade_1.
  - exact otimo_capacidade_2.
Defined.

(** In the example the two optimal values are 81 and 78. *)
Lemma objetivos_do_exemplo :
  valor_objetivo_de (construir_modelo (com_capacidade ot_dois_por_dois 1))
                    (val_de (sol_capacidade 1)) == 81 /\
  valor_objetivo_de (construir_modelo (com_capacidade ot_dois_por_dois 2))
                    (val_de (sol_capacidade 2)) == 78.
Proof. split; vm_compute; reflexivity. Qed.

(** ** The rows of the capacity sweep *)

Lemma construir_modelo_ext st st' :
  entregadores st = entregadores st' -> pedidos st = pedidos st' ->
  construir_modelo st = construir_modelo st'.
Proof.
  intros He Hp. unfold construir_modelo, R2, R3, objetivo_ponderado, custo,
    calcular_tempo_deslocamento.
  now rewrite He, Hp.
Qed.

Lemma broadcast_mesmos c df df' :
  Forall2 mesmos_outros_campos df df' ->
  broadcast_capacidade c df = broadcast_capacidade c df'.
Proof.
  induction 1 as [|e e' df df' (a & b & d & f & g) _ IH]; [reflexivity|].
  simpl. rewrite IH. f_equal. unfold set_capacidade. congruence.
Qed.

Lemma passo_sensibilidade_linha solver ot0 cap ot res res' ot' :
  pedidos ot0 <> [] ->
  Forall2 mesmos_outros_campos (entregadores ot0) (entregadores ot) ->
  pedidos ot = pedidos ot0 ->
  solver_viavel solver (construir_modelo (com_capacidade ot0 cap)) ->
  passo_sensibilidade solver cap ot res = Retorna res' ot' ->
  res' = res \/
  exists r, res' = res ++ [r] /\ ls_capacidade r = cap /\ linha_otima solver ot0 r.
Proof.
  intros HN He Hp Hsv. unfold passo_sensibilidade.
  set (ot1 := criar_modelo (com_entregadores ot
                              (broadcast_capacidade cap (entregadores ot)))).
  assert (Em : construir_modelo
                 (com_entregadores ot (broadcast_capacidade cap (entregadores ot)))
               = construir_modelo (com_capacidade ot0 cap)).
  { apply construir_modelo_ext.
    - unfold com_capacidade. simpl. symmetry. now apply broadcast_mesmos.
    - exact Hp. }
  set (m := construir_modelo (com_capacidade ot0 cap)) in *.
  assert (Hm : modelo ot1 = Some m) by (unfold ot1; simpl; now rewrite Em).
  destruct (LpStatus_eqb (fst (solver m)) LpStatusOptimal) eqn:E.
  - assert (Ho : fst (solver m) = LpStatusOptimal)
      by (destruct (fst (solver m)); simpl in E; congruence).
    assert (HN1 : pedidos ot1 <> [])
      by (change (pedidos ot1) with (pedidos ot); now rewrite Hp).
    rewrite (@resolver_modelo_otimo_valorado solver ot1 m Hm Ho (proj2 (Hsv Ho)) HN1).
    cbn [bind com_resultado resultado].
    intros H. injection H as <- _. right.
    eexists. split; [reflexivity|]. split; [reflexivity|].
    unfold linha_otima.
    cbn [linha_de ls_capacidade ls_valor_objetivo valor_objetivo solucao_extraida].
    fold m. split; [exact Ho|].
    cbn [com_sol sol].
    apply valor_do_objetivo_ok. apply (Hsv Ho).
  - assert (Hs : fst (solver m) <> LpStatusOptimal)
      by (intros Ho; rewrite Ho in E; discriminate).
    rewrite (resolver_modelo_nao_otimo solver ot1 Hm Hs). cbn [bind].
    intros H. injection H as <- _. now left.
Qed.

Lemma laco_sensibilidade_linhas solver ot0 caps ot res res' ot' :
  pedidos ot0 <> [] ->
  Forall2 mesmos_outros_campos (entregadores ot0) (entregadores ot) ->
  pedidos ot = pedidos ot0 ->
  (forall c, solver_viavel solver (construir_modelo (com_capacidade ot0 c))) ->
  Forall (linha_otima solver ot0) res ->
  laco_sensibilidade solver caps ot res = Retorna res' ot' ->
  Forall (linha_otima solver ot0) res'.
Proof.
  intros HN. revert ot res. induction caps as [|cap caps IH];
    intros ot res He Hp Hsv Hres; simpl.
  - intros H. injection H as <- _. exact Hres.
  - destruct (passo_sensibilidade solver cap ot res) as [res1 ot1|e ot1] eqn:E;
      [|discriminate].
    cbn [bind].
    pose proof (entregadores_passo_sensibilidade solver cap ot res) as [He1 Hp1].
    rewrite E in He1, Hp1. cbn [estado_final] in He1, Hp1.
    apply IH.
    + eapply Forall2_mesmos_trans; [exact He|]. rewrite He1.
      apply Forall2_mesmos_broadcast.
    + congruence.
    + exact Hsv.
    + destruct (@passo_sensibilidade_linha solver ot0 cap ot res res1 ot1 HN He Hp (Hsv cap) E)
        as [->|(r & -> & _ & Hr)]; [exact Hres|].
      apply Forall_app. split; [exact Hres|]. now constructor.
Qed.

(** The table returned by the capacity sweep: its objective column does
    not increase with its capacity column. *)
Lemma varredura_objetivo_nao_crescente solver rg an res an' :
  pedidos (otimizador an) <> [] ->
  (forall c, solver_otimo solver
               (construir_modelo (com_capacidade (otimizador an) c))) ->
  analise_sensibilidade_capacidade solver rg an = Retorna res an' ->
  forall r1 r2, In r1 res -> In r2 res ->
    (ls_capacidade r1 <= ls_capacidade r2)%Z ->
    exists o1 o2, ls_valor_objetivo r1 = Some o1 /\
                  ls_valor_objetivo r2 = Some o2 /\ o2 <= o1.
Proof.
  intros HN Hso Hr r1 r2 H1 H2 Hc.
  assert (Hsv : forall c, solver_viavel solver
                  (construir_modelo (com_capacidade (otimizador an) c))).
  { intros c Ho. destruct (Hso c Ho) as [[Hv _] Hs]. now split. }
  unfold analise_sensibilidade_capacidade in Hr.
  destruct (laco_sensibilidade solver _ (otimizador an) []) as [res0 ot|e ot] eqn:E;
    [|discriminate].
  injection Hr as <- _.
  pose proof (@laco_sensibilidade_linhas solver (otimizador an) _ (otimizador an) []
                res0 ot HN (Forall2_mesmos_refl _) eq_refl Hsv (Forall_nil _) E) as Hl.
  rewrite Forall_forall in Hl.
  destruct (Hl r1 H1) as (Ho1 & o1 & E1 & Q1).
  destruct (Hl r2 H2) as (Ho2 & o2 & E2 & Q2).
  exists o1, o2. split; [exact E1|]. split; [exact E2|].
  rewrite Q1, Q2.
  apply (otimo_monotono Hc).
  - apply (Hso _ Ho1).
  - apply (Hso _ Ho2).
Qed.

(** The sweep over the capacities 1 and 2 of the two-by-two example
    returns normally, with the rows (1, objective 81) and (2, objective
    78). *)
Lemma varredura_do_exemplo :
  exists res an',
    analise_sensibilidade_capacidade (solver_forca_bruta ot_dois_por_dois) (1, 2)%Z
      (analisador_de ot_dois_por_dois) = Retorna res an' /\
    map ls_capacidade res = [1; 2]%Z /\
    map (fun r => option_map Qred (ls_valor_objetivo r)) res = [Some 81; Some 78].
Proof.
  destruct (analise_sensibilidade_capacidade (solver_forca_bruta ot_dois_por_dois)
              (1, 2)%Z (analisador_de ot_dois_por_dois)) as [res an'|e an'] eqn:E.
  - exists res, an'. split; [reflexivity|].
    vm_compute in E. injection E as <- _. split; reflexivity.
  - vm_compute in E. discriminate.
Qed.

Lemma C8_capacidades_restauradas_witness :
  exists res an',
    analise_sensibilidade_capacidade (solver_forca_bruta ot_dois_por_dois) (1, 2)%Z
      (analisador_de ot_dois_por_dois) = Retorna res an' /\
    map ent_capacidade (entregadores (otimizador an')) = [2; 1]%Z.
Proof.
  destruct (analise_sensibilidade_capacidade (solver_forca_bruta ot_dois_por_dois)
              (1, 2)%Z (analisador_de ot_dois_por_dois)) as [res an'|e an'] eqn:E.
  - exists res, an'. split; [reflexivity|].
    destruct (C8_capacidades_restauradas (solver_forca_bruta ot_dois_por_dois))
      as [H _].
    rewrite (H _ _ _ _ E). reflexivity.
  - vm_compute in E. discriminate.
Defined.

(** * Further properties of the solution *)

Section Solucao.

Variable solver : Solver.
Variable st : Otimizador.
Hypothesis Hopt : fst (solver (construir_modelo st)) = LpStatusOptimal.
Hypothesis Hsv : solver_viavel solver (construir_modelo st).
Hypothesis HN : pedidos st <> [].

Let s := snd (solver (construir_modelo st)).
Let st1 := com_sol (criar_modelo st) s.

Lemma solucao_viavel : viavel (construir_modelo st) (val_de s).
Proof. exact (proj1 (Hsv Hopt)). Qed.

Lemma solucao_com_valores n :
  In n (map var_nome (variaveis (construir_modelo st))) -> s n <> None.
Proof.
  intros Hin. apply in_map_iff in Hin. destruct Hin as (x & <- & Hx).
  pose proof (proj2 (Hsv Hopt)) as Hv. rewrite Forall_forall in Hv. now apply Hv.
Qed.

(** The Solution left by an optimal solve, field by field. *)
Lemma resolver_modelo_resultado :
  exists st' r,
    resolver_modelo solver (criar_modelo st) = Retorna true st' /\
    resultado st' = Some r /\
    alocacoes r = extrair_alocacoes st1 /\
    tempo_total r = somaQ (tempos_validos st1) /\
    tempo_medio r =
      somaQ (tempos_validos st1) / inject_Z (Z.of_nat (List.length (pedidos st))) /\
    valor_objetivo r = valor_do_objetivo (construir_modelo st) s /\
    num_entregadores_usados r =
      List.length (nodup Nat.eq_dec (map a_entregador_idx (extrair_alocacoes st1))) /\
    num_pedidos_alocados r = List.length (extrair_alocacoes st1) /\
    num_pedidos_total r = List.length (pedidos st).
Proof.
  rewrite (@resolver_modelo_otimo_extrai solver st Hopt (proj2 (Hsv Hopt)) HN).
  eexists. eexists. split; [reflexivity|]. cbn [com_resultado resultado].
  split; [reflexivity|]. unfold solucao_extraida.
  cbn [alocacoes tempo_total tempo_medio valor_objetivo num_entregadores_usados
       num_pedidos_alocados num_pedidos_total].
  repeat split; reflexivity.
Qed.

Lemma length_filter_todos {A} (p : A -> bool) (l : list A) :
  (forall a, In a l -> p a = true) -> List.length (filter p l) = List.length l.
Proof.
  induction l as [|a l IH]; intros H; simpl; [reflexivity|].
  rewrite (H a (or_introl eq_refl)). simpl. f_equal.
  apply IH. intros b Hb. apply H. now right.
Qed.

Lemma length_filter_nenhum {A} (p : A -> bool) (l : list A) :
  (forall a, In a l -> p a = false) -> List.length (filter p l) = 0%nat.
Proof.
  induction l as [|a l IH]; intros H; simpl; [reflexivity|].
  rewrite (H a (or_introl eq_refl)).
  apply IH. intros b Hb. apply H. now right.
Qed.

Lemma ocorrencias_entregador_flat_map (g : nat -> list Alocacao) i (l : list nat) :
  (forall k a, In a (g k) -> a_entregador_idx a = k) ->
  NoDup l -> In i l ->
  ocorrencias_entregador i (flat_map g l) = List.length (g i).
Proof.
  intros Hg. unfold ocorrencias_entregador.
  assert (Hfora : forall l', ~ In i l' ->
            List.length (filter (fun a => Nat.eqb (a_entregador_idx a) i)
                                (flat_map g l')) = 0%nat).
  { intros l' Hni. apply length_filter_nenhum. intros a Ha.
    apply in_flat_map in Ha. destruct Ha as (k & Hk & Ha).
    rewrite (Hg k a Ha). apply Nat.eqb_neq. intros ->. contradiction. }
  induction l as [|k l IH]; intros Hnd Hin; [contradiction|].
  inversion Hnd as [|? ? Hnk Hnd']; subst.
  cbn [flat_map]. rewrite filter_app, length_app.
  destruct Hin as [->|Hin].
  - rewrite (Hfora l Hnk), Nat.add_0_r.
    apply length_filter_todos. intros a Ha. rewrite (Hg i a Ha). apply Nat.eqb_refl.
  - rewrite (IH Hnd' Hin).
    rewrite length_filter_nenhum; [reflexivity|].
    intros a Ha. rewrite (Hg k a Ha). apply Nat.eqb_neq. intros ->. contradiction.
Qed.

Lemma length_laco_interno (f : nat -> Alocacao) (c : nat -> bool) (l : list nat) :
  List.length (flat_map (fun k => if c k then [f k] else []) l) =
  List.length (filter c l).
Proof.
  induction l as [|k l IH]; simpl; [reflexivity|].
  destruct (c k); simpl; now rewrite IH.
Qed.

(** No courier carries more orders than its capacity. *)
Lemma capacidade_respeitada_na_extracao i :
  (i < List.length (entregadores st))%nat ->
  (Z.of_nat (ocorrencias_entregador i (extrair_alocacoes st1)) <=
   ent_capacidade (iloc_ent (entregadores st) i))%Z.
Proof.
  intros Hi.
  destruct (viavel_fatos solucao_viavel) as (Hb & _ & _ & _ & H3).
  set (I := seq 0 (List.length (entregadores st))) in *.
  set (J := seq 0 (List.length (pedidos st))) in *.
  assert (HI : In i I) by (apply in_seq; lia).
  unfold extrair_alocacoes.
  change (List.length (pedidos st1)) with (List.length (pedidos st)).
  change (List.length (entregadores st1)) with (List.length (entregadores st)).
  fold I J.
  rewrite (ocorrencias_entregador_flat_map
             (fun i => flat_map (fun j => if em_x_vars st1 i j && value_eq_1 (sol st1) (x_ i j)
                                          then [alocacao_de st1 i j] else []) J)).
  - rewrite length_laco_interno.
    rewrite (filter_ext_in _ (fun j => Qeq_bool (val_de s (x_ i j)) 1)).
    + specialize (H3 i HI).
      rewrite (soma_binarios (l := map (fun j => val_de s (x_ i j)) J)) in H3.
      * rewrite length_filter_map in H3. now rewrite Zle_Qle.
      * apply Forall_forall. intros q Hq. apply in_map_iff in Hq.
        destruct Hq as (j & <- & Hj). now apply Hb.
    + intros j Hj. unfold st1 at 1.
      rewrite em_x_vars_criar_modelo by assumption.
      cbn [andb]. now rewrite value_eq_1_val_de.
  - intros k a Ha. apply in_flat_map in Ha. destruct Ha as (j & _ & Ha).
    destruct (em_x_vars st1 k j && value_eq_1 (sol st1) (x_ k j)); [|contradiction].
    destruct Ha as [<-|[]]. reflexivity.
  - apply seq_NoDup.
  - exact HI.
Qed.

Lemma binarios_soma_zero (x c : nat -> Q) (l : list nat) :
  (forall i, In i l -> x i == 0 \/ x i == 1) ->
  somaQ (map x l) == 0 ->
  somaQ (map (fun i => c i * x i) l) == 0 /\ forall i, In i l -> x i == 0.
Proof.
  induction l as [|a l IH]; intros Hb Hs; cbn [map somaQ] in *.
  - split; [reflexivity|intros i []].
  - assert (Hl : 0 <= somaQ (map x l)).
    { rewrite (soma_binarios (l := map x l)).
      - rewrite <- (Zle_Qle 0). lia.
      - apply Forall_forall. intros q Hq. apply in_map_iff in Hq.
        destruct Hq as (i & <- & Hi). apply Hb. now right. }
    assert (Ha : x a == 0) by (destruct (Hb a (or_introl eq_refl)); lra).
    destruct IH as [IH1 IH2].
    + intros i Hi. apply Hb. now right.
    + lra.
    + split.
      * rewrite IH1, Ha. lra.
      * intros i [<-|Hi]; [exact Ha|now apply IH2].
Qed.

(** When exactly one of the 0/1 values is 1, the weighted sum is the
    weight of that one. *)
Lemma soma_ponderada_unica (x c : nat -> Q) (l : list nat) i0 :
  In i0 l ->
  (forall i, In i l -> x i == 0 \/ x i == 1) ->
  somaQ (map x l) == 1 -> x i0 == 1 ->
  somaQ (map (fun i => c i * x i) l) == c i0.
Proof.
  induction l as [|a l IH]; intros Hin Hb Hs H1; [contradiction|].
  cbn [map somaQ] in *.
  assert (Hl : forall i, In i l -> x i == 0 \/ x i == 1)
    by (intros i Hi; apply Hb; now right).
  assert (Hpos : 0 <= somaQ (map x l)).
  { rewrite (soma_binarios (l := map x l)).
    - rewrite <- (Zle_Qle 0). lia.
    - apply Forall_forall. intros q Hq. apply in_map_iff in Hq.
      destruct Hq as (i & <- & Hi). now apply Hl. }
  destruct (Hb a (or_introl eq_refl)) as [Ha|Ha].
  - destruct Hin as [->|Hin]; [lra|].
    rewrite (IH Hin Hl) by lra. rewrite Ha. lra.
  - assert (Hz : somaQ (map x l) == 0) by lra.
    destruct (binarios_soma_zero x c l Hl Hz) as [Hc Hall].
    destruct Hin as [->|Hin].
    + rewrite Hc, Ha. lra.
    + specialize (Hall i0 Hin). lra.
Qed.

Lemma custo_finito v i j :
  viavel (construir_modelo st) v ->
  (i < List.length (entregadores st))%nat ->
  (j < List.length (pedidos st))%nat ->
  is_fin (custo st i j).
Proof.
  intros Hv Hi Hj.
  pose proof (restricao_ok_em_modelo (Calculo_Tempo_Pedido j) _ Hv
                (in_restricoes_R2 st Hj)) as (_ & Hf & _).
  unfold R2, expr_finita in Hf; cbn [restr c_rhs lpSum termos] in Hf.
  rewrite Forall_forall in Hf.
  destruct (custo st i j) as [q| |] eqn:E; [exact I| |].
  - apply (Hf (var_x i j, Inf negativo)). apply in_flat_map.
    exists (expr_mul (var_x i j) (custo st i j)). split.
    + apply (in_map (fun i => expr_mul (var_x i j) (custo st i j))). apply in_seq. lia.
    + rewrite E. now left.
  - apply (Hf (var_x i j, NaN)). apply in_flat_map.
    exists (expr_mul (var_x i j) (custo st i j)). split.
    + apply (in_map (fun i => expr_mul (var_x i j) (custo st i j))). apply in_seq. lia.
    + rewrite E. now left.
Qed.

Lemma var_T_no_modelo j :
  (j < List.length (pedidos st))%nat ->
  In (var_T j) (variaveis (construir_modelo st)).
Proof.
  intros Hj.
  apply (in_variaveis (construir_modelo st)
           (R2 st (seq 0 (List.length (entregadores st))) j)).
  - change (R2 st (seq 0 (List.length (entregadores st))) j)
      with (snd (Calculo_Tempo_Pedido j,
                 R2 st (seq 0 (List.length (entregadores st))) j)).
    apply in_map. now apply in_restricoes_R2.
  - now left.
Qed.

Lemma valor_T j :
  (j < List.length (pedidos st))%nat ->
  s (T_ j) = Some (val_de s (T_ j)).
Proof.
  intros Hj. pose proof (solucao_com_valores (T_ j)) as H.
  unfold val_de. destruct (s (T_ j)); [reflexivity|].
  exfalso. apply H; [|reflexivity].
  apply (in_map var_nome _ (var_T j)). now apply var_T_no_modelo.
Qed.

Lemma em_t_vars_criar j :
  (j < List.length (pedidos st))%nat -> em_t_vars st1 j = true.
Proof.
  intros Hj. unfold em_t_vars, st1; cbn [com_sol criar_modelo t_vars].
  apply existsb_exists. exists j. split; [apply in_seq; lia|apply Nat.eqb_refl].
Qed.

Lemma in_extrair_alocacoes a :
  In a (extrair_alocacoes st1) ->
  exists i j, (i < List.length (entregadores st))%nat /\
              (j < List.length (pedidos st))%nat /\
              val_de s (x_ i j) == 1 /\ a = alocacao_de st1 i j.
Proof.
  unfold extrair_alocacoes. intros H.
  apply in_flat_map in H. destruct H as (i & Hi & H).
  apply in_flat_map in H. destruct H as (j & Hj & H).
  apply in_seq in Hi. apply in_seq in Hj.
  change (List.length (entregadores st1)) with (List.length (entregadores st)) in Hi.
  change (List.length (pedidos st1)) with (List.length (pedidos st)) in Hj.
  destruct (em_x_vars st1 i j); cbn [andb] in H; [|contradiction].
  destruct (value_eq_1 (sol st1) (x_ i j)) eqn:E; [|contradiction].
  destruct H as [<-|[]]. exists i, j.
  repeat split; try lia.
  change (sol st1) with s in E. rewrite value_eq_1_val_de in E.
  now apply Qeq_bool_iff.
Qed.

(** The realized time of an entry is the cost of its pair. *)
Lemma tempo_da_alocacao a :
  In a (extrair_alocacoes st1) ->
  exists t, a_tempo_entrega a = Some t /\
            is_fin (custo st (a_entregador_idx a) (a_pedido_idx a)) /\
            t == coef (custo st (a_entregador_idx a) (a_pedido_idx a)) /\
            t = val_de s (T_ (a_pedido_idx a)).
Proof.
  intros Ha. destruct (in_extrair_alocacoes a Ha) as (i & j & Hi & Hj & Hx & ->).
  cbn [alocacao_de a_tempo_entrega a_entregador_idx a_pedido_idx].
  rewrite (em_t_vars_criar Hj). change (sol st1) with s. rewrite (valor_T Hj).
  exists (val_de s (T_ j)). split; [reflexivity|].
  split; [exact (custo_finito solucao_viavel Hi Hj)|]. split; [|reflexivity].
  destruct (viavel_fatos solucao_viavel) as (Hb & H1 & _ & H2 & _).
  assert (HI : In i (seq 0 (List.length (entregadores st)))) by (apply in_seq; lia).
  assert (HJ : In j (seq 0 (List.length (pedidos st)))) by (apply in_seq; lia).
  rewrite (H2 j HJ).
  apply (soma_ponderada_unica (fun i => val_de s (x_ i j))
           (fun i => coef (custo st i j))
           (seq 0 (List.length (entregadores st))) i HI).
  - intros k Hk. now apply Hb.
  - now apply H1.
  - exact Hx.
Qed.

Lemma flat_map_unitario {A B} (f : A -> list B) (g : A -> B) (l : list A) :
  (forall a, In a l -> f a = [g a]) -> flat_map f l = map g l.
Proof.
  induction l as [|a l IH]; intros H; simpl; [reflexivity|].
  rewrite (H a (or_introl eq_refl)), IH; [reflexivity|].
  intros b Hb. apply H. now right.
Qed.

Lemma tempos_validos_extraidos :
  tempos_validos st1 =
  map (fun j => val_de s (T_ j)) (seq 0 (List.length (pedidos st))).
Proof.
  unfold tempos_validos.
  change (List.length (pedidos st1)) with (List.length (pedidos st)).
  apply flat_map_unitario. intros j Hj. apply in_seq in Hj.
  rewrite em_t_vars_criar by lia. change (sol st1) with s.
  rewrite valor_T by lia. reflexivity.
Qed.

Lemma soma_indicador (f : nat -> Q) (k n a : nat) :
  (a <= k < a + n)%nat ->
  somaQ (map (fun j => (if Nat.eqb k j then 1 else 0) * f j) (seq a n)) == f k.
Proof.
  revert a. induction n as [|n IH]; intros a H; [lia|].
  cbn [seq map somaQ]. destruct (Nat.eqb k a) eqn:E.
  - apply Nat.eqb_eq in E. subst a.
    rewrite (somaQ_map_ext _ (fun _ => 0)).
    + rewrite somaQ_map_const. lra.
    + intros j Hj. apply in_seq in Hj.
      assert (E : Nat.eqb k j = false) by (apply Nat.eqb_neq; lia).
      rewrite E. lra.
  - apply Nat.eqb_neq in E. rewrite IH by lia. lra.
Qed.

(** A sum over the entries, when every order below [N] is in exactly
    one entry, is the sum over the orders. *)
Lemma soma_por_pedido (f : nat -> Q) (l : list Alocacao) (N : nat) :
  (forall a, In a l -> (a_pedido_idx a < N)%nat) ->
  somaQ (map (fun a => f (a_pedido_idx a)) l) ==
  somaQ (map (fun j => inject_Z (Z.of_nat (ocorrencias_pedido j l)) * f j) (seq 0 N)).
Proof.
  induction l as [|a l IH]; intros H.
  - cbn [map somaQ]. rewrite (somaQ_map_ext _ (fun _ => 0)).
    + rewrite somaQ_map_const. lra.
    + intros j _. unfold ocorrencias_pedido. cbn [filter List.length Z.of_nat].
      change (inject_Z 0) with 0. lra.
  - cbn [map somaQ]. rewrite IH by (intros b Hb; apply H; now right).
    rewrite <- (@soma_indicador f (a_pedido_idx a) N 0%nat)
      by (pose proof (H a (or_introl eq_refl)); lia).
    rewrite <- somaQ_map_plus. apply somaQ_map_ext. intros j _.
    unfold ocorrencias_pedido. cbn [filter].
    destruct (Nat.eqb (a_pedido_idx a) j); cbn [List.length].
    + rewrite Nat2Z.inj_succ, <- Z.add_1_r, inject_Z_plus.
      change (inject_Z 1) with 1. lra.
    + lra.
Qed.

Lemma soma_sobre_alocacoes (f : nat -> Q) :
  somaQ (map (fun a => f (a_pedido_idx a)) (extrair_alocacoes st1)) ==
  somaQ (map f (seq 0 (List.length (pedidos st)))).
Proof.
  rewrite (@soma_por_pedido f (extrair_alocacoes st1) (List.length (pedidos st))).
  - apply somaQ_map_ext. intros j Hj. apply in_seq in Hj.
    unfold st1. rewrite (@ocorrencias_extrair_alocacoes st s j solucao_viavel) by lia.
    change (inject_Z (Z.of_nat 1)) with 1. lra.
  - intros a Ha. apply pedido_idx_extrair_alocacoes in Ha. apply Ha.
Qed.

Lemma tempo_de_extraido a :
  In a (extrair_alocacoes st1) -> tempo_de a = val_de s (T_ (a_pedido_idx a)).
Proof.
  intros Ha. destruct (tempo_da_alocacao a Ha) as (t & Et & _ & _ & Ev).
  unfold tempo_de. now rewrite Et.
Qed.

Lemma prioridade_extraida a :
  In a (extrair_alocacoes st1) ->
  a_prioridade a = prioridade (iloc_ped (pedidos st) (a_pedido_idx a)).
Proof.
  intros Ha. destruct (in_extrair_alocacoes a Ha) as (i & j & _ & _ & _ & ->).
  reflexivity.
Qed.

(** The aggregates of the Solution, read on its allocation list. *)
Lemma agregados_da_extracao :
  somaQ (tempos_validos st1) ==
    somaQ (map tempo_de (extrair_alocacoes st1)) /\
  exists o, valor_do_objetivo (construir_modelo st) s = Some o /\
            o == somaQ (map (fun a => inject_Z (a_prioridade a) * tempo_de a)
                            (extrair_alocacoes st1)).
Proof.
  split.
  - rewrite tempos_validos_extraidos.
    rewrite <- (soma_sobre_alocacoes (fun j => val_de s (T_ j))).
    apply somaQ_map_ext. intros a Ha. now rewrite (tempo_de_extraido a Ha).
  - destruct (valor_do_objetivo_ok (construir_modelo st) s (proj2 (Hsv Hopt)))
      as (o & Eo & Ho).
    exists o. split; [exact Eo|]. rewrite Ho.
    unfold valor_objetivo_de. rewrite objective_construir_modelo.
    rewrite valor_objetivo_ponderado.
    rewrite <- (soma_sobre_alocacoes
                  (fun j => val_de s (T_ j) *
                            inject_Z (prioridade (iloc_ped (pedidos st) j)))).
    apply somaQ_map_ext. intros a Ha.
    rewrite (tempo_de_extraido a Ha), (prioridade_extraida a Ha). lra.
Qed.

(** X1. After an optimal solve no courier appears in more entries of
    the allocation list than its capacity. *)
Theorem capacidade_respeitada :
  exists st' r,
    resolver_modelo solver (criar_modelo st) = Retorna true st' /\
    resultado st' = Some r /\
    forall i, (i < List.length (entregadores st))%nat ->
      (Z.of_nat (ocorrencias_entregador i (alocacoes r)) <=
       ent_capacidade (iloc_ent (entregadores st) i))%Z.
Proof.
  destruct resolver_modelo_resultado as (st' & r & Hr & Hres & Ha & _).
  exists st', r. split; [exact Hr|]. split; [exact Hres|].
  intros i Hi. rewrite Ha. now apply capacidade_respeitada_na_extracao.
Qed.

(** X2. After an optimal solve the realized time of every entry is the
    cost of its (courier, order) pair, which is finite. *)
Theorem tempo_realizado_e_custo_do_par :
  exists st' r,
    resolver_modelo solver (criar_modelo st) = Retorna true st' /\
    resultado st' = Some r /\
    forall a, In a (alocacoes r) ->
      exists t, a_tempo_entrega a = Some t /\
                np_eq (Fin t) (custo st (a_entregador_idx a) (a_pedido_idx a)).
Proof.
  destruct resolver_modelo_resultado as (st' & r & Hr & Hres & Ha & _).
  exists st', r. split; [exact Hr|]. split; [exact Hres|].
  intros a Hin. rewrite Ha in Hin.
  destruct (tempo_da_alocacao a Hin) as (t & Et & Hf & Hc & _).
  exists t. split; [exact Et|].
  destruct (custo st (a_entregador_idx a) (a_pedido_idx a)); simpl in *;
    [exact Hc|contradiction|contradiction].
Qed.

(** The entry of an order in the extracted list, and its time. *)
Lemma entrada_do_pedido j :
  (j < List.length (pedidos st))%nat ->
  tempo_do_pedido (extrair_alocacoes st1) j = val_de s (T_ j) /\
  exists a, In a (extrair_alocacoes st1) /\ a_pedido_idx a = j /\
            a_tempo_entrega a = Some (val_de s (T_ j)).
Proof.
  intros Hj. unfold tempo_do_pedido.
  destruct (find (fun a => Nat.eqb (a_pedido_idx a) j) (extrair_alocacoes st1))
    as [a|] eqn:E.
  - apply find_some in E. destruct E as [Ha Ej]. apply Nat.eqb_eq in Ej.
    destruct (tempo_da_alocacao a Ha) as (t & Et & _ & _ & Ev).
    rewrite (tempo_de_extraido a Ha), Ej. split; [reflexivity|].
    exists a. split; [exact Ha|]. split; [exact Ej|]. now rewrite Et, Ev, Ej.
  - exfalso.
    pose proof (@ocorrencias_extrair_alocacoes st s j solucao_viavel Hj) as H1.
    fold st1 in H1. unfold ocorrencias_pedido in H1.
    rewrite length_filter_nenhum in H1; [discriminate|].
    intros a Ha. exact (find_none _ _ E a Ha).
Qed.

(** X3. The aggregates of the Solution, read on its allocation list.
    Every order has an entry, with a time; the total time is the sum,
    over the orders in the order of the table, of the time of the
    order's entry; the objective value is the sum over the orders of
    that time multiplied by the priority of the order; the mean time is
    the total time divided by the number of orders. *)
Theorem agregados_do_resultado :
  exists st' r,
    resolver_modelo solver (criar_modelo st) = Retorna true st' /\
    resultado st' = Some r /\
    (forall j, (j < List.length (pedidos st))%nat ->
       exists a, In a (alocacoes r) /\ a_pedido_idx a = j /\
                 a_tempo_entrega a = Some (tempo_do_pedido (alocacoes r) j)) /\
    tempo_total r ==
      somaQ (map (tempo_do_pedido (alocacoes r))
                 (seq 0 (List.length (pedidos st)))) /\
    (exists o, valor_objetivo r = Some o /\
               o == somaQ (map (fun j =>
                                  tempo_do_pedido (alocacoes r) j *
                                  inject_Z (prioridade (iloc_ped (pedidos st) j)))
                               (seq 0 (List.length (pedidos st))))) /\
    tempo_medio r ==
      tempo_total r / inject_Z (Z.of_nat (List.length (pedidos st))).
Proof.
  destruct resolver_modelo_resultado
    as (st' & r & Hr & Hres & Ha & Ht & Hm & Ho & _).
  exists st', r. split; [exact Hr|]. split; [exact Hres|].
  rewrite Ha, Ht, Hm, Ho. split; [|split; [|split]].
  - intros j Hj. destruct (entrada_do_pedido Hj) as (Et & a & Hin & Ej & Ea).
    exists a. rewrite Et. now repeat split.
  - rewrite tempos_validos_extraidos. apply somaQ_map_ext.
    intros j Hj. apply in_seq in Hj.
    rewrite (proj1 (@entrada_do_pedido j ltac:(lia))). reflexivity.
  - destruct (valor_do_objetivo_ok (construir_modelo st) s (proj2 (Hsv Hopt)))
      as (o & Eo & Hov).
    exists o. split; [exact Eo|]. rewrite Hov.
    unfold valor_objetivo_de. rewrite objective_construir_modelo.
    rewrite valor_objetivo_ponderado.
    apply somaQ_map_ext. intros j Hj. apply in_seq in Hj.
    rewrite (proj1 (@entrada_do_pedido j ltac:(lia))). reflexivity.
  - reflexivity.
Qed.

(** X4. After an optimal solve the number of couriers used is at least
    1 and at most both the number of couriers and the number of
    orders. *)
Theorem entregadores_usados_limitado :
  exists st' r,
    resolver_modelo solver (criar_modelo st) = Retorna true st' /\
    resultado st' = Some r /\
    (1 <= num_entregadores_usados r)%nat /\
    (num_entregadores_usados r <= List.length (entregadores st))%nat /\
    (num_entregadores_usados r <= List.length (pedidos st))%nat.
Proof.
  destruct resolver_modelo_resultado
    as (st' & r & Hr & Hres & _ & _ & _ & _ & Hu & _).
  exists st', r. split; [exact Hr|]. split; [exact Hres|]. rewrite Hu.
  set (l := map a_entregador_idx (extrair_alocacoes st1)).
  assert (Hlen : List.length l = List.length (pedidos st)).
  { unfold l. rewrite length_map. unfold st1.
    apply length_extrair_alocacoes. exact solucao_viavel. }
  split; [|split].
  - destruct l as [|x l'] eqn:El.
    + simpl in Hlen. destruct (pedidos st); [contradiction|discriminate].
    + assert (Hx : In x (nodup Nat.eq_dec (x :: l'))) by (apply nodup_In; now left).
      destruct (nodup Nat.eq_dec (x :: l')); [contradiction|simpl; lia].
  - apply Nat.le_trans
      with (List.length (seq 0 (List.length (entregadores st))));
      [|rewrite length_seq; lia].
    apply NoDup_incl_length; [apply NoDup_nodup|].
    intros x Hx. apply nodup_In in Hx. unfold l in Hx.
    apply in_map_iff in Hx. destruct Hx as (a & <- & Ha).
    apply pedido_idx_extrair_alocacoes in Ha. apply in_seq.
    change (entregadores st1) with (entregadores st) in Ha. lia.
  - rewrite <- Hlen.
    apply NoDup_incl_length; [apply NoDup_nodup|].
    intros x Hx. now apply nodup_In in Hx.
Qed.

End Solucao.

Lemma capacidade_respeitada_witness :
  exists st' r,
    resolver_modelo (solver_forca_bruta ot_dois_por_dois)
                    (criar_modelo ot_dois_por_dois) = Retorna true st' /\
    resultado st' = Some r /\
    (Z.of_nat (ocorrencias_entregador 0 (alocacoes r)) <= 2)%Z.
Proof.
  destruct (@capacidade_respeitada (solver_forca_bruta ot_dois_por_dois)
              ot_dois_por_dois)
    as (st' & r & Hr & Hres & H).
  - vm_compute. reflexivity.
  - apply solver_por_candidatos_viavel.
  - discriminate.
  - exists st', r. split; [exact Hr|]. split; [exact Hres|].
    apply (H 0%nat). simpl. lia.
Defined.

Lemma tempo_realizado_e_custo_do_par_witness :
  exists st' r,
    resolver_modelo (solver_forca_bruta ot_dois_por_dois)
                    (criar_modelo ot_dois_por_dois) = Retorna true st' /\
    resultado st' = Some r /\
    forall a, In a (alocacoes r) ->
      exists t, a_tempo_entrega a = Some t /\
                np_eq (Fin t) (custo ot_dois_por_dois (a_entregador_idx a)
                                     (a_pedido_idx a)).
Proof.
  apply (@tempo_realizado_e_custo_do_par (solver_forca_bruta ot_dois_por_dois)
           ot_dois_por_dois).
  - vm_compute. reflexivity.
  - apply solver_por_candidatos_viavel.
  - discriminate.
Defined.

Lemma agregados_do_resultado_witness :
  exists st' r,
    resolver_modelo (solver_forca_bruta ot_dois_por_dois)
                    (criar_modelo ot_dois_por_dois) = Retorna true st' /\
    resultado st' = Some r /\
    tempo_total r == somaQ (map (tempo_do_pedido (alocacoes r)) [0; 1]%nat) /\
    tempo_medio r == tempo_total r / 2.
Proof.
  destruct (@agregados_do_resultado (solver_forca_bruta ot_dois_por_dois)
              ot_dois_por_dois)
    as (st' & r & Hr & Hres & _ & Ht & _ & Hm).
  - vm_compute. reflexivity.
  - apply solver_por_candidatos_viavel.
  - discriminate.
  - exists st', r. split; [exact Hr|]. split; [exact Hres|].
    split; [exact Ht|exact Hm].
Defined.

Lemma entregadores_usados_limitado_witness :
  exists st' r,
    resolver_modelo (solver_forca_bruta ot_dois_por_dois)
                    (criar_modelo ot_dois_por_dois) = Retorna true st' /\
    resultado st' = Some r /\
    (1 <= num_entregadores_usados r <= 2)%nat.
Proof.
  destruct (@entregadores_usados_limitado (solver_forca_bruta ot_dois_por_dois)
              ot_dois_por_dois)
    as (st' & r & Hr & Hres & H1 & H2 & _).
  - vm_compute. reflexivity.
  - apply solver_por_candidatos_viavel.
  - discriminate.
  - exists st', r. repeat split; try assumption.
Defined.

(** * Cleaning and pipelines *)

(** X5. For every input, [preprocessar_dados] leaves a non-empty order
    table (its first "no valid order" exit is never taken), keeps exactly
    the couriers that survive the cleaning, keeps exactly the surviving
    orders when there is one, and returns True if and only if a courier
    survives. *)
Theorem preprocessar_dados_retorno (ob : OtimizadorBruto) :
  pedidos (snd (preprocessar_dados ob)) <> [] /\
  entregadores (snd (preprocessar_dados ob)) = entregadores_limpos ob /\
  (pedidos_limpos ob <> [] ->
   pedidos (snd (preprocessar_dados ob)) = pedidos_limpos ob) /\
  (fst (preprocessar_dados ob) = true <-> entregadores_limpos ob <> []).
Proof.
  unfold preprocessar_dados, pedidos_limpos, entregadores_limpos.
  destruct (dropna limpar_pedido (ob_pedidos ob)) as [|p ps] eqn:Ep;
    destruct (dropna limpar_entregador (ob_entregadores ob)) as [|e es] eqn:Ee;
    cbn; repeat split; try discriminate; try congruence; try (intros H; now elim H).
Qed.

Lemma dict_get_app_none d1 d2 k :
  dict_get d1 k = None -> dict_get (d1 ++ d2) k = dict_get d2 k.
Proof.
  induction d1 as [|[k' v] d1 IH]; simpl; [reflexivity|].
  destruct (String.eqb k' k); [discriminate|exact IH].
Qed.

Lemma dict_get_ausente (d : list (string * string)) k :
  dict_get d k = None <-> forall kv, In kv d -> fst kv <> k.
Proof.
  induction d as [|[k' v] d IH]; simpl.
  - split; [intros _ kv []|reflexivity].
  - destruct (String.eqb k' k) eqn:E.
    + apply String.eqb_eq in E. split; [discriminate|].
      intros H. exfalso. apply (H (k', v)); [now left|exact E].
    + apply String.eqb_neq in E. rewrite IH. split.
      * intros H kv [<-|Hin]; [exact E|now apply H].
      * intros H kv Hin. apply H. now right.
Qed.

Lemma dict_get_mapear (rs : list Restaurante) (nome : string) :
  (dict_get (mapear_restaurantes rs) nome = None <->
   forall r, In r rs -> rest_nome r <> nome) /\
  (forall l1 r l2,
     rs = l1 ++ r :: l2 -> rest_nome r = nome ->
     (forall r', In r' l2 -> rest_nome r' <> nome) ->
     dict_get (mapear_restaurantes rs) nome = Some (rest_cep r)).
Proof.
  unfold mapear_restaurantes. split.
  - rewrite dict_get_ausente. split.
    + intros H r Hr. apply (H (rest_nome r, rest_cep r)).
      rewrite <- in_rev. now apply (in_map (fun r => (rest_nome r, rest_cep r))).
    + intros H kv Hin. rewrite <- in_rev in Hin. apply in_map_iff in Hin.
      destruct Hin as (r & <- & Hr). now apply H.
  - intros l1 r l2 -> Hn Hl2.
    rewrite map_app, rev_app_distr. cbn [map rev]. rewrite <- app_assoc.
    rewrite dict_get_app_none.
    + cbn [app dict_get]. rewrite Hn, String.eqb_refl. reflexivity.
    + apply dict_get_ausente. intros kv Hin. rewrite <- in_rev in Hin.
      apply in_map_iff in Hin. destruct Hin as (r' & <- & Hr'). now apply Hl2.
Qed.

Lemma mapa_apos_preprocessar ob :
  fst (preprocessar_dados ob) = true ->
  mapa_restaurante_cep (snd (preprocessar_dados ob)) =
  mapear_restaurantes (ob_restaurantes ob).
Proof.
  unfold preprocessar_dados.
  destruct (Nat.eqb (List.length (dropna limpar_pedido (ob_pedidos ob))) 0);
    repeat match goal with
           | |- context [if ?c then _ else _] => destruct c
           end; simpl; intros H; try discriminate; reflexivity.
Qed.

(** X6. After a successful [preprocessar_dados], the restaurant-to-CEP
    dictionary gives for a name the CEP of the last row of
    [restaurantes] with that name, and [None] exactly when no row has
    it. *)
Theorem mapa_restaurante_ultima_linha (ob : OtimizadorBruto) (nome : string)
    (Hok : fst (preprocessar_dados ob) = true) :
  let mapa := mapa_restaurante_cep (snd (preprocessar_dados ob)) in
  (dict_get mapa nome = None <->
   forall r, In r (ob_restaurantes ob) -> rest_nome r <> nome) /\
  (forall l1 r l2,
     ob_restaurantes ob = l1 ++ r :: l2 -> rest_nome r = nome ->
     (forall r', In r' l2 -> rest_nome r' <> nome) ->
     dict_get mapa nome = Some (rest_cep r)).
Proof.
  intros mapa. unfold mapa. rewrite (mapa_apos_preprocessar ob Hok).
  apply dict_get_mapear.
Qed.

Lemma mapa_restaurante_ultima_linha_witness :
  fst (preprocessar_dados ob_duas_cantinas) = true /\
  dict_get (mapa_restaurante_cep (snd (preprocessar_dados ob_duas_cantinas)))
           "Cantina"%string = Some "36015-000"%string.
Proof.
  assert (Hok : fst (preprocessar_dados ob_duas_cantinas) = true) by reflexivity.
  split; [exact Hok|].
  destruct (@mapa_restaurante_ultima_linha ob_duas_cantinas "Cantina"%string Hok)
    as [_ H].
  apply (H [rest_cantina]
           {| rest_nome := "Cantina"%string; rest_cep := "36015-000"%string |} []).
  - reflexivity.
  - reflexivity.
  - intros r' [].
Defined.

(** A model without courier and with at least one order has no
    feasible point. *)
Lemma sem_entregador_inviavel st v :
  entregadores st = [] -> pedidos st <> [] ->
  ~ viavel (construir_modelo st) v.
Proof.
  intros He Hp Hv.
  pose proof (atribuicao_exige_capacidade
                (viavel_satisfaz_nomeadas eh_R1 Hv)
                (viavel_satisfaz_nomeadas eh_R3 Hv)) as H.
  unfold capacidade_total in H. rewrite He in H. simpl in H.
  destruct (pedidos st); [contradiction|]. simpl in H. lia.
Qed.

(** X7. [exemplo_completo] and [executar_analise_completa] do not look
    at the flag of [preprocessar_dados]: when no courier survives the
    cleaning they still build a model, over at least one order and no
    courier; that model has no feasible point, and (the solver reporting
    Optimal only with a feasible point) the solve step returns False and
    leaves no result. *)
Theorem exemplo_completo_sem_entregador (solver : Solver) (ob : OtimizadorBruto)
    (Hsem : entregadores_limpos ob = [])
    (Hsv : solver_viavel solver
             (construir_modelo (snd (preprocessar_dados ob)))) :
  fst (preprocessar_dados ob) = false /\
  (forall v, ~ viavel (construir_modelo (snd (preprocessar_dados ob))) v) /\
  exists ot, exemplo_completo_nucleo solver ob = Retorna false ot /\
             resultado ot = None.
Proof.
  destruct (preprocessar_dados_retorno ob) as (Hp & He & _ & Hf).
  assert (Hinv : forall v, ~ viavel (construir_modelo (snd (preprocessar_dados ob))) v).
  { intros v. apply sem_entregador_inviavel; [|exact Hp]. now rewrite He. }
  split; [|split; [exact Hinv|]].
  - destruct (fst (preprocessar_dados ob)); [|reflexivity].
    exfalso. apply (proj1 Hf eq_refl). exact Hsem.
  - unfold exemplo_completo_nucleo.
    assert (Hno : fst (solver (construir_modelo (snd (preprocessar_dados ob))))
                  <> LpStatusOptimal).
    { intros Ho. exact (Hinv _ (proj1 (Hsv Ho))). }
    rewrite (resolver_modelo_nao_otimo solver
               (criar_modelo (snd (preprocessar_dados ob))) eq_refl Hno).
    eexists. split; [reflexivity|].
    cbn [com_sol resultado criar_modelo].
    unfold preprocessar_dados.
    repeat match goal with
           | |- context [if ?c then _ else _] => destruct c
           end; reflexivity.
Qed.

Lemma exemplo_completo_sem_entregador_witness :
  entregadores_limpos ob_vazio = [] /\
  exists ot, exemplo_completo_nucleo solver_inviavel ob_vazio = Retorna false ot /\
             resultado ot = None.
Proof.
  assert (Hsem : entregadores_limpos ob_vazio = []) by reflexivity.
  split; [exact Hsem|].
  apply (@exemplo_completo_sem_entregador solver_inviavel ob_vazio Hsem).
  intros H. discriminate H.
Defined.

Lemma resolver_modelo_com_pedidos solver st :
  pedidos st <> [] ->
  (fst (solver (construir_modelo st)) = LpStatusOptimal ->
   solver_valora solver (construir_modelo st) ->
   exists ot r, resolver_modelo solver (criar_modelo st) = Retorna true ot /\
                resultado ot = Some r /\
                alocacoes r = extrair_alocacoes
                                (com_sol (criar_modelo st)
                                         (snd (solver (construir_modelo st)))) /\
                num_pedidos_alocados r = List.length (alocacoes r) /\
                num_pedidos_total r = List.length (pedidos st)) /\
  (fst (solver (construir_modelo st)) <> LpStatusOptimal ->
   resolver_modelo solver (criar_modelo st) =
   Retorna false (com_sol (criar_modelo st) (snd (solver (construir_modelo st))))).
Proof.
  intros HN. split.
  - intros Hopt Hval.
    rewrite (@resolver_modelo_otimo_extrai solver st Hopt (Hval Hopt) HN).
    eexists. eexists. split; [reflexivity|].
    cbn [com_resultado resultado]. split; [reflexivity|].
    unfold solucao_extraida.
    cbn [alocacoes num_pedidos_alocados num_pedidos_total]. repeat split.
  - intros Hno. now apply resolver_modelo_nao_otimo.
Qed.

(** X8. Steps 2 to 4 of [main], when every cost of the model is a
    finite number (so that [criar_modelo] builds it).  [main] stops at
    the preprocessing exactly when no courier survives the cleaning;
    with a courier, it stops at the unsolved model exactly when the
    status is not Optimal, reaches the export exactly when the status is
    Optimal and the objective has a value, and ends in its exception
    handler, on the [TypeError] of the extractor's report, exactly when
    the status is Optimal and the objective has no value.  In the last
    two cases [self.resultado] is set. *)
Theorem main_etapas (solver : Solver) (ob : OtimizadorBruto)
    (Hfin : custos_finitos (snd (preprocessar_dados ob))) :
  let m := construir_modelo (snd (preprocessar_dados ob)) in
  let objetivo := valor_do_objetivo m (snd (solver m)) in
  (fst (main_nucleo solver ob) = ErroNoPreprocessamento <->
   entregadores_limpos ob = []) /\
  (fst (main_nucleo solver ob) = ProntoParaExportar <->
   entregadores_limpos ob <> [] /\ fst (solver m) = LpStatusOptimal /\
   objetivo <> None) /\
  (fst (main_nucleo solver ob) = ModeloNaoResolvido <->
   entregadores_limpos ob <> [] /\ fst (solver m) <> LpStatusOptimal) /\
  (forall e, fst (main_nucleo solver ob) = ExcecaoCapturada e <->
     e = TypeError /\ entregadores_limpos ob <> [] /\
     fst (solver m) = LpStatusOptimal /\ objetivo = None) /\
  (fst (main_nucleo solver ob) = ProntoParaExportar \/
   fst (main_nucleo solver ob) = ExcecaoCapturada TypeError ->
   resultado (snd (main_nucleo solver ob)) <> None).
Proof.
  intros m objetivo.
  destruct (preprocessar_dados_retorno ob) as (Hp & _ & _ & Hf).
  unfold main_nucleo.
  destruct (preprocessar_dados ob) as [ok ot] eqn:E. cbn [fst snd] in *.
  destruct ok; cbn [negb].
  - assert (Hent : entregadores_limpos ob <> []) by (now apply Hf).
    rewrite (resolver_modelo_criar_casos solver ot). fold m.
    assert (E0 : Nat.eqb (List.length (pedidos ot)) 0 = false).
    { apply Nat.eqb_neq. intros H0. apply length_zero_iff_nil in H0. contradiction. }
    rewrite E0. fold objetivo.
    destruct (LpStatus_eqb (fst (solver m)) LpStatusOptimal) eqn:Es.
    + apply LpStatus_eqb_otimo in Es.
      destruct objetivo as [o|] eqn:Eo; cbn [fst snd com_resultado resultado].
      * split; [split; [discriminate|contradiction]|].
        split; [split; [intros _; repeat split; [exact Hent|exact Es|discriminate]
                       |reflexivity]|].
        split; [split; [discriminate|intros [_ Hc]; contradiction]|].
        split; [intros e; split; [discriminate|intros (_ & _ & _ & Hc); discriminate]|].
        intros _. discriminate.
      * split; [split; [discriminate|contradiction]|].
        split; [split; [discriminate|intros (_ & _ & Hc); now contradiction Hc]|].
        split; [split; [discriminate|intros [_ Hc]; contradiction]|].
        split; [intros e; split;
                [intros H; injection H as <-; now repeat split
                |intros (-> & _); reflexivity]|].
        intros _. discriminate.
    + assert (Hno : fst (solver m) <> LpStatusOptimal)
        by (intros Ho; apply LpStatus_eqb_otimo in Ho; congruence).
      cbn [fst snd].
      split; [split; [discriminate|contradiction]|].
      split; [split; [discriminate|intros (_ & Hc & _); contradiction]|].
      split; [split; [intros _; now split|reflexivity]|].
      split; [intros e; split; [discriminate|intros (_ & _ & Hc & _); contradiction]|].
      intros [Hc|Hc]; discriminate.
  - assert (Hent : entregadores_limpos ob = []).
    { destruct (entregadores_limpos ob); [reflexivity|].
      assert (false = true) by (apply Hf; discriminate). discriminate. }
    cbn [fst snd].
    split; [split; [intros _; exact Hent|reflexivity]|].
    split; [split; [discriminate|intros (Hc & _); contradiction]|].
    split; [split; [discriminate|intros (Hc & _); contradiction]|].
    split; [intros e; split; [discriminate|intros (_ & Hc & _); contradiction]|].
    intros [Hc|Hc]; discriminate.
Qed.

Lemma main_etapas_witness :
  fst (main_nucleo (solver_forca_bruta (snd (preprocessar_dados ob_so_entregador)))
                   ob_so_entregador) = ProntoParaExportar /\
  fst (main_nucleo solver_sempre_otimo ob_so_entregador) = ExcecaoCapturada TypeError.
Proof.
  assert (Hfin : custos_finitos (snd (preprocessar_dados ob_so_entregador))).
  { apply custos_finitos_velocidades. repeat constructor. vm_compute. discriminate. }
  split.
  - apply (proj1 (proj2 (@main_etapas
                    (solver_forca_bruta (snd (preprocessar_dados ob_so_entregador)))
                    ob_so_entregador Hfin))).
    split; [discriminate|]. split; [vm_compute; reflexivity|].
    vm_compute. discriminate.
  - apply (proj1 (proj2 (proj2 (proj2
             (@main_etapas solver_sempre_otimo ob_so_entregador Hfin)))) TypeError).
    split; [reflexivity|]. split; [discriminate|].
    split; [reflexivity|]. vm_compute. reflexivity.
Defined.

(** X9. When the cleaning removes every order but leaves a courier, and
    the solve is reported Optimal (with a feasible point), [main] reaches
    the export with a Solution over the 5 synthetic orders: 5 orders in
    total, 5 allocated, each of them in exactly one entry. *)
Theorem main_com_pedidos_de_exemplo (solver : Solver) (ob : OtimizadorBruto)
    (Hvazio : pedidos_limpos ob = [])
    (Hent : entregadores_limpos ob <> [])
    (Hopt : fst (solver (construir_modelo (snd (preprocessar_dados ob))))
            = LpStatusOptimal)
    (Hsv : solver_viavel solver (construir_modelo (snd (preprocessar_dados ob)))) :
  exists ot r,
    main_nucleo solver ob = (ProntoParaExportar, ot) /\
    resultado ot = Some r /\
    num_pedidos_total r = 5%nat /\ num_pedidos_alocados r = 5%nat /\
    (forall j, (j < 5)%nat -> ocorrencias_pedido j (alocacoes r) = 1%nat) /\
    (forall a, In a (alocacoes r) ->
       a_pedido_id a = pedido_id (pedido_exemplo (a_pedido_idx a))).
Proof.
  destruct (preprocessar_sem_pedidos ob Hvazio) as [Hp Hf].
  destruct (preprocessar_dados_retorno ob) as (Hne & _ & _ & Hok).
  assert (Hflag : fst (preprocessar_dados ob) = true) by (now apply Hok).
  destruct (@resolver_modelo_com_pedidos solver _ Hne) as [Hsim _].
  destruct (Hsim Hopt (fun H => proj2 (Hsv H)))
    as (ot & r & Hr & Hres & Hal & Hna & Hnt).
  exists ot, r. unfold main_nucleo.
  destruct (preprocessar_dados ob) as [ok st] eqn:E. cbn [fst snd] in *.
  subst ok. rewrite Hflag. cbn [negb]. rewrite Hr.
  split; [reflexivity|]. split; [exact Hres|].
  pose proof (proj1 (Hsv Hopt)) as Hv.
  pose proof (length_extrair_alocacoes Hv) as Hlen.
  rewrite Hp in Hnt, Hlen. rewrite <- Hal in Hlen.
  split; [exact Hnt|]. split; [now rewrite Hna|]. split.
  - intros j Hj. rewrite Hal. apply ocorrencias_extrair_alocacoes; [exact Hv|].
    rewrite Hp. exact Hj.
  - intros a Ha. rewrite Hal in Ha.
    unfold extrair_alocacoes in Ha.
    apply in_flat_map in Ha. destruct Ha as (i & _ & Ha).
    apply in_flat_map in Ha. destruct Ha as (j & Hj & Ha).
    apply in_seq in Hj.
    match type of Ha with In _ (if ?c then _ else _) => destruct c end;
      [|contradiction].
    destruct Ha as [<-|[]].
    cbn [alocacao_de a_pedido_id a_pedido_idx com_sol criar_modelo pedidos] in *.
    rewrite Hp in *. unfold iloc_ped, dados_exemplo.
    change pedido_nulo with pedido_nulo.
    cbn [List.length] in Hj.
    do 5 (destruct j as [|j]; [reflexivity|]). simpl in Hj. lia.
Qed.

Lemma main_com_pedidos_de_exemplo_witness :
  pedidos_limpos ob_so_entregador = [] /\
  exists ot r,
    main_nucleo (solver_forca_bruta (snd (preprocessar_dados ob_so_entregador)))
                ob_so_entregador = (ProntoParaExportar, ot) /\
    resultado ot = Some r /\ num_pedidos_alocados r = 5%nat.
Proof.
  assert (Hvazio : pedidos_limpos ob_so_entregador = []) by reflexivity.
  split; [exact Hvazio|].
  destruct (@main_com_pedidos_de_exemplo
              (solver_forca_bruta (snd (preprocessar_dados ob_so_entregador)))
              ob_so_entregador Hvazio)
    as (ot & r & Hm & Hres & _ & Ha & _).
  - discriminate.
  - vm_compute. reflexivity.
  - apply solver_por_candidatos_viavel.
  - exists ot, r. repeat split; assumption.
Defined.

(** * The analyzer: sweep, scenarios and deadline variant *)

Lemma eh_otimo_true solver ot c :
  eh_otimo solver ot c = true <->
  fst (solver (construir_modelo (com_capacidade ot c))) = LpStatusOptimal.
Proof.
  unfold eh_otimo.
  destruct (fst (solver (construir_modelo (com_capacidade ot c)))); simpl;
    split; congruence.
Qed.

Lemma eh_otimo_false solver ot c :
  eh_otimo solver ot c = false <->
  fst (solver (construir_modelo (com_capacidade ot c))) <> LpStatusOptimal.
Proof.
  rewrite <- eh_otimo_true. destruct (eh_otimo solver ot c); split; congruence.
Qed.

(** One round of the sweep over a non-empty order set. *)
Lemma passo_sensibilidade_efeito solver ot0 cap ot res :
  pedidos ot0 <> [] ->
  Forall2 mesmos_outros_campos (entregadores ot0) (entregadores ot) ->
  pedidos ot = pedidos ot0 ->
  let m := construir_modelo (com_capacidade ot0 cap) in
  exists ot',
    modelo ot' = Some m /\
    if eh_otimo solver ot0 cap then
      match valor_do_objetivo m (snd (solver m)) with
      | Some _ =>
          exists r, passo_sensibilidade solver cap ot res
                    = Retorna (res ++ [linha_de cap r]) ot' /\
                    resultado ot' = Some r
      | None => passo_sensibilidade solver cap ot res = Levanta TypeError ot'
      end
    else passo_sensibilidade solver cap ot res = Retorna res ot' /\
         resultado ot' = resultado ot.
Proof.
  intros HN He Hp m. unfold passo_sensibilidade.
  set (otc := com_entregadores ot (broadcast_capacidade cap (entregadores ot))).
  assert (Em : construir_modelo otc = m).
  { apply construir_modelo_ext.
    - unfold com_capacidade. simpl. symmetry. now apply broadcast_mesmos.
    - exact Hp. }
  pose proof (resolver_modelo_criar_casos solver otc) as Hc. cbv zeta in Hc.
  rewrite Hc, Em. clear Hc.
  change (pedidos otc) with (pedidos ot). rewrite Hp.
  assert (E0 : Nat.eqb (List.length (pedidos ot0)) 0 = false).
  { apply Nat.eqb_neq. intros H0. apply length_zero_iff_nil in H0. contradiction. }
  rewrite E0.
  assert (Hm : modelo (criar_modelo otc) = Some m)
    by (rewrite modelo_criar_modelo; now rewrite Em).
  destruct (eh_otimo solver ot0 cap) eqn:E.
  - apply eh_otimo_true in E. fold m in E.
    rewrite (proj2 (LpStatus_eqb_otimo _) E).
    destruct (valor_do_objetivo m (snd (solver m))); cbn [bind com_resultado resultado].
    + eexists. split; [|eexists; split; reflexivity]. exact Hm.
    + eexists. split; [|reflexivity]. exact Hm.
  - apply eh_otimo_false in E. fold m in E.
    destruct (LpStatus_eqb (fst (solver m)) LpStatusOptimal) eqn:Es;
      [apply LpStatus_eqb_otimo in Es; contradiction|].
    cbn [bind]. eexists. split; [|split; reflexivity]. exact Hm.
Qed.

(** The loop of the sweep over a non-empty order set: either every
    Optimal solve came with a value for the objective and the loop ends
    normally, or the report of the extractor raised [TypeError] at the
    first capacity whose Optimal solve left the objective without value. *)
Lemma laco_sensibilidade_efeito solver ot0 caps :
  pedidos ot0 <> [] ->
  forall ot res,
  Forall2 mesmos_outros_campos (entregadores ot0) (entregadores ot) ->
  pedidos ot = pedidos ot0 ->
  (exists res' ot',
    laco_sensibilidade solver caps ot res = Retorna (res ++ res') ot' /\
    map ls_capacidade res' = filter (eh_otimo solver ot0) caps /\
    match rev res' with
    | [] => resultado ot' = resultado ot
    | l :: _ => exists r, resultado ot' = Some r /\ l = linha_de (ls_capacidade l) r
    end /\
    modelo ot' = match caps with
                 | [] => modelo ot
                 | _ => Some (construir_modelo (com_capacidade ot0 (last caps 0%Z)))
                 end) \/
  (exists ot' cap,
    laco_sensibilidade solver caps ot res = Levanta TypeError ot' /\
    In cap caps /\ eh_otimo solver ot0 cap = true /\
    valor_do_objetivo (construir_modelo (com_capacidade ot0 cap))
      (snd (solver (construir_modelo (com_capacidade ot0 cap)))) = None).
Proof.
  intros HN. induction caps as [|cap caps IH]; intros ot res He Hp.
  - left. exists [], ot. cbn [laco_sensibilidade filter map rev]. rewrite app_nil_r.
    repeat split; reflexivity.
  - cbn [laco_sensibilidade filter].
    destruct (@passo_sensibilidade_efeito solver ot0 cap ot res HN He Hp)
      as (ot1 & Hm1 & Hstep).
    pose proof (entregadores_passo_sensibilidade solver cap ot res) as [He1 Hp1].
    assert (He' : Forall2 mesmos_outros_campos (entregadores ot0)
                    (broadcast_capacidade cap (entregadores ot))).
    { eapply Forall2_mesmos_trans; [exact He|]. apply Forall2_mesmos_broadcast. }
    destruct (eh_otimo solver ot0 cap) eqn:Eo.
    + destruct (valor_do_objetivo (construir_modelo (com_capacidade ot0 cap))
                  (snd (solver (construir_modelo (com_capacidade ot0 cap)))))
        as [o|] eqn:Ev.
      * destruct Hstep as (r & Hstep & Hr). rewrite Hstep in He1, Hp1 |- *.
        cbn [estado_final bind] in *.
        destruct (IH ot1 (res ++ [linha_de cap r]))
          as [(res2 & ot' & Hl & Hc & Hlast & Hmod)|(ot' & c & Hl & Hin & Hc & Hv)];
          [now rewrite He1|congruence| |].
        -- left. exists (linha_de cap r :: res2), ot'.
           split; [rewrite Hl, <- app_assoc; reflexivity|].
           split; [cbn [map linha_de ls_capacidade]; now rewrite Hc|].
           split.
           ++ cbn [rev]. destruct (rev res2) as [|l ls]; cbn [app].
              ** exists r. split; [congruence|reflexivity].
              ** exact Hlast.
           ++ rewrite Hmod. destruct caps; [exact Hm1|reflexivity].
        -- right. exists ot', c. split; [exact Hl|]. split; [now right|].
           split; assumption.
      * right. rewrite Hstep. cbn [bind]. exists ot1, cap.
        split; [reflexivity|]. split; [now left|]. split; assumption.
    + destruct Hstep as (Hstep & Hr). rewrite Hstep in He1, Hp1 |- *.
      cbn [estado_final bind] in *.
      destruct (IH ot1 res)
        as [(res2 & ot' & Hl & Hc & Hlast & Hmod)|(ot' & c & Hl & Hin & Hc & Hv)];
        [now rewrite He1|congruence| |].
      * left. exists res2, ot'. split; [exact Hl|]. split; [exact Hc|]. split.
        -- destruct (rev res2); [congruence|exact Hlast].
        -- rewrite Hmod. destruct caps; [exact Hm1|reflexivity].
      * right. exists ot', c. split; [exact Hl|]. split; [now right|].
        split; assumption.
Qed.

Lemma solver_viavel_valora solver m : solver_viavel solver m -> solver_valora solver m.
Proof. intros H Ho. exact (proj2 (H Ho)). Qed.

Lemma solver_valora_objetivo solver m :
  solver_valora solver m -> fst (solver m) = LpStatusOptimal ->
  valor_do_objetivo m (snd (solver m)) <> None.
Proof.
  intros H Ho. destruct (valor_do_objetivo_ok m (snd (solver m)) (H Ho)) as (o & -> & _).
  discriminate.
Qed.

Lemma last_py_range a b : (a <= b)%Z -> last (py_range a b) 0%Z = b.
Proof.
  intros H. unfold py_range.
  replace (Z.to_nat (b + 1 - a)) with (S (Z.to_nat (b - a))) by lia.
  rewrite seq_S, map_app. cbn [map]. rewrite last_last. cbn [Nat.add]. lia.
Qed.

Lemma py_range_vazio a b : (b < a)%Z -> py_range a b = [].
Proof.
  intros H. unfold py_range.
  replace (Z.to_nat (b + 1 - a)) with 0%nat by lia. reflexivity.
Qed.

(** X10. The capacity sweep over a non-empty order set whose costs are
    all finite numbers (so that every [criar_modelo] of the sweep builds
    its model), with a solver that gives every variable a value whenever
    it reports Optimal (so that the report of the extractor prints): the
    sweep returns the table it stores, and the capacity column of the
    table lists, in increasing order, exactly the capacities of the
    range whose solve was reported Optimal. *)
Theorem varredura_tabela (solver : Solver) (rg : Z * Z) (an : Analisador)
    (HN : pedidos (otimizador an) <> [])
    (Hfin : custos_finitos (otimizador an))
    (Hval : forall c,
        solver_valora solver (construir_modelo (com_capacidade (otimizador an) c))) :
  exists res an',
    analise_sensibilidade_capacidade solver rg an = Retorna res an' /\
    map ls_capacidade res =
      filter (eh_otimo solver (otimizador an)) (py_range (fst rg) (snd rg)) /\
    sensibilidade_capacidade an' = Some res /\
    (List.length res <= Z.to_nat (snd rg + 1 - fst rg))%nat.
Proof.
  unfold analise_sensibilidade_capacidade.
  destruct (@laco_sensibilidade_efeito solver (otimizador an)
              (py_range (fst rg) (snd rg)) HN (otimizador an) []
              (Forall2_mesmos_refl _) eq_refl)
    as [(res & ot' & Hl & Hc & _ & _)|(ot' & c & _ & _ & Ho & Hv)].
  - rewrite Hl. cbn [app]. eexists. eexists. split; [reflexivity|].
    split; [exact Hc|]. split; [reflexivity|].
    rewrite <- (length_map ls_capacidade), Hc.
    etransitivity; [apply filter_length_le|].
    unfold py_range. now rewrite length_map, length_seq.
  - apply eh_otimo_true in Ho.
    contradiction (solver_valora_objetivo (Hval c) Ho).
Qed.

Lemma varredura_tabela_witness :
  exists res an',
    analise_sensibilidade_capacidade (solver_forca_bruta ot_dois_por_dois) (0, 2)%Z
      (analisador_de ot_dois_por_dois) = Retorna res an' /\
    map ls_capacidade res = [1; 2]%Z.
Proof.
  destruct (@varredura_tabela (solver_forca_bruta ot_dois_por_dois) (0, 2)%Z
              (analisador_de ot_dois_por_dois)) as (res & an' & H & Hc & _).
  - discriminate.
  - apply custos_finitos_velocidades. repeat constructor; vm_compute; discriminate.
  - intros c. apply solver_viavel_valora. apply solver_por_candidatos_viavel.
  - exists res, an'. split; [exact H|]. rewrite Hc. vm_compute. reflexivity.
Defined.

(** X11. What the sweep leaves in the optimizer besides the restored
    capacities: [self.resultado] is the Solution of the last row of the
    table (the previous one when the table is empty), and [self.modelo]
    is the model of the last capacity of the range, not the model of the
    restored capacities. *)
Theorem varredura_deixa_o_ultimo_resultado (solver : Solver) (rg : Z * Z)
    (an : Analisador) (res : list LinhaSensibilidade) (an' : Analisador)
    (HN : pedidos (otimizador an) <> [])
    (Hr : analise_sensibilidade_capacidade solver rg an = Retorna res an') :
  (res = [] -> resultado (otimizador an') = resultado (otimizador an)) /\
  (forall res0 l, res = res0 ++ [l] ->
     exists r, resultado (otimizador an') = Some r /\
               l = linha_de (ls_capacidade l) r) /\
  ((fst rg <= snd rg)%Z ->
   modelo (otimizador an') =
     Some (construir_modelo (com_capacidade (otimizador an) (snd rg)))) /\
  ((snd rg < fst rg)%Z -> modelo (otimizador an') = modelo (otimizador an)).
Proof.
  unfold analise_sensibilidade_capacidade in Hr.
  destruct (@laco_sensibilidade_efeito solver (otimizador an)
              (py_range (fst rg) (snd rg)) HN (otimizador an) []
              (Forall2_mesmos_refl _) eq_refl)
    as [(res1 & ot' & Hl & _ & Hlast & Hmod)|(ot' & c & Hl & _)];
    [|rewrite Hl in Hr; discriminate].
  rewrite Hl in Hr. cbn [app] in Hr. injection Hr as <- <-.
  cbn [otimizador com_entregadores resultado modelo].
  split; [|split; [|split]].
  - intros ->. exact Hlast.
  - intros res0 l ->. rewrite rev_app_distr in Hlast. exact Hlast.
  - intros Hle. rewrite Hmod. rewrite (last_py_range Hle).
    destruct (py_range (fst rg) (snd rg)) eqn:E; [|reflexivity].
    apply (f_equal (@List.length Z)) in E. unfold py_range in E.
    rewrite length_map, length_seq in E. simpl in E. lia.
  - intros Hlt. rewrite Hmod, (py_range_vazio Hlt). reflexivity.
Qed.

Lemma varredura_deixa_o_ultimo_resultado_witness :
  exists res an' r,
    analise_sensibilidade_capacidade (solver_forca_bruta ot_dois_por_dois) (1, 2)%Z
      (analisador_de ot_dois_por_dois) = Retorna res an' /\
    resultado (otimizador an') = Some r /\
    Qred (tempo_total r) = 40 /\
    map ent_capacidade (entregadores (otimizador an')) = [2; 1]%Z /\
    modelo (otimizador an') =
      Some (construir_modelo (com_capacidade ot_dois_por_dois 2)).
Proof.
  destruct (analise_sensibilidade_capacidade (solver_forca_bruta ot_dois_por_dois)
              (1, 2)%Z (analisador_de ot_dois_por_dois)) as [res an'|e an'] eqn:E;
    [|vm_compute in E; discriminate].
  destruct (@varredura_deixa_o_ultimo_resultado
              (solver_forca_bruta ot_dois_por_dois) (1, 2)%Z
              (analisador_de ot_dois_por_dois) res an')
    as (_ & Hlast & Hmod & _); [discriminate|exact E|].
  assert (Hres : exists res0 l, res = res0 ++ [l]).
  { vm_compute in E. injection E as <- _. eexists [_]. eexists. reflexivity. }
  destruct Hres as (res0 & l & Hres).
  destruct (Hlast res0 l Hres) as (r & Hr & Hlr).
  exists res, an', r. split; [reflexivity|]. split; [exact Hr|].
  split; [|split].
  - vm_compute in E. injection E as _ <-. vm_compute in Hr.
    injection Hr as <-. reflexivity.
  - vm_compute in E. injection E as _ <-. reflexivity.
  - apply Hmod. simpl. lia.
Defined.

(** One round of the sweep when there is no order and no Solution yet:
    an Optimal status makes [resolver_modelo] return [True] with
    [self.resultado] still [None]. *)
Lemma passo_sensibilidade_sem_pedidos solver ot0 cap ot res :
  Forall2 mesmos_outros_campos (entregadores ot0) (entregadores ot) ->
  pedidos ot0 = [] -> pedidos ot = [] -> resultado ot = None ->
  exists ot1,
    entregadores ot1 = broadcast_capacidade cap (entregadores ot0) /\
    pedidos ot1 = [] /\ resultado ot1 = None /\
    passo_sensibilidade solver cap ot res =
      if eh_otimo solver ot0 cap then Levanta TypeError ot1 else Retorna res ot1.
Proof.
  intros He Hp0 Hp Hr. unfold passo_sensibilidade.
  set (ot1 := criar_modelo (com_entregadores ot
                              (broadcast_capacidade cap (entregadores ot)))).
  assert (Em : construir_modelo
                 (com_entregadores ot (broadcast_capacidade cap (entregadores ot)))
               = construir_modelo (com_capacidade ot0 cap)).
  { apply construir_modelo_ext.
    - unfold com_capacidade. simpl. symmetry. now apply broadcast_mesmos.
    - simpl. congruence. }
  set (m := construir_modelo (com_capacidade ot0 cap)) in *.
  assert (Hm : modelo ot1 = Some m) by (unfold ot1; simpl; now rewrite Em).
  exists (com_sol ot1 (snd (solver m))).
  split; [simpl; symmetry; now apply broadcast_mesmos|].
  split; [exact Hp|]. split; [exact Hr|].
  destruct (eh_otimo solver ot0 cap) eqn:E.
  - apply eh_otimo_true in E. fold m in E.
    rewrite (resolver_modelo_otimo solver ot1 Hm E).
    unfold extrair_resultado.
    change (pedidos (com_sol ot1 (snd (solver m)))) with (pedidos ot).
    rewrite Hp. cbn [List.length Nat.eqb bind].
    change (resultado (com_sol ot1 (snd (solver m)))) with (resultado ot).
    now rewrite Hr.
  - apply eh_otimo_false in E. fold m in E.
    rewrite (resolver_modelo_nao_otimo solver ot1 Hm E). reflexivity.
Qed.

Lemma laco_sensibilidade_sem_pedidos solver ot0 caps :
  pedidos ot0 = [] ->
  forall ot res,
  Forall2 mesmos_outros_campos (entregadores ot0) (entregadores ot) ->
  pedidos ot = [] -> resultado ot = None ->
  match filter (eh_otimo solver ot0) caps with
  | [] => exists ot', laco_sensibilidade solver caps ot res = Retorna res ot'
  | c :: _ =>
      exists ot', laco_sensibilidade solver caps ot res = Levanta TypeError ot' /\
                  entregadores ot' = broadcast_capacidade c (entregadores ot0)
  end.
Proof.
  intros Hp0. induction caps as [|cap caps IH]; intros ot res He Hp Hr.
  - exists ot. reflexivity.
  - cbn [laco_sensibilidade filter].
    destruct (@passo_sensibilidade_sem_pedidos solver ot0 cap ot res He Hp0 Hp Hr)
      as (ot1 & He1 & Hp1 & Hr1 & Hstep).
    rewrite Hstep. destruct (eh_otimo solver ot0 cap); cbn [bind].
    + exists ot1. split; [reflexivity|exact He1].
    + apply IH; [|exact Hp1|exact Hr1].
      rewrite He1. apply Forall2_mesmos_broadcast.
Qed.

(** X12. A sweep started on an optimizer without orders and without a
    Solution raises a [TypeError] at the first capacity of the range
    whose solve is reported Optimal ([self.resultado] is still [None]
    there); the capacities are then left overridden with that capacity
    and no table is stored.  When no capacity of the range is reported
    Optimal the sweep returns the empty table. *)
Theorem varredura_sem_pedidos (solver : Solver) (rg : Z * Z) (an : Analisador)
    (Hp : pedidos (otimizador an) = [])
    (Hr : resultado (otimizador an) = None) :
  match filter (eh_otimo solver (otimizador an)) (py_range (fst rg) (snd rg)) with
  | [] => exists an', analise_sensibilidade_capacidade solver rg an = Retorna [] an'
  | c :: _ =>
      exists an',
        analise_sensibilidade_capacidade solver rg an = Levanta TypeError an' /\
        entregadores (otimizador an') =
          broadcast_capacidade c (entregadores (otimizador an)) /\
        sensibilidade_capacidade an' = sensibilidade_capacidade an
  end.
Proof.
  unfold analise_sensibilidade_capacidade.
  pose proof (@laco_sensibilidade_sem_pedidos solver (otimizador an)
                (py_range (fst rg) (snd rg)) Hp (otimizador an) []
                (Forall2_mesmos_refl _) Hp Hr) as H.
  destruct (filter (eh_otimo solver (otimizador an)) (py_range (fst rg) (snd rg)))
    as [|c resto].
  - destruct H as (ot' & ->). eexists. reflexivity.
  - destruct H as (ot' & -> & He). eexists. split; [reflexivity|].
    split; [exact He|reflexivity].
Qed.

Lemma varredura_sem_pedidos_witness :
  exists an',
    analise_sensibilidade_capacidade solver_sempre_otimo (3, 4)%Z
      (analisador_de ot_sem_pedidos) = Levanta TypeError an' /\
    map ent_capacidade (entregadores (otimizador an')) = [3; 3]%Z.
Proof.
  pose proof (@varredura_sem_pedidos solver_sempre_otimo (3, 4)%Z
                (analisador_de ot_sem_pedidos) eq_refl eq_refl) as H.
  change (filter (eh_otimo solver_sempre_otimo (otimizador (analisador_de ot_sem_pedidos)))
            (py_range (fst (3, 4)%Z) (snd (3, 4)%Z))) with [3; 4]%Z in H.
  destruct H as (an' & H & He & _).
  exists an'. split; [exact H|]. rewrite He. reflexivity.
Defined.

(** ** The deadline variant beside the base model *)

Lemma map_flat_map_comp {A B C} (f : B -> C) (g : A -> list B) (l : list A) :
  map f (flat_map g l) = flat_map (fun x => map f (g x)) l.
Proof.
  induction l as [|a l IH]; simpl; [reflexivity|]. now rewrite map_app, IH.
Qed.

Lemma flat_map_igual {A B} (f g : A -> list B) (l : list A) :
  (forall a, In a l -> f a = g a) -> flat_map f l = flat_map g l.
Proof.
  induction l as [|a l IH]; intros H; simpl; [reflexivity|].
  rewrite (H a) by now left. rewrite IH; [reflexivity|].
  intros b Hb. apply H. now right.
Qed.

Lemma em_t_vars_com_sol st s j :
  (j < List.length (pedidos st))%nat ->
  em_t_vars (com_sol (criar_modelo st) s) j = true.
Proof.
  intros Hj. unfold em_t_vars; cbn [com_sol criar_modelo t_vars].
  apply existsb_exists. exists j. split; [apply in_seq; lia|apply Nat.eqb_refl].
Qed.

(** The variant's own extraction loop produces the entries the base
    extractor produces from the same values. *)
Lemma alocacoes_restritas_base ot s :
  alocacoes_restritas ot s =
  map restrita_de (extrair_alocacoes (com_sol (criar_modelo ot) s)).
Proof.
  unfold alocacoes_restritas, extrair_alocacoes.
  change (entregadores (com_sol (criar_modelo ot) s)) with (entregadores ot).
  change (pedidos (com_sol (criar_modelo ot) s)) with (pedidos ot).
  rewrite map_flat_map_comp. apply flat_map_igual. intros i Hi.
  rewrite map_flat_map_comp. apply flat_map_igual. intros j Hj.
  rewrite (@em_x_vars_criar_modelo ot s i j Hi Hj). cbn [andb].
  change (sol (com_sol (criar_modelo ot) s)) with s.
  destruct (value_eq_1 s (x_ i j)); [|reflexivity].
  cbn [map]. unfold restrita_de, alocacao_de.
  cbn [a_entregador_id a_pedido_id a_prioridade a_tempo_entrega].
  apply in_seq in Hj. rewrite em_t_vars_com_sol by lia. reflexivity.
Qed.

Lemma ocorrencias_count_occ j (l : list Alocacao) :
  ocorrencias_pedido j l = count_occ Nat.eq_dec (map a_pedido_idx l) j.
Proof.
  unfold ocorrencias_pedido. induction l as [|a l IH]; [reflexivity|].
  cbn [filter map count_occ].
  destruct (Nat.eq_dec (a_pedido_idx a) j) as [E|E].
  - apply Nat.eqb_eq in E. rewrite E. cbn [List.length]. now rewrite IH.
  - apply Nat.eqb_neq in E. rewrite E. exact IH.
Qed.

(** The orders of the entries extracted from a feasible point are the
    orders, each once. *)
Lemma pedidos_extraidos_permutacao st s :
  viavel (construir_modelo st) (val_de s) ->
  Permutation (map a_pedido_idx (extrair_alocacoes (com_sol (criar_modelo st) s)))
              (seq 0 (List.length (pedidos st))).
Proof.
  intros Hv. apply NoDup_Permutation_bis.
  - apply (NoDup_count_occ Nat.eq_dec). intros j.
    rewrite <- ocorrencias_count_occ.
    destruct (Nat.lt_ge_cases j (List.length (pedidos st))) as [Hj|Hj].
    + now rewrite (ocorrencias_extrair_alocacoes Hv Hj).
    + unfold ocorrencias_pedido. rewrite length_filter_nenhum; [lia|].
      intros a Ha. apply pedido_idx_extrair_alocacoes in Ha.
      change (pedidos (com_sol (criar_modelo st) s)) with (pedidos st) in Ha.
      apply Nat.eqb_neq. lia.
  - rewrite length_map, length_seq, (length_extrair_alocacoes Hv). lia.
  - intros j Hj. apply in_map_iff in Hj. destruct Hj as (a & <- & Ha).
    apply pedido_idx_extrair_alocacoes in Ha. apply in_seq.
    change (pedidos (com_sol (criar_modelo st) s)) with (pedidos st) in Ha. lia.
Qed.

Lemma in_extrair_alocacoes_com_sol st s a :
  In a (extrair_alocacoes (com_sol (criar_modelo st) s)) ->
  a_pedido_id a = pedido_id (iloc_ped (pedidos st) (a_pedido_idx a)) /\
  a_tempo_entrega a = s (T_ (a_pedido_idx a)).
Proof.
  unfold extrair_alocacoes. intros H.
  apply in_flat_map in H. destruct H as (i & Hi & H).
  apply in_flat_map in H. destruct H as (j & Hj & H).
  apply in_seq in Hj.
  change (pedidos (com_sol (criar_modelo st) s)) with (pedidos st) in Hj.
  destruct (em_x_vars _ i j && value_eq_1 _ (x_ i j)); [|contradiction].
  destruct H as [<-|[]]. cbn [alocacao_de a_pedido_id a_pedido_idx a_tempo_entrega].
  rewrite em_t_vars_com_sol by lia. split; reflexivity.
Qed.

Lemma somaQ_permutacao (l l' : list Q) : Permutation l l' -> somaQ l == somaQ l'.
Proof.
  induction 1; cbn [somaQ]; try lra.
Qed.

Lemma soma_valores_some (s : valores) (J : list nat) t :
  soma_valores (map (fun j => s (T_ j)) J) = Some t ->
  t == somaQ (map (fun j => val_de s (T_ j)) J).
Proof.
  revert t. induction J as [|j J IH]; intros t; cbn [map soma_valores somaQ].
  - intros H. injection H as <-. reflexivity.
  - unfold val_de at 1. destruct (s (T_ j)) as [q|]; [|discriminate].
    destruct (soma_valores (map (fun j => s (T_ j)) J)) as [r|]; [|discriminate].
    intros H. injection H as <-. rewrite (IH r eq_refl). reflexivity.
Qed.

Lemma otimizacao_restrita_campos solver te tp an r an' :
  otimizacao_com_restricoes_tempo solver te tp an = Retorna (Some r) an' ->
  let ot := otimizador an in
  let s := snd (solver (construir_modelo_restrito ot te tp)) in
  fst (solver (construir_modelo_restrito ot te tp)) = LpStatusOptimal /\
  rr_alocacoes r = alocacoes_restritas ot s /\
  soma_valores (map (fun j => s (T_ j)) (seq 0 (List.length (pedidos ot))))
    = Some (rr_tempo_total r) /\
  rr_valor_objetivo r =
    value s (objetivo_ponderado ot (seq 0 (List.length (pedidos ot)))) /\
  otimizacao_restrita an' = Some r /\ otimizador an' = otimizador an.
Proof.
  unfold otimizacao_com_restricoes_tempo.
  destruct (solver _) as [status s]. cbn [fst snd].
  destruct status; try discriminate.
  destruct (soma_valores _) as [total|]; [|discriminate].
  intros H. injection H as <- <-. repeat split.
Qed.

Lemma prioridade_extrair_alocacoes_com_sol st s a :
  In a (extrair_alocacoes (com_sol (criar_modelo st) s)) ->
  a_prioridade a = prioridade (iloc_ped (pedidos st) (a_pedido_idx a)).
Proof.
  unfold extrair_alocacoes. intros H.
  apply in_flat_map in H. destruct H as (i & Hi & H).
  apply in_flat_map in H. destruct H as (j & Hj & H).
  destruct (em_x_vars _ i j && value_eq_1 _ (x_ i j)); [|contradiction].
  destruct H as [<-|[]]. reflexivity.
Qed.

Lemma soma_valores_total (s : valores) (J : list nat) :
  (forall j, In j J -> s (T_ j) <> None) ->
  exists t, soma_valores (map (fun j => s (T_ j)) J) = Some t.
Proof.
  induction J as [|j J IH]; intros H; cbn [map soma_valores].
  - now exists 0.
  - destruct (s (T_ j)) as [q|] eqn:E; [|exfalso; apply (H j); [now left|exact E]].
    destruct IH as [t Ht]; [intros k Hk; apply H; now right|].
    rewrite Ht. eexists. reflexivity.
Qed.

(** An Optimal solve whose variables all have a value makes the variant
    return a result. *)
Lemma otimizacao_restrita_otima solver te tp an :
  solver_viavel solver (construir_modelo_restrito (otimizador an) te tp) ->
  fst (solver (construir_modelo_restrito (otimizador an) te tp)) = LpStatusOptimal ->
  exists r an',
    otimizacao_com_restricoes_tempo solver te tp an = Retorna (Some r) an'.
Proof.
  intros Hsv Hopt.
  destruct (Hsv Hopt) as [_ Hvals]. rewrite Forall_forall in Hvals.
  destruct (@soma_valores_total
              (snd (solver (construir_modelo_restrito (otimizador an) te tp)))
              (seq 0 (List.length (pedidos (otimizador an))))) as [t Ht].
  { intros j Hj. apply in_seq in Hj.
    apply (Hvals (var_T j)). apply var_T_no_modelo_restrito. lia. }
  unfold otimizacao_com_restricoes_tempo.
  destruct (solver (construir_modelo_restrito (otimizador an) te tp)) as [status s].
  cbn [fst snd] in *. subst status. rewrite Ht. eexists. eexists. reflexivity.
Qed.

(** C5. The model of the deadline variant is the base model plus, for
    every order of priority 3, [T[j] <= tempo_max_expresso] and, for
    every order of priority 2, [T[j] <= tempo_max_prioritario]; orders of
    priority 1 get no constraint.  When the solve is Optimal the variant
    returns the result it stores, with one entry per order: every order
    has an entry that carries its id, its priority and the value of its
    [T[j]], and that time meets the deadline of the priority.  Hence in
    every result the variant returns the realized times meet these
    deadlines; when the status is not Optimal the variant returns [None],
    with the analyzer unchanged, and raises nothing. *)
Theorem C5_variante_com_prazos (solver : Solver) (te tp : Q) (an : Analisador) :
  let ot := otimizador an in
  let m := construir_modelo_restrito ot te tp in
  let N := List.length (pedidos ot) in
  (forall v, viavel m v <->
             viavel (construir_modelo ot) v /\
             forall j, (j < N)%nat ->
               (prioridade (iloc_ped (pedidos ot) j) = 3%Z -> v (T_ j) <= te) /\
               (prioridade (iloc_ped (pedidos ot) j) = 2%Z -> v (T_ j) <= tp)) /\
  (solver_viavel solver m -> fst (solver m) = LpStatusOptimal ->
   exists r an',
     otimizacao_com_restricoes_tempo solver te tp an = Retorna (Some r) an' /\
     otimizacao_restrita an' = Some r /\
     List.length (rr_alocacoes r) = N /\
     forall j, (j < N)%nat ->
       exists a t,
         In a (rr_alocacoes r) /\
         ar_pedido_id a = pedido_id (iloc_ped (pedidos ot) j) /\
         ar_prioridade a = prioridade (iloc_ped (pedidos ot) j) /\
         ar_tempo_entrega a = Some t /\
         snd (solver m) (T_ j) = Some t /\
         (prioridade (iloc_ped (pedidos ot) j) = 3%Z -> t <= te) /\
         (prioridade (iloc_ped (pedidos ot) j) = 2%Z -> t <= tp)) /\
  (solver_viavel solver m ->
   forall r an',
     otimizacao_com_restricoes_tempo solver te tp an = Retorna (Some r) an' ->
     (forall j, (j < N)%nat ->
        exists t, snd (solver m) (T_ j) = Some t /\
                  (prioridade (iloc_ped (pedidos ot) j) = 3%Z -> t <= te) /\
                  (prioridade (iloc_ped (pedidos ot) j) = 2%Z -> t <= tp)) /\
     (forall a, In a (rr_alocacoes r) ->
        exists t, ar_tempo_entrega a = Some t /\
                  (ar_prioridade a = 3%Z -> t <= te) /\
                  (ar_prioridade a = 2%Z -> t <= tp))) /\
  (custos_finitos ot -> fst (solver m) <> LpStatusOptimal ->
   otimizacao_com_restricoes_tempo solver te tp an = Retorna None an).
Proof.
  intros ot m N.
  assert (HT : solver_viavel solver m -> fst (solver m) = LpStatusOptimal ->
            forall j, (j < N)%nat ->
              exists t, snd (solver m) (T_ j) = Some t /\
                (prioridade (iloc_ped (pedidos ot) j) = 3%Z -> t <= te) /\
                (prioridade (iloc_ped (pedidos ot) j) = 2%Z -> t <= tp)).
  { intros Hsv Hopt j Hj. destruct (Hsv Hopt) as [Hv Hvals].
    apply viavel_restrito_iff in Hv. destruct Hv as [_ Hp].
    rewrite Forall_forall in Hvals.
    pose proof (Hvals (var_T j) (var_T_no_modelo_restrito ot te tp Hj)) as Hs.
    cbn [var_T var_nome] in Hs.
    destruct (Hp j Hj) as [H3 H2]. unfold val_de in H3, H2.
    destruct (snd (solver m) (T_ j)) as [t|]; [|contradiction].
    exists t. auto. }
  split; [|split; [|split]].
  - intros v. apply viavel_restrito_iff.
  - intros Hsv Hopt.
    destruct (@otimizacao_restrita_otima solver te tp an Hsv Hopt) as (r & an' & Hr).
    exists r, an'. split; [exact Hr|].
    destruct (@otimizacao_restrita_campos solver te tp an r an' Hr)
      as (_ & Hal & _ & _ & Hst & _).
    fold ot m in Hal. split; [exact Hst|].
    destruct (Hsv Hopt) as [Hv _].
    apply viavel_restrito_iff in Hv. destruct Hv as [Hv _].
    rewrite alocacoes_restritas_base in Hal. rewrite Hal.
    split; [rewrite length_map; apply (length_extrair_alocacoes Hv)|].
    intros j Hj.
    pose proof (@pedidos_extraidos_permutacao ot (snd (solver m)) Hv) as Hperm.
    assert (Hin : In j (map a_pedido_idx
                          (extrair_alocacoes
                             (com_sol (criar_modelo ot) (snd (solver m)))))).
    { apply (Permutation_in j (Permutation_sym Hperm)). apply in_seq. fold N. lia. }
    apply in_map_iff in Hin. destruct Hin as (a0 & Ej & Ha0).
    destruct (HT Hsv Hopt j Hj) as (t & Hs & H3 & H2).
    destruct (@in_extrair_alocacoes_com_sol ot (snd (solver m)) a0 Ha0) as [Hid Htm].
    pose proof (@prioridade_extrair_alocacoes_com_sol ot (snd (solver m)) a0 Ha0)
      as Hpr.
    rewrite Ej in Hid, Htm, Hpr.
    exists (restrita_de a0), t.
    split; [now apply in_map|].
    cbn [restrita_de ar_pedido_id ar_prioridade ar_tempo_entrega].
    split; [exact Hid|]. split; [exact Hpr|].
    split; [now rewrite Htm|]. split; [exact Hs|]. split; assumption.
  - intros Hsv r an' Hr.
    destruct (otimizacao_restrita_retorna solver te tp an Hr) as [Hopt Hal].
    fold ot m in Hal, Hopt.
    split; [exact (HT Hsv Hopt)|].
    intros a Ha. rewrite Hal in Ha.
    apply in_alocacoes_restritas in Ha. destruct Ha as (j & Hj & Hpr & Ht).
    destruct (HT Hsv Hopt j Hj) as (t & Hs & H3 & H2).
    exists t. rewrite Ht, Hpr. auto.
  - intros _. apply otimizacao_restrita_nao_otima.
Qed.

Lemma C5_variante_com_prazos_witness :
  exists r an',
    otimizacao_com_restricoes_tempo (solver_forca_bruta ot_dois_por_dois) 20 45
      (analisador_de ot_dois_por_dois) = Retorna (Some r) an' /\
    List.length (rr_alocacoes r) = 2%nat /\
    (forall a, In a (rr_alocacoes r) ->
       exists t, ar_tempo_entrega a = Some t /\
                 (ar_prioridade a = 3%Z -> t <= 20) /\
                 (ar_prioridade a = 2%Z -> t <= 45)) /\
    otimizacao_com_restricoes_tempo (solver_forca_bruta ot_dois_por_dois) 10 45
      (analisador_de ot_dois_por_dois)
    = Retorna None (analisador_de ot_dois_por_dois).
Proof.
  destruct (C5_variante_com_prazos (solver_forca_bruta ot_dois_por_dois) 20 45
              (analisador_de ot_dois_por_dois)) as (_ & Hex & Hcond & _).
  destruct (Hex (solver_por_candidatos_viavel _ _)) as (r & an' & Hr & _ & Hlen & _).
  { vm_compute. reflexivity. }
  exists r, an'. split; [exact Hr|]. split; [exact Hlen|].
  split; [exact (proj2 (Hcond (solver_por_candidatos_viavel _ _) r an' Hr))|].
  apply (proj2 (proj2 (proj2
           (C5_variante_com_prazos (solver_forca_bruta ot_dois_por_dois) 10 45
              (analisador_de ot_dois_por_dois))))).
  - apply custos_finitos_velocidades. repeat constructor; vm_compute; discriminate.
  - vm_compute. discriminate.
Defined.

(** X13. A result of the deadline variant covers the orders like a
    Solution of the base model: its allocation list is the list the base
    extractor would build from the same values, it has one entry per
    order (the order ids of the entries are the order ids of the table,
    up to the order of the entries), and its total time is the sum of
    the times of its entries. *)
Theorem variante_cobre_os_pedidos (solver : Solver) (te tp : Q)
    (an : Analisador) (r : ResultadoRestrito) (an' : Analisador)
    (Hsv : solver_viavel solver (construir_modelo_restrito (otimizador an) te tp))
    (Hr : otimizacao_com_restricoes_tempo solver te tp an = Retorna (Some r) an') :
  let ot := otimizador an in
  let s := snd (solver (construir_modelo_restrito ot te tp)) in
  rr_alocacoes r = map restrita_de (extrair_alocacoes (com_sol (criar_modelo ot) s)) /\
  List.length (rr_alocacoes r) = List.length (pedidos ot) /\
  Permutation (map ar_pedido_id (rr_alocacoes r)) (map pedido_id (pedidos ot)) /\
  rr_tempo_total r == somaQ (map tempo_restrito (rr_alocacoes r)).
Proof.
  intros ot s.
  destruct (@otimizacao_restrita_campos solver te tp an r an' Hr)
    as (Hopt & Hal & Htot & _).
  fold ot s in Hopt, Hal, Htot.
  destruct (Hsv Hopt) as [Hv _]. fold ot s in Hv.
  apply viavel_restrito_iff in Hv. destruct Hv as [Hv _].
  rewrite alocacoes_restritas_base in Hal.
  pose proof (@pedidos_extraidos_permutacao ot s Hv) as Hperm.
  set (l := extrair_alocacoes (com_sol (criar_modelo ot) s)) in *.
  split; [exact Hal|]. rewrite Hal. split; [|split].
  - rewrite length_map. apply (length_extrair_alocacoes Hv).
  - rewrite map_map. cbn [restrita_de ar_pedido_id].
    rewrite (map_ext_in _ (fun a => pedido_id (iloc_ped (pedidos ot) (a_pedido_idx a)))).
    + rewrite <- (map_map a_pedido_idx (fun j => pedido_id (iloc_ped (pedidos ot) j))).
      rewrite <- (map_nth_seq pedido_id (pedidos ot) pedido_nulo).
      apply Permutation_map. exact Hperm.
    + intros a Ha. apply (@in_extrair_alocacoes_com_sol ot s a Ha).
  - rewrite (@soma_valores_some s _ _ Htot).
    rewrite map_map.
    rewrite (somaQ_map_ext _ (fun a => val_de s (T_ (a_pedido_idx a)))).
    + rewrite <- (map_map a_pedido_idx (fun j => val_de s (T_ j))).
      apply somaQ_permutacao, Permutation_map, Permutation_sym. exact Hperm.
    + intros a Ha. unfold tempo_restrito, restrita_de; cbn [ar_tempo_entrega].
      rewrite (proj2 (@in_extrair_alocacoes_com_sol ot s a Ha)). reflexivity.
Qed.

Lemma variante_cobre_os_pedidos_witness :
  exists r an',
    otimizacao_com_restricoes_tempo (solver_forca_bruta ot_dois_por_dois) 20 45
      (analisador_de ot_dois_por_dois) = Retorna (Some r) an' /\
    List.length (rr_alocacoes r) = 2%nat /\
    rr_tempo_total r == somaQ (map tempo_restrito (rr_alocacoes r)).
Proof.
  destruct (otimizacao_com_restricoes_tempo (solver_forca_bruta ot_dois_por_dois)
              20 45 (analisador_de ot_dois_por_dois)) as [[r|] an'|e an'] eqn:E;
    [|vm_compute in E; discriminate|vm_compute in E; discriminate].
  exists r, an'. split; [reflexivity|].
  destruct (@variante_cobre_os_pedidos (solver_forca_bruta ot_dois_por_dois) 20 45
              (analisador_de ot_dois_por_dois) r an'
              (solver_por_candidatos_viavel _ _) E) as (_ & Hlen & _ & Htot).
  split; [exact Hlen|exact Htot].
Defined.

(** ** The scenario comparison *)

(** [resolver_modelo] right after [criar_modelo], when it returns. *)
Lemma resolver_modelo_criar solver st ok st' :
  resolver_modelo solver (criar_modelo st) = Retorna ok st' ->
  entregadores st' = entregadores st /\ pedidos st' = pedidos st /\
  modelo st' = Some (construir_modelo st) /\
  ok = LpStatus_eqb (fst (solver (construir_modelo st))) LpStatusOptimal /\
  (ok = true -> pedidos st <> [] -> exists r, resultado st' = Some r) /\
  (ok = false \/ pedidos st = [] -> resultado st' = resultado st).
Proof.
  pose proof (resolver_modelo_criar_casos solver st) as Hc. cbv zeta in Hc.
  rewrite Hc. clear Hc.
  destruct (LpStatus_eqb (fst (solver (construir_modelo st))) LpStatusOptimal).
  - destruct (Nat.eqb (List.length (pedidos st)) 0) eqn:E0.
    + apply Nat.eqb_eq, length_zero_iff_nil in E0.
      intros H. injection H as <- <-. cbn. repeat split.
      intros _ H. now contradiction H.
    + apply Nat.eqb_neq in E0.
      destruct (valor_do_objetivo _ _); [|discriminate].
      intros H. injection H as <- <-. cbn. repeat split.
      * intros _ _. eexists. reflexivity.
      * intros [H|H]; [discriminate|]. rewrite H in E0. now contradiction E0.
  - intros H. injection H as <- <-. cbn. repeat split. intros H. discriminate.
Qed.

(** ... and when it raises. *)
Lemma resolver_modelo_criar_levanta solver st e st' :
  resolver_modelo solver (criar_modelo st) = Levanta e st' ->
  e = TypeError /\ pedidos st <> [] /\
  fst (solver (construir_modelo st)) = LpStatusOptimal /\
  valor_do_objetivo (construir_modelo st) (snd (solver (construir_modelo st))) = None /\
  entregadores st' = entregadores st /\
  exists r, resultado st' = Some r.
Proof.
  pose proof (resolver_modelo_criar_casos solver st) as Hc. cbv zeta in Hc.
  rewrite Hc. clear Hc.
  destruct (LpStatus_eqb (fst (solver (construir_modelo st))) LpStatusOptimal) eqn:Es;
    [|discriminate].
  apply LpStatus_eqb_otimo in Es.
  destruct (Nat.eqb (List.length (pedidos st)) 0) eqn:E0; [discriminate|].
  apply Nat.eqb_neq in E0.
  destruct (valor_do_objetivo _ _); [discriminate|].
  intros H. injection H as <- <-. cbn. repeat split; try assumption.
  - intros H. rewrite H in E0. now contradiction E0.
  - eexists. reflexivity.
Qed.

(** It returns unless an Optimal solve over orders leaves the objective
    without value. *)
Lemma resolver_modelo_criar_retorna solver st :
  pedidos st = [] \/ fst (solver (construir_modelo st)) <> LpStatusOptimal \/
  valor_do_objetivo (construir_modelo st) (snd (solver (construir_modelo st))) <> None ->
  exists ok st', resolver_modelo solver (criar_modelo st) = Retorna ok st'.
Proof.
  intros H.
  destruct (resolver_modelo solver (criar_modelo st)) as [ok st'|e st'] eqn:E.
  - now exists ok, st'.
  - destruct (resolver_modelo_criar_levanta solver st E) as (_ & HN & Ho & Hv & _).
    destruct H as [H|[H|H]]; contradiction.
Qed.

Lemma resolver_modelo_criar_tipo solver st :
  pedidos st <> [] -> fst (solver (construir_modelo st)) = LpStatusOptimal ->
  valor_do_objetivo (construir_modelo st) (snd (solver (construir_modelo st))) = None ->
  exists st', resolver_modelo solver (criar_modelo st) = Levanta TypeError st'.
Proof.
  intros HN Ho Hv.
  pose proof (resolver_modelo_criar_casos solver st) as Hc. cbv zeta in Hc.
  rewrite Hc. clear Hc.
  rewrite (proj2 (LpStatus_eqb_otimo _) Ho), Hv.
  destruct (Nat.eqb (List.length (pedidos st)) 0) eqn:E0.
  - apply Nat.eqb_eq, length_zero_iff_nil in E0. contradiction.
  - eexists. reflexivity.
Qed.

Lemma coluna_atribuir serie df :
  List.length serie = List.length df ->
  coluna_capacidade (atribuir_capacidade serie df) = serie.
Proof.
  unfold coluna_capacidade, atribuir_capacidade.
  revert df. induction serie as [|c serie IH]; intros [|e df] H;
    simpl in *; try discriminate; try reflexivity.
  f_equal. apply IH. lia.
Qed.

(** The third step of [comparar_cenarios] and the restoring of the
    capacities, from the scenarios gathered so far. *)
Lemma comparar_cenarios_de solver an :
  exists cen0,
    map fst cen0 =
      (match resultado (otimizador an) with Some _ => [Original] | None => [] end) ++
      (match otimizacao_restrita an with
       | Some _ => [Com_Restricoes_Tempo] | None => [] end) /\
    (forall r, resultado (otimizador an) = Some r -> In (Original, cenario_de r) cen0) /\
    (forall ok ot2,
      resolver_modelo solver (criar_modelo (com_capacidade_reduzida (otimizador an)))
        = Retorna ok ot2 ->
      (forall rest, otimizacao_restrita an = Some rest -> rr_alocacoes rest <> []) ->
      comparar_cenarios solver an =
        if ok then
          match resultado ot2 with
          | Some r =>
              Retorna (cen0 ++ [(Capacidade_Reduzida, cenario_de r)])
                {| otimizador :=
                     com_entregadores ot2
                       (atribuir_capacidade
                          (coluna_capacidade (entregadores (otimizador an)))
                          (entregadores ot2));
                   sensibilidade_capacidade := sensibilidade_capacidade an;
                   otimizacao_restrita := otimizacao_restrita an;
                   comparacao_cenarios :=
                     Some (cen0 ++ [(Capacidade_Reduzida, cenario_de r)]) |}
          | None => Levanta TypeError (com_otimizador an ot2)
          end
        else
          Retorna cen0
            {| otimizador :=
                 com_entregadores ot2
                   (atribuir_capacidade
                      (coluna_capacidade (entregadores (otimizador an)))
                      (entregadores ot2));
               sensibilidade_capacidade := sensibilidade_capacidade an;
               otimizacao_restrita := otimizacao_restrita an;
               comparacao_cenarios := Some cen0 |}) /\
    (forall e ot2,
      resolver_modelo solver (criar_modelo (com_capacidade_reduzida (otimizador an)))
        = Levanta e ot2 ->
      (forall rest, otimizacao_restrita an = Some rest -> rr_alocacoes rest <> []) ->
      comparar_cenarios solver an = Levanta e (com_otimizador an ot2)).
Proof.
  exists ((match resultado (otimizador an) with
           | Some r => [(Original, cenario_de r)] | None => [] end) ++
          (match otimizacao_restrita an with
           | Some rest =>
               [(Com_Restricoes_Tempo,
                 {| cn_tempo_total := rr_tempo_total rest;
                    cn_tempo_medio :=
                      rr_tempo_total rest /
                      inject_Z (Z.of_nat (List.length (rr_alocacoes rest)));
                    cn_entregadores_usados :=
                      List.length (nodup string_dec
                                     (map ar_entregador_id (rr_alocacoes rest))) |})]
           | None => []
           end)).
  split; [|split; [|split]].
  - rewrite map_app.
    destruct (resultado (otimizador an)), (otimizacao_restrita an); reflexivity.
  - intros r Hr. rewrite Hr. apply in_or_app. left. now left.
  - intros ok ot2 Hres Hne. unfold comparar_cenarios.
    destruct (otimizacao_restrita an) as [rest|] eqn:Er.
    + destruct (Nat.eqb (List.length (rr_alocacoes rest)) 0) eqn:E0.
      * apply Nat.eqb_eq in E0. exfalso. apply (Hne rest eq_refl).
        now apply length_zero_iff_nil.
      * cbn [bind]. fold (com_capacidade_reduzida (otimizador an)).
        rewrite Hres.
        destruct ok; [destruct (resultado ot2)|];
          cbn [bind com_otimizador otimizador sensibilidade_capacidade
               otimizacao_restrita comparacao_cenarios];
          rewrite ?Er; reflexivity.
    + cbn [bind]. fold (com_capacidade_reduzida (otimizador an)).
      rewrite Hres. rewrite app_nil_r.
      destruct ok; [destruct (resultado ot2)|];
        cbn [bind com_otimizador otimizador sensibilidade_capacidade
             otimizacao_restrita comparacao_cenarios];
        rewrite ?Er; reflexivity.
  - intros e ot2 Hres Hne. unfold comparar_cenarios.
    destruct (otimizacao_restrita an) as [rest|] eqn:Er.
    + destruct (Nat.eqb (List.length (rr_alocacoes rest)) 0) eqn:E0.
      * apply Nat.eqb_eq in E0. exfalso. apply (Hne rest eq_refl).
        now apply length_zero_iff_nil.
      * cbn [bind]. fold (com_capacidade_reduzida (otimizador an)).
        rewrite Hres. reflexivity.
    + cbn [bind]. fold (com_capacidade_reduzida (otimizador an)).
      rewrite Hres. reflexivity.
Qed.

Lemma reduzido_otimo_true solver ot :
  reduzido_otimo solver ot = true <->
  fst (solver (construir_modelo (com_capacidade_reduzida ot))) = LpStatusOptimal.
Proof.
  unfold reduzido_otimo.
  destruct (fst (solver (construir_modelo (com_capacidade_reduzida ot)))); simpl;
    split; congruence.
Qed.

Lemma comparar_cenarios_sem_alocacoes solver an rest :
  otimizacao_restrita an = Some rest -> rr_alocacoes rest = [] ->
  comparar_cenarios solver an = Levanta ZeroDivisionError an.
Proof.
  intros Hr Ha. unfold comparar_cenarios. rewrite Hr, Ha. reflexivity.
Qed.

Lemma restrita_vazia_ou_nao an :
  (exists rest, otimizacao_restrita an = Some rest /\ rr_alocacoes rest = []) \/
  (forall rest, otimizacao_restrita an = Some rest -> rr_alocacoes rest <> []).
Proof.
  destruct (otimizacao_restrita an) as [rest|].
  - destruct (rr_alocacoes rest) eqn:E.
    + left. exists rest. now split.
    + right. intros rest' H. injection H as <-. rewrite E. discriminate.
  - right. intros rest H. discriminate.
Qed.

(** X14. The exceptions of [comparar_cenarios] when every cost of the
    model is a finite number (so that [criar_modelo] builds the reduced
    model).  A stored result of the deadline variant with an empty
    allocation list makes it raise [ZeroDivisionError] before anything
    is changed.  Otherwise the reduced-capacity solve must have been
    reported Optimal and the exception is a [TypeError] that leaves the
    capacities reduced: either the optimizer has no orders and no
    Solution (the scenario reads a Solution that is not there), or it
    has orders and the solve left the objective without value (the
    report of the extractor fails, after the Solution was stored).  Both
    situations do raise.  An empty stored result is what the variant
    leaves when it is run without orders and the solve is reported
    Optimal. *)
Theorem comparar_cenarios_excecoes (solver : Solver) (an : Analisador)
    (Hfin : custos_finitos (otimizador an)) :
  let mred := construir_modelo (com_capacidade_reduzida (otimizador an)) in
  (forall rest, otimizacao_restrita an = Some rest -> rr_alocacoes rest = [] ->
     comparar_cenarios solver an = Levanta ZeroDivisionError an) /\
  (forall e an', comparar_cenarios solver an = Levanta e an' ->
     (e = ZeroDivisionError /\ an' = an /\
      exists rest, otimizacao_restrita an = Some rest /\ rr_alocacoes rest = []) \/
     (e = TypeError /\ pedidos (otimizador an) = [] /\
      resultado (otimizador an) = None /\
      reduzido_otimo solver (otimizador an) = true /\
      coluna_capacidade (entregadores (otimizador an')) =
        capacidade_reduzida (entregadores (otimizador an))) \/
     (e = TypeError /\ pedidos (otimizador an) <> [] /\
      reduzido_otimo solver (otimizador an) = true /\
      valor_do_objetivo mred (snd (solver mred)) = None /\
      coluna_capacidade (entregadores (otimizador an')) =
        capacidade_reduzida (entregadores (otimizador an)) /\
      exists r, resultado (otimizador an') = Some r)) /\
  ((forall rest, otimizacao_restrita an = Some rest -> rr_alocacoes rest <> []) ->
   reduzido_otimo solver (otimizador an) = true ->
   (pedidos (otimizador an) = [] /\ resultado (otimizador an) = None) \/
   (pedidos (otimizador an) <> [] /\ valor_do_objetivo mred (snd (solver mred)) = None) ->
   exists an', comparar_cenarios solver an = Levanta TypeError an') /\
  (forall solver' te tp,
     pedidos (otimizador an) = [] ->
     fst (solver' (construir_modelo_restrito (otimizador an) te tp)) = LpStatusOptimal ->
     exists r an1,
       otimizacao_com_restricoes_tempo solver' te tp an = Retorna (Some r) an1 /\
       comparar_cenarios solver an1 = Levanta ZeroDivisionError an1).
Proof.
  intros mred.
  destruct (comparar_cenarios_de solver an) as (cen0 & _ & _ & Hcmp & Hlev).
  split; [|split; [|split]].
  - intros rest. apply comparar_cenarios_sem_alocacoes.
  - intros e an' H.
    destruct (restrita_vazia_ou_nao an) as [(rest & Hr & Ha)|Hne].
    + left. rewrite (comparar_cenarios_sem_alocacoes solver an Hr Ha) in H.
      injection H as <- <-. repeat split. now exists rest.
    + right.
      destruct (resolver_modelo solver
                  (criar_modelo (com_capacidade_reduzida (otimizador an))))
        as [ok ot2|e2 ot2] eqn:Hres.
      * left.
        destruct (resolver_modelo_criar solver _ Hres)
          as (He & Hp & _ & Hok & Hsome & Hsame).
        rewrite (Hcmp ok ot2 eq_refl Hne) in H.
        destruct ok; [|discriminate].
        destruct (resultado ot2) as [r|] eqn:Er; [discriminate|].
        injection H as <- <-.
        change (pedidos (com_capacidade_reduzida (otimizador an)))
          with (pedidos (otimizador an)) in *.
        change (resultado (com_capacidade_reduzida (otimizador an)))
          with (resultado (otimizador an)) in *.
        assert (Hp0 : pedidos (otimizador an) = []).
        { destruct (pedidos (otimizador an)) eqn:E; [reflexivity|].
          destruct (Hsome eq_refl) as (r & Hr); discriminate. }
        split; [reflexivity|]. split; [exact Hp0|].
        split; [symmetry; apply Hsame; now right|].
        split; [unfold reduzido_otimo; now rewrite <- Hok|].
        cbn [com_otimizador otimizador]. rewrite He.
        apply coluna_atribuir, length_capacidade_reduzida.
      * right.
        destruct (resolver_modelo_criar_levanta solver _ Hres)
          as (-> & HN & Ho & Hv & He & Hr).
        rewrite (Hlev _ ot2 eq_refl Hne) in H. injection H as <- <-.
        change (pedidos (com_capacidade_reduzida (otimizador an)))
          with (pedidos (otimizador an)) in *.
        split; [reflexivity|]. split; [exact HN|].
        split; [now apply reduzido_otimo_true|]. split; [exact Hv|].
        cbn [com_otimizador otimizador]. split; [|exact Hr].
        rewrite He. apply coluna_atribuir, length_capacidade_reduzida.
  - intros Hne Hopt Hcasos. apply reduzido_otimo_true in Hopt.
    destruct Hcasos as [[Hp0 Hr0]|[HN Hv]].
    + destruct (@resolver_modelo_criar_retorna solver
                  (com_capacidade_reduzida (otimizador an)) (or_introl Hp0))
        as (ok & ot2 & Hres).
      destruct (resolver_modelo_criar solver _ Hres)
        as (_ & _ & _ & Hok & _ & Hsame).
      rewrite (Hcmp ok ot2 Hres Hne).
      rewrite (proj2 (LpStatus_eqb_otimo _) Hopt) in Hok. subst ok.
      rewrite (Hsame (or_intror Hp0)).
      change (resultado (com_capacidade_reduzida (otimizador an)))
        with (resultado (otimizador an)).
      rewrite Hr0. eexists. reflexivity.
    + destruct (@resolver_modelo_criar_tipo solver
                  (com_capacidade_reduzida (otimizador an)) HN Hopt Hv)
        as (ot2 & Hres).
      rewrite (Hlev _ ot2 Hres Hne). eexists. reflexivity.
  - intros solver' te tp Hp Hopt.
    unfold otimizacao_com_restricoes_tempo.
    destruct (solver' (construir_modelo_restrito (otimizador an) te tp))
      as [status s]. cbn [fst] in Hopt. subst status.
    rewrite Hp. cbn [List.length seq map soma_valores].
    eexists. eexists. split; [reflexivity|].
    eapply comparar_cenarios_sem_alocacoes; [reflexivity|].
    cbn [rr_alocacoes]. unfold alocacoes_restritas. rewrite Hp.
    cbn [List.length seq]. induction (seq 0 (List.length (entregadores (otimizador an))));
      [reflexivity|exact IHl].
Qed.

Lemma comparar_cenarios_excecoes_witness :
  exists an',
    comparar_cenarios solver_sempre_otimo (analisador_de ot_dois_por_dois)
      = Levanta TypeError an'.
Proof.
  assert (Hfin : custos_finitos (otimizador (analisador_de ot_dois_por_dois))).
  { apply custos_finitos_velocidades. repeat constructor; vm_compute; discriminate. }
  apply (proj1 (proj2 (proj2
           (@comparar_cenarios_excecoes solver_sempre_otimo
              (analisador_de ot_dois_por_dois) Hfin)))).
  - intros rest H. discriminate.
  - reflexivity.
  - right. split; [discriminate|]. vm_compute. reflexivity.
Defined.

(** X15. Over a non-empty order set whose costs are all finite numbers
    (so that [criar_modelo] builds the reduced model), with a solver
    that gives every variable of the reduced model a value when it
    reports Optimal (so that the report of the extractor prints), and
    when the result stored by the deadline variant (if any) has
    allocations, [comparar_cenarios] returns the table it stores; its
    keys are, in this order, [Original] when a Solution was there,
    [Com_Restricoes_Tempo] when a result of the variant was stored,
    [Capacidade_Reduzida] when the reduced solve was reported Optimal.
    It leaves the capacities restored, but [self.modelo] is the reduced
    model and, after an Optimal reduced solve, [self.resultado] is the
    Solution of that scenario. *)
Theorem comparar_cenarios_tabela (solver : Solver) (an : Analisador)
    (HN : pedidos (otimizador an) <> [])
    (Hfin : custos_finitos (otimizador an))
    (Hval : solver_valora solver
              (construir_modelo (com_capacidade_reduzida (otimizador an))))
    (Hne : forall rest, otimizacao_restrita an = Some rest -> rr_alocacoes rest <> []) :
  exists cen an',
    comparar_cenarios solver an = Retorna cen an' /\
    map fst cen = chaves_cenarios solver an /\
    comparacao_cenarios an' = Some cen /\
    (forall r, resultado (otimizador an) = Some r -> In (Original, cenario_de r) cen) /\
    (if reduzido_otimo solver (otimizador an)
     then exists r, resultado (otimizador an') = Some r /\
                    In (Capacidade_Reduzida, cenario_de r) cen
     else resultado (otimizador an') = resultado (otimizador an)) /\
    modelo (otimizador an') =
      Some (construir_modelo (com_capacidade_reduzida (otimizador an))) /\
    entregadores (otimizador an') = entregadores (otimizador an).
Proof.
  destruct (@resolver_modelo_criar_retorna solver
              (com_capacidade_reduzida (otimizador an))) as (ok & ot2 & Hres).
  { destruct (LpStatus_eqb
                (fst (solver (construir_modelo
                                (com_capacidade_reduzida (otimizador an)))))
                LpStatusOptimal) eqn:Es.
    - apply LpStatus_eqb_otimo in Es. right. right.
      exact (solver_valora_objetivo Hval Es).
    - right. left. intros Ho. apply LpStatus_eqb_otimo in Ho. congruence. }
  destruct (resolver_modelo_criar solver _ Hres)
    as (He & Hp & Hm & Hok & Hsome & Hsame).
  destruct (comparar_cenarios_de solver an) as (cen0 & Hk & Horig & Hcmp & _).
  pose proof (Hcmp ok ot2 Hres Hne) as H.
  change (pedidos (com_capacidade_reduzida (otimizador an)))
    with (pedidos (otimizador an)) in *.
  change (resultado (com_capacidade_reduzida (otimizador an)))
    with (resultado (otimizador an)) in *.
  unfold chaves_cenarios, reduzido_otimo. rewrite <- Hok.
  destruct ok.
  - destruct (Hsome eq_refl HN) as (r & Hr). rewrite Hr in H.
    eexists. eexists. split; [exact H|].
    split; [rewrite map_app, Hk, <- app_assoc; reflexivity|].
    split; [reflexivity|].
    split; [intros r0 Hr0; apply in_or_app; left; now apply Horig|].
    split; [exists r; split; [exact Hr|apply in_or_app; right; now left]|].
    split; [exact Hm|].
    eapply (proj2 (entregadores_comparar_cenarios solver an)). exact H.
  - eexists. eexists. split; [exact H|].
    split; [rewrite Hk, app_nil_r; reflexivity|].
    split; [reflexivity|]. split; [exact Horig|].
    split; [cbn; apply Hsame; now left|].
    split; [exact Hm|].
    eapply (proj2 (entregadores_comparar_cenarios solver an)). exact H.
Qed.

Lemma comparar_cenarios_tabela_witness :
  exists cen an',
    comparar_cenarios (solver_forca_bruta ot_dois_por_dois)
      (analisador_de ot_dois_por_dois) = Retorna cen an' /\
    map fst cen = [Capacidade_Reduzida] /\
    map ent_capacidade (entregadores (otimizador an')) = [2; 1]%Z.
Proof.
  destruct (@comparar_cenarios_tabela (solver_forca_bruta ot_dois_por_dois)
              (analisador_de ot_dois_por_dois))
    as (cen & an' & H & Hk & _ & _ & _ & _ & He).
  - discriminate.
  - apply custos_finitos_velocidades. repeat constructor; vm_compute; discriminate.
  - apply solver_viavel_valora, solver_por_candidatos_viavel.
  - intros rest Hr. discriminate.
  - exists cen, an'. split; [exact H|]. split.
    + rewrite Hk. vm_compute. reflexivity.
    + rewrite He. reflexivity.
Defined.

(** ** Deadlines and capacities against the optimum *)

Lemma valor_objetivo_restrito ot te tp v :
  valor_objetivo_de (construir_modelo_restrito ot te tp) v =
  valor_objetivo_de (construir_modelo ot) v.
Proof.
  unfold valor_objetivo_de.
  now rewrite (proj1 (objective_modelo_restrito ot te tp)), objective_construir_modelo.
Qed.

Lemma prazos_mais_largos ot te tp te' tp' v :
  te <= te' -> tp <= tp' ->
  prazos_cumpridos ot te tp v -> prazos_cumpridos ot te' tp' v.
Proof.
  intros He Hp H j Hj. destruct (H j Hj) as [H3 H2]. split; intros Hpr.
  - specialize (H3 Hpr). lra.
  - specialize (H2 Hpr). lra.
Qed.

(** An optimum of the base model that meets the deadlines is an optimum
    of the variant. *)
Lemma otimo_restrito_de_base ot te tp v :
  otimo (construir_modelo ot) v -> prazos_cumpridos ot te tp v ->
  otimo (construir_modelo_restrito ot te tp) v.
Proof.
  intros [Hv Hmin] Hp. split.
  - apply viavel_restrito_iff. now split.
  - intros v' Hv'. apply viavel_restrito_iff in Hv'. destruct Hv' as [Hv' _].
    rewrite (proj2 (objective_modelo_restrito ot te tp)).
    rewrite !valor_objetivo_restrito.
    specialize (Hmin v' Hv'). now rewrite sense_construir_modelo in Hmin.
Qed.

(** X16. Deadlines never improve the optimum: the optimal objective of
    the deadline variant is at least the optimal objective of the base
    model, and it does not increase when both deadlines are loosened. *)
Theorem prazos_nao_melhoram_o_otimo (ot : Otimizador) (te tp te' tp' : Q)
    (v v' v0 : valoracao)
    (He : te <= te') (Hp : tp <= tp')
    (H : otimo (construir_modelo_restrito ot te tp) v)
    (H' : otimo (construir_modelo_restrito ot te' tp') v')
    (H0 : otimo (construir_modelo ot) v0) :
  valor_objetivo_de (construir_modelo ot) v0 <=
    valor_objetivo_de (construir_modelo_restrito ot te' tp') v' /\
  valor_objetivo_de (construir_modelo_restrito ot te' tp') v' <=
    valor_objetivo_de (construir_modelo_restrito ot te tp) v.
Proof.
  destruct H as [Hv _], H' as [Hv' Hmin'], H0 as [_ Hmin0].
  rewrite (proj2 (objective_modelo_restrito ot te' tp')) in Hmin'.
  rewrite sense_construir_modelo in Hmin0.
  apply viavel_restrito_iff in Hv. destruct Hv as [Hvb Hpz].
  split.
  - rewrite valor_objetivo_restrito. apply Hmin0.
    apply viavel_restrito_iff in Hv'. apply Hv'.
  - rewrite (valor_objetivo_restrito ot te tp v),
            <- (valor_objetivo_restrito ot te' tp' v).
    apply Hmin'. apply viavel_restrito_iff. split; [exact Hvb|].
    now apply (prazos_mais_largos He Hp).
Qed.

Lemma prazos_do_exemplo te tp :
  19 <= te ->
  prazos_cumpridos (com_capacidade ot_dois_por_dois 2) te tp
                   (val_de (sol_capacidade 2)).
Proof.
  intros Hte j Hj. change (List.length _) with 2%nat in Hj.
  assert (E0 : val_de (sol_capacidade 2) (T_ 0) == 19) by (vm_compute; reflexivity).
  destruct j as [|[|j]]; [| |lia].
  - split; [intros _; rewrite E0; exact Hte|intros Hc; vm_compute in Hc; discriminate].
  - split; intros Hc; vm_compute in Hc; discriminate.
Qed.

Lemma prazos_nao_melhoram_o_otimo_witness :
  valor_objetivo_de (construir_modelo (com_capacidade ot_dois_por_dois 2))
                    (val_de (sol_capacidade 2)) <=
    valor_objetivo_de (construir_modelo_restrito (com_capacidade ot_dois_por_dois 2) 25 50)
                      (val_de (sol_capacidade 2)) /\
  valor_objetivo_de (construir_modelo_restrito (com_capacidade ot_dois_por_dois 2) 25 50)
                    (val_de (sol_capacidade 2)) <=
    valor_objetivo_de (construir_modelo_restrito (com_capacidade ot_dois_por_dois 2) 20 45)
                      (val_de (sol_capacidade 2)).
Proof.
  apply (@prazos_nao_melhoram_o_otimo (com_capacidade ot_dois_por_dois 2) 20 45 25 50).
  - vm_compute. discriminate.
  - vm_compute. discriminate.
  - apply (otimo_restrito_de_base otimo_capacidade_2).
    apply prazos_do_exemplo. vm_compute. discriminate.
  - apply (otimo_restrito_de_base otimo_capacidade_2).
    apply prazos_do_exemplo. vm_compute. discriminate.
  - exact otimo_capacidade_2.
Defined.

Lemma Forall2_iloc (P : Entregador -> Entregador -> Prop) df df' i :
  Forall2 P df df' -> (i < List.length df)%nat ->
  P (iloc_ent df i) (iloc_ent df' i).
Proof.
  unfold iloc_ent. intros H. revert i.
  induction H as [|e e' df df' He _ IH]; intros i Hi; simpl in *; [lia|].
  destruct i as [|i]; [exact He|]. apply IH. lia.
Qed.

(** A point feasible for a courier table stays feasible when capacities
    grow and nothing else changes. *)
Lemma viavel_capacidade_pontual st st' v :
  pedidos st = pedidos st' ->
  Forall2 (fun e e' => mesmos_outros_campos e e' /\
                       (ent_capacidade e <= ent_capacidade e')%Z)
          (entregadores st) (entregadores st') ->
  viavel (construir_modelo st) v -> viavel (construir_modelo st') v.
Proof.
  intros Hp He.
  pose proof (Forall2_length He) as Hlen.
  rewrite !viavel_por_restricao.
  unfold objetivo_ok. rewrite !objective_construir_modelo.
  rewrite !constraints_construir_modelo.
  rewrite !map_app, !Forall_app.
  assert (E1 : restricoes_R1 st' = restricoes_R1 st)
    by (unfold restricoes_R1; now rewrite Hp, Hlen).
  assert (E2 : restricoes_R2 st' = restricoes_R2 st).
  { unfold restricoes_R2. rewrite <- Hp, <- Hlen.
    apply map_ext. intros j. f_equal. unfold R2. f_equal. f_equal.
    apply map_ext_in. intros i Hi. apply in_seq in Hi. f_equal.
    unfold custo, calcular_tempo_deslocamento. rewrite <- Hp.
    destruct (@Forall2_iloc _ _ _ i He) as [(_ & _ & Hvel & _) _]; [lia|].
    now rewrite Hvel. }
  assert (EO : objetivo_ponderado st' (seq 0 (List.length (pedidos st'))) =
               objetivo_ponderado st (seq 0 (List.length (pedidos st))))
    by (unfold objetivo_ponderado; now rewrite Hp).
  rewrite E1, E2, EO.
  intros (Ho & H1 & H2 & H3). repeat split; try assumption; try apply Ho.
  unfold restricoes_R3 in *. rewrite map_map in *. cbn [snd] in *.
  rewrite <- Hp, <- Hlen.
  rewrite Forall_forall in H3 |- *. intros c Hin.
  apply in_map_iff in Hin. destruct Hin as (i & <- & Hi).
  assert (Hi' := Hi). apply in_seq in Hi'.
  destruct (@Forall2_iloc _ _ _ i He) as [_ Hc]; [lia|].
  unfold R3.
  apply (restricao_ok_folga Hc).
  apply (H3 (R3 st (seq 0 (List.length (pedidos st))) i)).
  apply in_map_iff. exists i. now split.
Qed.

Lemma reduzida_nao_aumenta df :
  Forall (fun e => (1 <= ent_capacidade e)%Z) df ->
  Forall2 (fun e e' => mesmos_outros_campos e e' /\
                       (ent_capacidade e <= ent_capacidade e')%Z)
          (atribuir_capacidade (capacidade_reduzida df) df) df.
Proof.
  unfold atribuir_capacidade, capacidade_reduzida, coluna_capacidade.
  induction 1 as [|e df He _ IH]; simpl; constructor; [|exact IH].
  split; [repeat split|]. simpl.
  pose proof (Z.div_mod (ent_capacidade e) 2).
  pose proof (Z.mod_pos_bound (ent_capacidade e) 2). lia.
Qed.

Lemma otimo_capacidade_3 :
  otimo (construir_modelo (com_capacidade ot_dois_por_dois 3))
        (val_de (sol_capacidade 3)).
Proof.
  split.
  - apply (solver_por_candidatos_viavel _ _). vm_compute. reflexivity.
  - intros v' Hv'. rewrite sense_construir_modelo.
    assert (E : valor_objetivo_de (construir_modelo (com_capacidade ot_dois_por_dois 3))
                  (val_de (sol_capacidade 3)) == 78) by (vm_compute; reflexivity).
    rewrite E, objetivo_dois_por_dois.
    destruct (fatos_dois_por_dois Hv') as (Hb & S0 & S1 & T0 & T1 & C0 & C1).
    lra.
Qed.

(** X17. When every courier has a capacity of at least 1, the
    reduced-capacity scenario of [comparar_cenarios] only removes
    feasible points: a point feasible for the reduced model is feasible
    for the original one, so the optimal objective of the scenario is at
    least the original optimum. *)
Theorem cenario_reduzido_nao_melhora (st : Otimizador) (v1 v0 : valoracao)
    (Hcap : Forall (fun e => (1 <= ent_capacidade e)%Z) (entregadores st))
    (H1 : otimo (construir_modelo (com_capacidade_reduzida st)) v1)
    (H0 : otimo (construir_modelo st) v0) :
  viavel (construir_modelo st) v1 /\
  valor_objetivo_de (construir_modelo st) v0 <=
  valor_objetivo_de (construir_modelo (com_capacidade_reduzida st)) v1.
Proof.
  destruct H1 as [Hv1 _], H0 as [_ Hmin].
  assert (Hv : viavel (construir_modelo st) v1).
  { apply (@viavel_capacidade_pontual (com_capacidade_reduzida st) st v1);
      [reflexivity| |exact Hv1].
    apply reduzida_nao_aumenta. exact Hcap. }
  split; [exact Hv|].
  specialize (Hmin v1 Hv). rewrite sense_construir_modelo in Hmin. exact Hmin.
Qed.

Lemma cenario_reduzido_nao_melhora_witness :
  valor_objetivo_de (construir_modelo (com_capacidade ot_dois_por_dois 3))
                    (val_de (sol_capacidade 3)) <=
  valor_objetivo_de
    (construir_modelo (com_capacidade_reduzida (com_capacidade ot_dois_por_dois 3)))
    (val_de (sol_capacidade 2)).
Proof.
  apply (@cenario_reduzido_nao_melhora (com_capacidade ot_dois_por_dois 3)).
  - repeat constructor; simpl; lia.
  - exact otimo_capacidade_2.
  - exact otimo_capacidade_3.
Defined.

Lemma iloc_atribuir serie df i :
  List.length serie = List.length df -> (i < List.length df)%nat ->
  ent_capacidade (iloc_ent (atribuir_capacidade serie df) i) = nth i serie 0%Z.
Proof.
  unfold iloc_ent, atribuir_capacidade.
  revert df i. induction serie as [|c serie IH]; intros [|e df] i Hl Hi;
    simpl in *; try lia.
  destruct i as [|i]; [reflexivity|]. apply IH; lia.
Qed.

Lemma nth_map_dentro {A B} (f : A -> B) (l : list A) i d d' :
  (i < List.length l)%nat -> nth i (map f l) d' = f (nth i l d).
Proof.
  revert i. induction l as [|a l IH]; intros i Hi; simpl in *; [lia|].
  destruct i as [|i]; [reflexivity|]. apply IH. lia.
Qed.

(** X18. What the "reduced" capacity of [comparar_cenarios] is: courier
    by courier [c // 2 + 1], which is smaller than [c] only from 3 on,
    is [c] itself for 1 and 2, and is larger than [c] when [c <= 0].
    With all capacities 1 or 2 the scenario is solved over the original
    courier table. *)
Theorem capacidade_reduzida_por_entregador (st : Otimizador) :
  (forall i, (i < List.length (entregadores st))%nat ->
     let c := ent_capacidade (iloc_ent (entregadores st) i) in
     let c' := ent_capacidade
                 (iloc_ent (entregadores (com_capacidade_reduzida st)) i) in
     c' = (c / 2 + 1)%Z /\
     ((c' < c)%Z <-> (3 <= c)%Z) /\
     (c' = c <-> (1 <= c <= 2)%Z) /\
     ((c < c')%Z <-> (c <= 0)%Z)) /\
  (Forall (fun e => (1 <= ent_capacidade e <= 2)%Z) (entregadores st) ->
   entregadores (com_capacidade_reduzida st) = entregadores st /\
   construir_modelo (com_capacidade_reduzida st) = construir_modelo st).
Proof.
  split.
  - intros i Hi c c'.
    assert (E : c' = (c / 2 + 1)%Z).
    { unfold c', c, com_capacidade_reduzida. cbn [com_entregadores entregadores].
      rewrite iloc_atribuir by (rewrite ?length_capacidade_reduzida; lia).
      unfold capacidade_reduzida, coluna_capacidade. rewrite map_map.
      unfold iloc_ent.
      exact (@nth_map_dentro _ _ (fun e => (ent_capacidade e / 2 + 1)%Z)
               (entregadores st) i entregador_nulo 0%Z Hi). }
    split; [exact E|]. rewrite E.
    pose proof (Z.div_mod c 2). pose proof (Z.mod_pos_bound c 2).
    repeat split; intros; lia.
  - intros H.
    assert (E : entregadores (com_capacidade_reduzida st) = entregadores st).
    { unfold com_capacidade_reduzida. cbn [com_entregadores entregadores].
      unfold atribuir_capacidade, capacidade_reduzida, coluna_capacidade.
      induction H as [|e df He _ IH]; [reflexivity|]. simpl. rewrite IH. f_equal.
      assert (Ec : (ent_capacidade e / 2 + 1)%Z = ent_capacidade e).
      { pose proof (Z.div_mod (ent_capacidade e) 2).
        pose proof (Z.mod_pos_bound (ent_capacidade e) 2). lia. }
      unfold set_capacidade. rewrite Ec. now destruct e. }
    split; [exact E|]. now apply construir_modelo_ext.
Qed.

(** * The basic analyses *)

(** ** Time bands *)

Lemma contar_length (p : Q -> bool) (l : list Q) :
  contar p l = List.length (filter p l).
Proof. unfold contar. apply list_sum_uns. Qed.

Lemma faixas_de_um_tempo (t : Q) :
  (Nat.b2n (Qle_bool t 30) + Nat.b2n (entre 30 45 t) + Nat.b2n (entre 45 60 t) +
   Nat.b2n (entre 60 90 t) + Nat.b2n (negb (Qle_bool t 90)) = 1)%nat.
Proof.
  unfold entre.
  destruct (Qle_bool t 30) eqn:E30, (Qle_bool t 45) eqn:E45,
           (Qle_bool t 60) eqn:E60, (Qle_bool t 90) eqn:E90;
    try reflexivity; exfalso;
    repeat match goal with
    | H : Qle_bool _ _ = true |- _ => apply Qle_bool_iff in H
    | H : Qle_bool ?a ?b = false |- _ =>
        assert (~ a <= b) by (intros Hc; apply Qle_bool_iff in Hc; congruence);
        clear H
    end; lra.
Qed.

Lemma faixas_somam (l : list Q) :
  let f := distribuicao_faixas l in
  (muito_rapido f + rapido f + normal_ f + lento f + muito_lento f)%nat
  = List.length l.
Proof.
  cbn [distribuicao_faixas muito_rapido rapido normal_ lento muito_lento].
  rewrite !contar_length.
  induction l as [|t l IH]; [reflexivity|].
  cbn [filter List.length].
  pose proof (faixas_de_um_tempo t) as Ht.
  destruct (Qle_bool t 30), (entre 30 45 t), (entre 45 60 t), (entre 60 90 t),
           (negb (Qle_bool t 90)); cbn [Nat.b2n] in Ht; cbn [List.length];
    try lia.
Qed.

Lemma fold_Qmin_le ts t : fold_left Qmin ts t <= t /\
  Forall (fun x => fold_left Qmin ts t <= x) ts.
Proof.
  revert t. induction ts as [|x ts IH]; intros t; cbn [fold_left].
  - split; [lra|constructor].
  - destruct (IH (Qmin t x)) as [H1 H2].
    pose proof (Q.le_min_l t x). pose proof (Q.le_min_r t x).
    split; [lra|]. constructor; [lra|exact H2].
Qed.

Lemma fold_Qmax_ge ts t : t <= fold_left Qmax ts t /\
  Forall (fun x => x <= fold_left Qmax ts t) ts.
Proof.
  revert t. induction ts as [|x ts IH]; intros t; cbn [fold_left].
  - split; [lra|constructor].
  - destruct (IH (Qmax t x)) as [H1 H2].
    pose proof (Q.le_max_l t x). pose proof (Q.le_max_r t x).
    split; [lra|]. constructor; [lra|exact H2].
Qed.

Lemma tempos_das_alocacoes_some alocs ts :
  tempos_das_alocacoes alocs = Some ts ->
  ts = map tempo_de alocs /\
  Forall (fun a => a_tempo_entrega a <> None) alocs.
Proof.
  revert ts. induction alocs as [|a alocs IH]; intros ts; cbn [tempos_das_alocacoes].
  - intros H. injection H as <-. split; [reflexivity|constructor].
  - destruct (a_tempo_entrega a) as [t|] eqn:Et; [|discriminate].
    destruct (tempos_das_alocacoes alocs) as [ts'|]; [|discriminate].
    intros H. injection H as <-. destruct (IH ts' eq_refl) as [-> Hf].
    split; [cbn [map]; f_equal; unfold tempo_de; now rewrite Et|].
    constructor; [congruence|exact Hf].
Qed.

Lemma tempos_das_alocacoes_none alocs :
  tempos_das_alocacoes alocs = None ->
  exists a, In a alocs /\ a_tempo_entrega a = None.
Proof.
  induction alocs as [|a alocs IH]; cbn [tempos_das_alocacoes]; [discriminate|].
  destruct (a_tempo_entrega a) as [t|] eqn:Et.
  - destruct (tempos_das_alocacoes alocs) as [ts'|]; [discriminate|].
    intros _. destruct (IH eq_refl) as (b & Hb & Eb). exists b. split; [now right|exact Eb].
  - intros _. exists a. split; [now left|exact Et].
Qed.

Lemma tempos_das_alocacoes_map alocs ts :
  tempos_das_alocacoes alocs = Some ts <-> map a_tempo_entrega alocs = map Some ts.
Proof.
  revert ts. induction alocs as [|a alocs IH]; intros ts; cbn [tempos_das_alocacoes map].
  - split.
    + intros H. injection H as <-. reflexivity.
    + destruct ts; [reflexivity|discriminate].
  - destruct (a_tempo_entrega a) as [t|] eqn:Et.
    + destruct (tempos_das_alocacoes alocs) as [ts'|] eqn:E.
      * split.
        -- intros H. injection H as <-. cbn [map]. f_equal. now apply IH.
        -- destruct ts as [|t' ts]; [discriminate|]. cbn [map]. intros H.
           injection H as <- H. apply IH in H. now injection H as <-.
      * split; [discriminate|].
        destruct ts as [|t' ts]; [discriminate|]. cbn [map]. intros H.
        injection H as _ H. apply IH in H. discriminate.
    + split; [discriminate|]. destruct ts; discriminate.
Qed.

Lemma tempos_das_alocacoes_falta alocs a :
  In a alocs -> a_tempo_entrega a = None -> tempos_das_alocacoes alocs = None.
Proof.
  intros Ha Ea.
  destruct (tempos_das_alocacoes alocs) as [ts|] eqn:E; [|reflexivity].
  apply tempos_das_alocacoes_some in E. destruct E as [_ Hf].
  rewrite Forall_forall in Hf. now contradiction (Hf a Ha).
Qed.

(** X19. The outcomes of [analise_distribuicao_tempos].  It returns
    [None] exactly when there is no Solution, raises [ValueError]
    exactly when the Solution has an empty allocation list and
    [TypeError] exactly when an entry of the list has no time.  When it
    returns its dictionary, the list is not empty, the detailed times
    are the times of its entries, one by one, every one of them is
    counted in exactly one of the five bands (the five counts add up to
    the number of allocations) and lies between the minimum and the
    maximum. *)
Theorem distribuicao_tempos_faixas (ot : Otimizador) :
  (analise_distribuicao_tempos ot = SemResultado <-> resultado ot = None) /\
  (analise_distribuicao_tempos ot = Falha NpValueError <->
   exists r, resultado ot = Some r /\ alocacoes r = []) /\
  (analise_distribuicao_tempos ot = Falha NpTypeError <->
   exists r a, resultado ot = Some r /\ In a (alocacoes r) /\
               a_tempo_entrega a = None) /\
  analise_distribuicao_tempos ot <> Falha NpZeroDivisionError /\
  (forall an, analise_distribuicao_tempos ot = Pronto an ->
     exists r, resultado ot = Some r /\ alocacoes r <> [] /\
       let f := at_distribuicao_faixas an in
       map a_tempo_entrega (alocacoes r) = map Some (at_tempos_detalhados an) /\
       (muito_rapido f + rapido f + normal_ f + lento f + muito_lento f)%nat
         = List.length (alocacoes r) /\
       Forall (fun t => at_minimo an <= t <= at_maximo an)
              (at_tempos_detalhados an)).
Proof.
  unfold analise_distribuicao_tempos.
  destruct (resultado ot) as [r|].
  2:{ split; [split; reflexivity|].
      split; [split; [discriminate|intros (r & H & _); discriminate]|].
      split; [split; [discriminate|intros (r & a & H & _); discriminate]|].
      split; [discriminate|]. intros an H. discriminate. }
  destruct (tempos_das_alocacoes (alocacoes r)) as [[|t ts]|] eqn:E.
  - pose proof (proj1 (tempos_das_alocacoes_map _ _) E) as Em.
    assert (Ha : alocacoes r = []) by (destruct (alocacoes r); [reflexivity|discriminate]).
    split; [split; discriminate|].
    split; [split; [intros _; now exists r|reflexivity]|].
    split; [split; [discriminate|]|].
    { intros (r' & a & Hr & Hin & _). injection Hr as <-. rewrite Ha in Hin.
      contradiction. }
    split; [discriminate|]. intros an H. discriminate.
  - pose proof (proj1 (tempos_das_alocacoes_map _ _) E) as Em.
    pose proof (tempos_das_alocacoes_some _ E) as [Et Hf].
    assert (Hne : alocacoes r <> []) by (destruct (alocacoes r); discriminate).
    split; [split; discriminate|].
    split; [split; [discriminate|]|].
    { intros (r' & Hr & Ha). injection Hr as <-. contradiction. }
    split; [split; [discriminate|]|].
    { intros (r' & a & Hr & Hin & Ea). injection Hr as <-.
      rewrite (tempos_das_alocacoes_falta _ _ Hin Ea) in E. discriminate. }
    split; [discriminate|].
    intros an H. injection H as <-. exists r. split; [reflexivity|].
    split; [exact Hne|].
    cbn [at_tempos_detalhados at_distribuicao_faixas at_minimo at_maximo].
    split; [exact Em|].
    split; [rewrite faixas_somam, Et; apply length_map|].
    destruct (fold_Qmin_le ts t) as [Hm1 Hm2].
    destruct (fold_Qmax_ge ts t) as [HM1 HM2].
    constructor; [split; assumption|].
    rewrite Forall_forall in *. intros x Hx. split; [now apply Hm2|now apply HM2].
  - apply tempos_das_alocacoes_none in E. destruct E as (a & Ha & Ea).
    split; [split; discriminate|].
    split; [split; [discriminate|]|].
    { intros (r' & Hr & Hn). injection Hr as <-. rewrite Hn in Ha. contradiction. }
    split; [split; [intros _; now exists r, a|reflexivity]|].
    split; [discriminate|]. intros an H. discriminate.
Qed.

Lemma distribuicao_tempos_faixas_witness :
  exists an,
    analise_distribuicao_tempos ot_com_resultado = Pronto an /\
    at_tempos_detalhados an = [30; 45; 75] /\
    Forall (fun t => at_minimo an <= t <= at_maximo an) (at_tempos_detalhados an).
Proof.
  destruct (analise_distribuicao_tempos ot_com_resultado) as [|an|e] eqn:E;
    [vm_compute in E; discriminate| |vm_compute in E; discriminate].
  exists an. split; [reflexivity|].
  destruct (proj2 (proj2 (proj2 (proj2
              (distribuicao_tempos_faixas ot_com_resultado)))) an E)
    as (r & Hr & _ & Hd & _ & Hf).
  split; [|exact Hf].
  injection Hr as <-. cbn [alocacoes map aloc_exemplo a_tempo_entrega] in Hd.
  destruct (at_tempos_detalhados an) as [|t1 [|t2 [|t3 [|t4 l]]]]; try discriminate.
  now injection Hd as <- <- <-.
Defined.

(** ** Grouping by courier *)

Lemma filter_nenhum {A} (p : A -> bool) (l : list A) :
  (forall a, In a l -> p a = false) -> filter p l = [].
Proof.
  induction l as [|a l IH]; intros H; [reflexivity|].
  cbn [filter]. rewrite (H a) by now left. apply IH. intros b Hb. apply H. now right.
Qed.

Lemma grupo_ok_outro pre a ku :
  a_entregador_id a <> fst ku -> grupo_ok pre ku -> grupo_ok (pre ++ [a]) ku.
Proof.
  intros Hk (H1 & H2 & H3 & H4 & H5). unfold grupo_ok.
  rewrite filter_app. cbn [filter].
  apply String.eqb_neq in Hk. rewrite Hk, app_nil_r. now repeat split.
Qed.

Lemma grupo_ok_somar pre a t k u :
  a_entregador_id a = k -> a_tempo_entrega a = Some t ->
  u_pedidos u = filter (fun b => String.eqb (a_entregador_id b) k) pre ->
  u_num_pedidos u = List.length (u_pedidos u) ->
  u_tempo_total u == somaQ (map tempo_de (u_pedidos u)) ->
  u_valor_total u == somaQ (map a_valor_pedido (u_pedidos u)) ->
  grupo_ok (pre ++ [a]) (k, somar_alocacao a t u).
Proof.
  intros Hk Ht H1 H3 H4 H5. unfold grupo_ok.
  cbn [fst snd somar_alocacao u_pedidos u_num_pedidos u_tempo_total u_valor_total].
  rewrite filter_app. cbn [filter].
  rewrite Hk, String.eqb_refl, <- H1.
  split; [reflexivity|]. split; [now destruct (u_pedidos u)|].
  split; [rewrite length_app; cbn [List.length]; lia|].
  rewrite !map_app, !somaQ_app. cbn [map somaQ].
  unfold tempo_de at 2. rewrite Ht. split; lra.
Qed.

(** One update of the dictionary. *)
Lemma dict_atualizar_inv pre a t d :
  a_tempo_entrega a = Some t ->
  NoDup (map fst d) ->
  Forall (grupo_ok pre) d ->
  (In (a_entregador_id a) (map fst d) \/
   filter (fun b => String.eqb (a_entregador_id b) (a_entregador_id a)) pre = []) ->
  let d' := dict_atualizar d (a_entregador_id a) (somar_alocacao a t) in
  Forall (grupo_ok (pre ++ [a])) d' /\
  (forall k, In k (map fst d') <-> In k (map fst d) \/ k = a_entregador_id a) /\
  NoDup (map fst d') /\
  list_sum (map (fun ku => u_num_pedidos (snd ku)) d') =
    S (list_sum (map (fun ku => u_num_pedidos (snd ku)) d)).
Proof.
  intros Ht. induction d as [|[k' u] d IH]; intros Hnd Hok Hin d'.
  - destruct Hin as [[]|Hf]. subst d'. cbn [dict_atualizar].
    split; [|split; [|split]].
    + constructor; [|constructor].
      apply grupo_ok_somar; try reflexivity; try assumption.
      now rewrite Hf.
    + intros k. cbn. intuition.
    + repeat constructor. intros [].
    + reflexivity.
  - subst d'. cbn [dict_atualizar].
    inversion Hnd as [|? ? Hnk Hnd']; subst.
    inversion Hok as [|? ? Hu Hok']; subst.
    destruct (String.eqb k' (a_entregador_id a)) eqn:E.
    + apply String.eqb_eq in E. subst k'.
      destruct Hu as (H1 & H2 & H3 & H4 & H5). cbn [fst snd] in *.
      split; [|split; [|split]].
      * constructor; [now apply grupo_ok_somar|].
        rewrite Forall_forall in Hok' |- *. intros ku Hku.
        apply grupo_ok_outro; [|now apply Hok'].
        intros Hc. apply Hnk. rewrite Hc. now apply in_map.
      * intros k. cbn [map fst In]. split; [intros H; now left|].
        intros [H| ->]; [exact H|now left].
      * exact Hnd.
      * cbn. lia.
    + apply String.eqb_neq in E.
      destruct IH as (I1 & I2 & I3 & I4); [exact Hnd'|exact Hok'| |].
      { destruct Hin as [[Hc|Hc]|Hf]; [cbn in Hc; congruence|now left|now right]. }
      split; [|split; [|split]].
      * constructor; [|exact I1].
        apply grupo_ok_outro; [cbn [fst]; congruence|exact Hu].
      * intros k. cbn [map fst In]. rewrite I2. tauto.
      * cbn [map fst]. constructor; [|exact I3].
        rewrite I2. intros [H|H]; [contradiction|congruence].
      * unfold list_sum in I4 |- *. cbn [map fold_right]. rewrite I4. lia.
Qed.

(** The whole loop. *)
Lemma agrupar_por_entregador_inv alocs :
  forall pre d d',
  NoDup (map fst d) ->
  Forall (grupo_ok pre) d ->
  (forall a, In a pre -> In (a_entregador_id a) (map fst d)) ->
  agrupar_por_entregador alocs d = Some d' ->
  NoDup (map fst d') /\
  Forall (grupo_ok (pre ++ alocs)) d' /\
  (forall k, In k (map fst d') <->
             In k (map fst d) \/ In k (map a_entregador_id alocs)) /\
  list_sum (map (fun ku => u_num_pedidos (snd ku)) d') =
    (list_sum (map (fun ku => u_num_pedidos (snd ku)) d) + List.length alocs)%nat /\
  Forall (fun a => a_tempo_entrega a <> None) alocs.
Proof.
  induction alocs as [|a alocs IH]; intros pre d d' Hnd Hok Hcov;
    cbn [agrupar_por_entregador].
  - intros H. injection H as <-. rewrite app_nil_r.
    split; [exact Hnd|]. split; [exact Hok|]. split; [|split].
    + intros k. cbn [map In]. tauto.
    + cbn. lia.
    + constructor.
  - destruct (a_tempo_entrega a) as [t|] eqn:Et; [|discriminate].
    intros H.
    assert (Hin : In (a_entregador_id a) (map fst d) \/
                  filter (fun b => String.eqb (a_entregador_id b) (a_entregador_id a))
                         pre = []).
    { destruct (in_dec string_dec (a_entregador_id a) (map fst d)) as [Hi|Hi];
        [now left|right].
      apply filter_nenhum. intros b Hb. apply String.eqb_neq.
      intros Hc. apply Hi. rewrite <- Hc. now apply Hcov. }
    destruct (@dict_atualizar_inv pre a t d Et Hnd Hok Hin) as (D1 & D2 & D3 & D4).
    destruct (IH (pre ++ [a]) _ d' D3 D1) as (I1 & I2 & I3 & I4 & I5); [|exact H|].
    { intros b Hb. apply D2. apply in_app_or in Hb.
      destruct Hb as [Hb|[<-|[]]]; [left; now apply Hcov|now right]. }
    rewrite <- app_assoc in I2. cbn [app] in I2.
    split; [exact I1|]. split; [exact I2|]. split; [|split].
    + intros k. rewrite I3, D2. cbn [map]. split.
      * intros [[Hk|Hk]|Hk]; [now left|right; left; now symmetry|right; now right].
      * intros [Hk|[Hk|Hk]]; [left; now left|left; right; now symmetry|now right].
    + rewrite I4, D4. cbn [List.length]. lia.
    + constructor; [congruence|exact I5].
Qed.

Lemma agrupar_por_entregador_none alocs :
  forall d, agrupar_por_entregador alocs d = None ->
  exists a, In a alocs /\ a_tempo_entrega a = None.
Proof.
  induction alocs as [|a alocs IH]; intros d; cbn [agrupar_por_entregador];
    [discriminate|].
  destruct (a_tempo_entrega a) as [t|] eqn:Et.
  - intros H. destruct (IH _ H) as (b & Hb & Eb). exists b. split; [now right|exact Eb].
  - intros _. exists a. split; [now left|exact Et].
Qed.

Lemma fold_min_max ns n :
  (fold_left Nat.min ns n <= n <= fold_left Nat.max ns n)%nat /\
  Forall (fun x => (fold_left Nat.min ns n <= x <= fold_left Nat.max ns n)%nat) ns /\
  In (fold_left Nat.min ns n) (n :: ns) /\ In (fold_left Nat.max ns n) (n :: ns).
Proof.
  revert n. induction ns as [|x ns IH]; intros n; cbn [fold_left].
  - split; [lia|]. split; [constructor|]. split; now left.
  - destruct (IH (Nat.min n x)) as (A1 & A2 & A3 & _).
    destruct (IH (Nat.max n x)) as (B1 & B2 & _ & B4).
    split; [lia|]. split; [|split].
    + constructor; [lia|].
      rewrite Forall_forall in *. intros y Hy.
      specialize (A2 y Hy). specialize (B2 y Hy). lia.
    + destruct A3 as [A3|A3]; [|right; now right].
      rewrite <- A3. destruct (Nat.min_spec n x) as [[_ ->]|[_ ->]];
        [now left|right; now left].
    + destruct B4 as [B4|B4]; [|right; now right].
      rewrite <- B4. destruct (Nat.max_spec n x) as [[_ ->]|[_ ->]];
        [right; now left|now left].
Qed.

(** X20. The dictionary of [analise_utilizacao_entregadores] partitions
    the allocation list by courier id: its keys are distinct and are
    the ids that occur in the list; the group of a key holds exactly the
    entries of that id, in the order of the list, with their count, the
    sum of their times and the sum of their values; the counts add up to
    the number of allocations, the number of couriers used is the number
    of keys, and every count lies between the reported minimum (at
    least 1) and maximum. *)
Theorem utilizacao_particiona (ot : Otimizador) (r : Resultado)
    (an : AnaliseUtilizacao)
    (Hr : resultado ot = Some r)
    (Han : analise_utilizacao_entregadores ot = Pronto an) :
  let d := detalhes_utilizacao an in
  NoDup (map fst d) /\
  (forall k, In k (map fst d) <-> In k (map a_entregador_id (alocacoes r))) /\
  Forall (grupo_ok (alocacoes r)) d /\
  list_sum (map (fun ku => u_num_pedidos (snd ku)) d) = List.length (alocacoes r) /\
  entregadores_utilizados an = List.length d /\
  (1 <= min_pedidos_por_entregador an)%nat /\
  Forall (fun ku => (min_pedidos_por_entregador an <= u_num_pedidos (snd ku)
                     <= max_pedidos_por_entregador an)%nat) d.
Proof.
  unfold analise_utilizacao_entregadores in Han. rewrite Hr in Han.
  destruct (agrupar_por_entregador (alocacoes r) []) as [d|] eqn:E; [|discriminate].
  destruct (Nat.eqb (List.length (entregadores ot)) 0); [discriminate|].
  destruct (map (fun ku => u_num_pedidos (snd ku)) d) as [|n ns] eqn:En;
    [discriminate|].
  injection Han as <-.
  cbn [detalhes_utilizacao entregadores_utilizados min_pedidos_por_entregador
       max_pedidos_por_entregador].
  destruct (@agrupar_por_entregador_inv (alocacoes r) [] [] d (NoDup_nil _)
              (Forall_nil _) (fun a (H : In a []) => match H with end) E)
    as (I1 & I2 & I3 & I4 & _).
  cbn [app] in I2. cbn [map list_sum Nat.add] in I3, I4.
  split; [exact I1|]. split; [intros k; rewrite I3; cbn [In]; tauto|].
  split; [exact I2|]. split; [rewrite En in I4 |- *; exact I4|].
  split; [reflexivity|].
  destruct (fold_min_max ns n) as (F1 & F2 & F3 & _).
  assert (Hall : Forall (fun x => (fold_left Nat.min ns n <= x
                                   <= fold_left Nat.max ns n)%nat) (n :: ns))
    by (constructor; assumption).
  split.
  - rewrite <- En in F3. apply in_map_iff in F3. destruct F3 as (ku & Hku & Hin).
    rewrite Forall_forall in I2. destruct (I2 ku Hin) as (_ & Hne & Hlen & _).
    rewrite <- Hku, Hlen. destruct (u_pedidos (snd ku)); [contradiction|simpl; lia].
  - rewrite <- En in Hall. rewrite Forall_map in Hall. exact Hall.
Qed.

Lemma utilizacao_particiona_witness :
  exists an,
    analise_utilizacao_entregadores ot_com_resultado = Pronto an /\
    map fst (detalhes_utilizacao an) = ["E1"; "E2"]%string /\
    map (fun ku => u_num_pedidos (snd ku)) (detalhes_utilizacao an) = [2; 1]%nat /\
    NoDup (map fst (detalhes_utilizacao an)).
Proof.
  destruct (analise_utilizacao_entregadores ot_com_resultado) as [|an|e] eqn:E;
    [vm_compute in E; discriminate| |vm_compute in E; discriminate].
  exists an. split; [reflexivity|].
  destruct (@utilizacao_particiona ot_com_resultado _ an eq_refl E) as (Hnd & _).
  vm_compute in E. injection E as <-.
  split; [reflexivity|]. split; [reflexivity|exact Hnd].
Defined.

Lemma agrupar_por_entregador_some alocs :
  Forall (fun a => a_tempo_entrega a <> None) alocs ->
  forall d, exists d', agrupar_por_entregador alocs d = Some d'.
Proof.
  induction 1 as [|a alocs Ha _ IH]; intros d; cbn [agrupar_por_entregador].
  - now exists d.
  - destruct (a_tempo_entrega a) as [t|]; [apply IH|contradiction].
Qed.

(** X21. How [analise_utilizacao_entregadores] ends: with [None]
    exactly when there is no Solution; with [TypeError] exactly when an
    entry of the allocation list has no time; otherwise with
    [ZeroDivisionError] exactly when the courier table is empty, with
    the [ValueError] of [np.max] exactly when the allocation list is
    empty, and with its dictionary in the remaining case, the
    utilization rate being positive. *)
Theorem utilizacao_excecoes (ot : Otimizador) :
  match analise_utilizacao_entregadores ot with
  | SemResultado => resultado ot = None
  | Falha NpTypeError =>
      exists r a, resultado ot = Some r /\ In a (alocacoes r) /\
                  a_tempo_entrega a = None
  | Falha NpZeroDivisionError =>
      entregadores ot = [] /\
      exists r, resultado ot = Some r /\
                Forall (fun a => a_tempo_entrega a <> None) (alocacoes r)
  | Falha NpValueError =>
      entregadores ot <> [] /\
      exists r, resultado ot = Some r /\ alocacoes r = []
  | Pronto an =>
      entregadores ot <> [] /\
      (exists r, resultado ot = Some r /\ alocacoes r <> [] /\
                 Forall (fun a => a_tempo_entrega a <> None) (alocacoes r)) /\
      0 < taxa_utilizacao an
  end.
Proof.
  unfold analise_utilizacao_entregadores.
  destruct (resultado ot) as [r|]; [|reflexivity].
  destruct (agrupar_por_entregador (alocacoes r) []) as [d|] eqn:E.
  - destruct (@agrupar_por_entregador_inv (alocacoes r) [] [] d (NoDup_nil _)
                (Forall_nil _) (fun a (H : In a []) => match H with end) E)
      as (_ & _ & I3 & I4 & I5).
    destruct (Nat.eqb (List.length (entregadores ot)) 0) eqn:E0.
    + apply Nat.eqb_eq, length_zero_iff_nil in E0.
      split; [exact E0|]. exists r. now split.
    + apply Nat.eqb_neq in E0.
      assert (Hne : entregadores ot <> [])
        by (intros Hc; rewrite Hc in E0; now apply E0).
      destruct (map (fun ku => u_num_pedidos (snd ku)) d) as [|n ns] eqn:En.
      * split; [exact Hne|]. exists r. split; [reflexivity|].
        cbn in I4. destruct (alocacoes r); [reflexivity|simpl in I4; lia].
      * split; [exact Hne|]. split.
        -- exists r. split; [reflexivity|]. split; [|exact I5].
           intros Hc. rewrite Hc in I3.
           destruct d as [|[k u] d]; [discriminate|].
           destruct (proj1 (I3 k)) as [[]|[]]. now left.
        -- cbn [taxa_utilizacao].
           apply Qlt_shift_div_l.
           ++ change 0 with (inject_Z 0). rewrite <- Zlt_Qlt. lia.
           ++ rewrite Qmult_0_l. change 0 with (inject_Z 0). rewrite <- Zlt_Qlt.
              destruct d; [discriminate|simpl; lia].
  - apply agrupar_por_entregador_none in E. destruct E as (a & Ha & Ea).
    exists r, a. now repeat split.
Qed.

Lemma length_nodup_map {A B} (decA : forall x y : A, {x = y} + {x <> y})
    (decB : forall x y : B, {x = y} + {x <> y}) (g : A -> B) (l : list A) :
  (List.length (nodup decB (map g l)) <= List.length (nodup decA l))%nat /\
  ((forall x y, In x l -> In y l -> g x = g y -> x = y) ->
   List.length (nodup decB (map g l)) = List.length (nodup decA l)).
Proof.
  assert (H1 : (List.length (nodup decB (map g l))
                <= List.length (nodup decA l))%nat).
  { rewrite <- (length_map g (nodup decA l)).
    apply NoDup_incl_length; [apply NoDup_nodup|].
    intros y Hy. apply nodup_In, in_map_iff in Hy. destruct Hy as (x & <- & Hx).
    apply in_map. now apply nodup_In. }
  split; [exact H1|]. intros Hinj. apply Nat.le_antisymm; [exact H1|].
  rewrite <- (length_map g (nodup decA l)).
  apply NoDup_incl_length.
  - apply NoDup_map_NoDup_ForallPairs; [|apply NoDup_nodup].
    intros x y Hx Hy. apply nodup_In in Hx, Hy. now apply Hinj.
  - intros y Hy. apply in_map_iff in Hy. destruct Hy as (x & <- & Hx).
    apply nodup_In. apply in_map. now apply (nodup_In decA).
Qed.

Lemma length_chaves_nodup (d : list (string * Utilizacao)) (ids : list string) :
  NoDup (map fst d) -> (forall k, In k (map fst d) <-> In k ids) ->
  List.length d = List.length (nodup string_dec ids).
Proof.
  intros Hnd Hk. rewrite <- (length_map fst d).
  apply Permutation_length, NoDup_Permutation; [exact Hnd|apply NoDup_nodup|].
  intros k. rewrite Hk. symmetry. apply nodup_In.
Qed.

Lemma ids_distintos df i j :
  NoDup (map ent_ID df) ->
  (i < List.length df)%nat -> (j < List.length df)%nat ->
  ent_ID (iloc_ent df i) = ent_ID (iloc_ent df j) -> i = j.
Proof.
  intros Hnd Hi Hj H.
  apply (proj1 (NoDup_nth (map ent_ID df) ""%string) Hnd);
    try (rewrite length_map; assumption).
  unfold iloc_ent in H.
  now rewrite (nth_map_dentro ent_ID df entregador_nulo ""%string Hi),
              (nth_map_dentro ent_ID df entregador_nulo ""%string Hj).
Qed.

(** X22. After an optimal solve [analise_utilizacao_entregadores]
    raises nothing.  It counts couriers by id while the Solution counts
    them by row, so it reports at most [num_entregadores_usados]
    couriers, and a utilization rate in (0, 1].  When the ids of the
    courier table are distinct the two counts agree, and every group
    belongs to one courier and holds no more orders than that courier's
    capacity. *)
Theorem utilizacao_apos_solucao (solver : Solver) (st : Otimizador)
    (Hopt : fst (solver (construir_modelo st)) = LpStatusOptimal)
    (Hsv : solver_viavel solver (construir_modelo st))
    (HN : pedidos st <> []) :
  exists st' r an,
    resolver_modelo solver (criar_modelo st) = Retorna true st' /\
    resultado st' = Some r /\
    analise_utilizacao_entregadores st' = Pronto an /\
    (entregadores_utilizados an <= num_entregadores_usados r)%nat /\
    0 < taxa_utilizacao an <= 1 /\
    (NoDup (map ent_ID (entregadores st)) ->
     entregadores_utilizados an = num_entregadores_usados r /\
     forall k u, In (k, u) (detalhes_utilizacao an) ->
       exists i, (i < List.length (entregadores st))%nat /\
                 k = ent_ID (iloc_ent (entregadores st) i) /\
                 (Z.of_nat (u_num_pedidos u) <=
                  ent_capacidade (iloc_ent (entregadores st) i))%Z).
Proof.
  destruct (@resolver_modelo_resultado solver st Hopt Hsv HN)
    as (st' & r & Hres & Hr & Hal & _ & _ & _ & Hus & _).
  set (alocs := extrair_alocacoes
                  (com_sol (criar_modelo st) (snd (solver (construir_modelo st))))) in *.
  assert (Hent : entregadores st' = entregadores st).
  { pose proof (entregadores_resolver_modelo solver (criar_modelo st)) as [He _].
    rewrite Hres in He. exact He. }
  assert (Hid : forall a, In a alocs ->
            (a_entregador_idx a < List.length (entregadores st))%nat /\
            a_entregador_id a =
              ent_ID (iloc_ent (entregadores st) (a_entregador_idx a))).
  { intros a Ha. destruct (@in_extrair_alocacoes solver st a Ha)
      as (i & j & Hi & Hj & _ & ->). split; [exact Hi|reflexivity]. }
  assert (Htempos : Forall (fun a => a_tempo_entrega a <> None) alocs).
  { apply Forall_forall. intros a Ha.
    destruct (@tempo_da_alocacao solver st Hopt Hsv a Ha) as (t & Et & _).
    congruence. }
  assert (Hlen : List.length alocs = List.length (pedidos st)).
  { apply length_extrair_alocacoes. exact (proj1 (Hsv Hopt)). }
  assert (Hcap : forall i, (i < List.length (entregadores st))%nat ->
             (Z.of_nat (ocorrencias_entregador i alocs) <=
              ent_capacidade (iloc_ent (entregadores st) i))%Z)
    by (intros i Hi; now apply capacidade_respeitada_na_extracao).
  clearbody alocs.
  assert (HM : entregadores st <> []).
  { intros He. destruct alocs as [|a l] eqn:Eal.
    - simpl in Hlen. destruct (pedidos st); [contradiction|discriminate].
    - destruct (Hid a (or_introl eq_refl)) as [Hi _]. rewrite He in Hi.
      simpl in Hi. lia. }
  destruct (agrupar_por_entregador_some Htempos []) as (d & Ed).
  destruct (@agrupar_por_entregador_inv alocs [] [] d (NoDup_nil _)
              (Forall_nil _) (fun a (H : In a []) => match H with end) Ed)
    as (Hnd & Hok & Hk & Hsum & _).
  cbn [app] in Hok. cbn [map In] in Hk.
  assert (Hd : d <> []).
  { intros ->. cbn in Hsum. rewrite Hlen in Hsum.
    destruct (pedidos st); [contradiction|discriminate]. }
  assert (Hcount : List.length d =
                   List.length (nodup string_dec (map a_entregador_id alocs))).
  { apply length_chaves_nodup; [exact Hnd|]. intros k. rewrite Hk. tauto. }
  assert (Hmap : map a_entregador_id alocs =
                 map (fun i => ent_ID (iloc_ent (entregadores st) i))
                     (map a_entregador_idx alocs)).
  { rewrite map_map. apply map_ext_in. intros a Ha. apply (Hid a Ha). }
  destruct (length_nodup_map Nat.eq_dec string_dec
              (fun i => ent_ID (iloc_ent (entregadores st) i))
              (map a_entregador_idx alocs)) as [Hle Heq].
  rewrite <- Hmap in Hle, Heq.
  assert (HleM : (List.length d <= List.length (entregadores st))%nat).
  { rewrite Hcount. etransitivity; [exact Hle|].
    apply Nat.le_trans
      with (List.length (seq 0 (List.length (entregadores st))));
      [|rewrite length_seq; lia].
    apply NoDup_incl_length; [apply NoDup_nodup|].
    intros i Hi. apply nodup_In, in_map_iff in Hi. destruct Hi as (a & <- & Ha).
    apply in_seq. destruct (Hid a Ha). lia. }
  destruct (Nat.eqb (List.length (entregadores st)) 0) eqn:E0.
  { apply Nat.eqb_eq, length_zero_iff_nil in E0. contradiction. }
  destruct (map (fun ku => u_num_pedidos (snd ku)) d) as [|n ns] eqn:En.
  { destruct d; [contradiction|discriminate]. }
  exists st', r. eexists. split; [exact Hres|]. split; [exact Hr|].
  split.
  { unfold analise_utilizacao_entregadores.
    rewrite Hr, Hal, Ed, Hent, E0, En. reflexivity. }
  apply Nat.eqb_neq in E0.
  cbn [entregadores_utilizados taxa_utilizacao detalhes_utilizacao].
  split; [rewrite Hcount, Hus; exact Hle|].
  split.
  - split.
    + apply Qlt_shift_div_l.
      * change 0 with (inject_Z 0). rewrite <- Zlt_Qlt. lia.
      * rewrite Qmult_0_l. change 0 with (inject_Z 0). rewrite <- Zlt_Qlt.
        destruct d; [contradiction|simpl; lia].
    + apply Qle_shift_div_r.
      * change 0 with (inject_Z 0). rewrite <- Zlt_Qlt. lia.
      * rewrite Qmult_1_l, <- Zle_Qle. lia.
  - intros Hdist.
    assert (Hinj : forall x y, In x (map a_entregador_idx alocs) ->
              In y (map a_entregador_idx alocs) ->
              ent_ID (iloc_ent (entregadores st) x) =
              ent_ID (iloc_ent (entregadores st) y) -> x = y).
    { intros x y Hx Hy. apply in_map_iff in Hx, Hy.
      destruct Hx as (a & <- & Ha), Hy as (b & <- & Hb).
      apply (ids_distintos _ Hdist); [apply (Hid a Ha)|apply (Hid b Hb)]. }
    split; [rewrite Hcount, Hus; now apply Heq|].
    intros k u Hin. rewrite Forall_forall in Hok.
    destruct (Hok (k, u) Hin) as (Hped & Hne & Hnum & _). cbn [fst snd] in *.
    destruct (u_pedidos u) as [|a resto] eqn:Eu; [contradiction|].
    assert (Ha : In a (filter (fun b => String.eqb (a_entregador_id b) k) alocs))
      by (rewrite <- Hped; now left).
    apply filter_In in Ha. destruct Ha as [Ha Hka].
    apply String.eqb_eq in Hka. destruct (Hid a Ha) as [Hi Hida].
    exists (a_entregador_idx a). split; [exact Hi|].
    split; [congruence|].
    rewrite Hnum, Hped.
    rewrite (filter_ext_in _ (fun b => Nat.eqb (a_entregador_idx b)
                                               (a_entregador_idx a))).
    + apply (Hcap _ Hi).
    + intros b Hb. destruct (Hid b Hb) as [Hib Hidb].
      destruct (Nat.eqb (a_entregador_idx b) (a_entregador_idx a)) eqn:En'.
      * apply Nat.eqb_eq in En'. apply String.eqb_eq. congruence.
      * apply Nat.eqb_neq in En'. apply String.eqb_neq. intros Hc.
        apply En'. apply (ids_distintos _ Hdist Hib Hi). congruence.
Qed.

Lemma utilizacao_apos_solucao_witness :
  exists st' r an,
    resolver_modelo (solver_forca_bruta ot_dois_por_dois)
                    (criar_modelo ot_dois_por_dois) = Retorna true st' /\
    resultado st' = Some r /\
    analise_utilizacao_entregadores st' = Pronto an /\
    entregadores_utilizados an = num_entregadores_usados r.
Proof.
  destruct (@utilizacao_apos_solucao (solver_forca_bruta ot_dois_por_dois)
              ot_dois_por_dois)
    as (st' & r & an & H1 & H2 & H3 & _ & _ & H4).
  - vm_compute. reflexivity.
  - apply solver_por_candidatos_viavel.
  - discriminate.
  - exists st', r, an. split; [exact H1|]. split; [exact H2|]. split; [exact H3|].
    apply H4. vm_compute. repeat constructor; simpl; intuition discriminate.
Defined.

(** * The geocoding cache *)

Lemma cache_get_none d k : cache_get d k = None <-> ~ In k (map fst d).
Proof.
  induction d as [|[k' v] d IH]; cbn [cache_get map fst In]; [tauto|].
  destruct (String.eqb k' k) eqn:E.
  - apply String.eqb_eq in E. split; [discriminate|]. intros H. exfalso. apply H. now left.
  - apply String.eqb_neq in E. rewrite IH. tauto.
Qed.

(** One lookup, case by case. *)
Lemma obter_coordenadas_casos geocode cep e :
  let k := normalizar_cep cep in
  (exists v, cache_get (cep_cache e) k = Some v /\
             obter_coordenadas_por_cep geocode cep e = (v, e)) \/
  (cache_get (cep_cache e) k = None /\
   exists v,
     v = match geocode (List.length (consultas e)) (consulta_de k) with
         | Local coords => Some coords
         | _ => None
         end /\
     obter_coordenadas_por_cep geocode cep e =
       (v, {| cep_cache := (k, v) :: cep_cache e;
              consultas := consultas e ++ [consulta_de k] |})).
Proof.
  intros k. unfold obter_coordenadas_por_cep. fold k.
  destruct (cache_get (cep_cache e) k) as [v|].
  - left. exists v. now split.
  - right. split; [reflexivity|]. eexists. split; [|reflexivity].
    destruct (geocode _ _); reflexivity.
Qed.

(** X23. The cache remembers every outcome, failures included: after
    a lookup, a lookup of any CEP with the same normal form returns the
    same value and leaves the cache and the list of queries as they
    are, whatever the geocoder would answer by then.  A lookup sends at
    most one query, and none when its key is already cached. *)
Theorem cache_lembra (geocode geocode' : Geocoder) (cep cep' : string)
    (e : EstadoGeo)
    (Hn : normalizar_cep cep' = normalizar_cep cep) :
  let r := obter_coordenadas_por_cep geocode cep e in
  obter_coordenadas_por_cep geocode' cep' (snd r) = r /\
  (List.length (consultas (snd r)) <= S (List.length (consultas e)))%nat /\
  (cache_get (cep_cache e) (normalizar_cep cep) <> None -> snd r = e).
Proof.
  intros r. subst r.
  destruct (obter_coordenadas_casos geocode cep e)
    as [(v & Hc & ->)|(Hc & v & _ & ->)]; cbn [snd].
  - split; [|split; [lia|reflexivity]].
    unfold obter_coordenadas_por_cep. now rewrite Hn, Hc.
  - split; [|split; [cbn [consultas]; rewrite length_app; simpl; lia|congruence]].
    unfold obter_coordenadas_por_cep. rewrite Hn.
    cbn [cep_cache cache_get]. now rewrite String.eqb_refl.
Qed.

Lemma cache_lembra_witness :
  let r := obter_coordenadas_por_cep geocoder_fora_do_ar "36010-000"
             estado_geo_inicial in
  fst r = None /\
  obter_coordenadas_por_cep geocoder_exemplo " 36010000" (snd r) = r.
Proof.
  split; [reflexivity|].
  apply (@cache_lembra geocoder_fora_do_ar geocoder_exemplo "36010-000"
           " 36010000" estado_geo_inicial).
  reflexivity.
Defined.

Lemma obter_coordenadas_estavel geocode cep e :
  geocoder_estavel geocode -> cache_coerente geocode e ->
  fst (obter_coordenadas_por_cep geocode cep e) = coordenadas_de geocode cep /\
  cache_coerente geocode (snd (obter_coordenadas_por_cep geocode cep e)).
Proof.
  intros Hest Hco. unfold coordenadas_de.
  destruct (obter_coordenadas_casos geocode cep e)
    as [(v & Hc & ->)|(Hc & v & Hv & ->)]; cbn [fst snd].
  - split; [now apply Hco|exact Hco].
  - rewrite (Hest _ 0%nat) in Hv. split; [exact Hv|].
    intros k' v'. cbn [cep_cache cache_get].
    destruct (String.eqb (normalizar_cep cep) k') eqn:E.
    + apply String.eqb_eq in E. subst k'. intros H. injection H as <-. exact Hv.
    + apply Hco.
Qed.

(** X24. With a geocoder whose answers do not change over time the
    cache cannot be observed: from a cache that holds only answers of
    the geocoder (the empty one, or any cache reached from it), a lookup
    returns the geocoder's answer for the normalized CEP, and
    [calcular_tempo_entregador_restaurante] returns the estimate
    computed without cache; the cache stays coherent. *)
Theorem cache_transparente (geocode : Geocoder) (e : EstadoGeo)
    (Hest : geocoder_estavel geocode)
    (Hco : cache_coerente geocode e) :
  (forall cep,
     fst (obter_coordenadas_por_cep geocode cep e) = coordenadas_de geocode cep /\
     cache_coerente geocode (snd (obter_coordenadas_por_cep geocode cep e))) /\
  (forall haversine_km st i j,
     fst (calcular_tempo_entregador_restaurante_com_cache
            geocode haversine_km st i j e) =
       calcular_tempo_entregador_restaurante
         (coordenadas_de geocode) haversine_km st i j /\
     cache_coerente geocode
       (snd (calcular_tempo_entregador_restaurante_com_cache
               geocode haversine_km st i j e))).
Proof.
  split.
  - intros cep. now apply obter_coordenadas_estavel.
  - intros hav st i j.
    unfold calcular_tempo_entregador_restaurante_com_cache,
           calcular_tempo_entregador_restaurante.
    destruct (@obter_coordenadas_estavel geocode
                (ent_cep (iloc_ent (entregadores st) i)) e Hest Hco) as [H1 Hco1].
    destruct (obter_coordenadas_por_cep geocode
                (ent_cep (iloc_ent (entregadores st) i)) e) as [c1 e1].
    cbn [fst snd] in H1, Hco1.
    destruct (@obter_coordenadas_estavel geocode
                (str_cep (dict_get (mapa_restaurante_cep st)
                            (nome_restaurante (iloc_ped (pedidos st) j))))
                e1 Hest Hco1) as [H2 Hco2].
    destruct (obter_coordenadas_por_cep geocode _ e1) as [c2 e2].
    cbn [fst snd] in H2, Hco2. rewrite <- H1, <- H2.
    destruct c1 as [c1|], c2 as [c2|]; cbn [fst snd];
      try (split; [reflexivity|exact Hco2]).
    destruct (Qeq_bool (ent_velocidade (iloc_ent (entregadores st) i)) 0);
      cbn [fst snd]; split; try reflexivity; exact Hco2.
Qed.

Lemma cache_transparente_witness :
  fst (calcular_tempo_entregador_restaurante_com_cache
         geocoder_exemplo dist_exemplo ot_na_porta 0 0 estado_geo_inicial) =
  calcular_tempo_entregador_restaurante
    (coordenadas_de geocoder_exemplo) dist_exemplo ot_na_porta 0 0.
Proof.
  apply (@cache_transparente geocoder_exemplo estado_geo_inicial).
  - intros n m q. reflexivity.
  - intros k v H. discriminate.
Defined.

Lemma remover_hifens_idempotente s : remover_hifens (remover_hifens s) = remover_hifens s.
Proof.
  induction s as [|c s IH]; [reflexivity|]. cbn [remover_hifens].
  destruct (Ascii.eqb c (Ascii.ascii_of_nat 45)) eqn:E; [exact IH|].
  cbn [remover_hifens]. now rewrite E, IH.
Qed.

(** What every reachable state of the cache satisfies. *)
Lemma obter_coordenadas_inv geocode cep e :
  NoDup (map fst (cep_cache e)) ->
  consultas e = map consulta_de (rev (map fst (cep_cache e))) ->
  (forall k, In k (map fst (cep_cache e)) -> remover_hifens k = k) ->
  let e' := snd (obter_coordenadas_por_cep geocode cep e) in
  NoDup (map fst (cep_cache e')) /\
  consultas e' = map consulta_de (rev (map fst (cep_cache e'))) /\
  (forall k, In k (map fst (cep_cache e')) -> remover_hifens k = k) /\
  (forall k, In k (map fst (cep_cache e')) <->
             In k (map fst (cep_cache e)) \/ k = normalizar_cep cep).
Proof.
  intros Hnd Hq Hh e'. subst e'.
  destruct (obter_coordenadas_casos geocode cep e)
    as [(v & Hc & ->)|(Hc & v & _ & ->)]; cbn [snd].
  - split; [exact Hnd|]. split; [exact Hq|]. split; [exact Hh|].
    intros k. split; [now left|]. intros [H| ->]; [exact H|].
    destruct (in_dec string_dec (normalizar_cep cep) (map fst (cep_cache e)))
      as [Hi|Hi]; [exact Hi|].
    apply cache_get_none in Hi. congruence.
  - apply cache_get_none in Hc. cbn [cep_cache consultas map fst rev].
    split; [now constructor|].
    split; [rewrite map_app, Hq; reflexivity|].
    split.
    + intros k [<-|Hk]; [apply remover_hifens_idempotente|now apply Hh].
    + intros k. cbn [In]. split; [intros [H|H]; [now right|now left]|].
      intros [H| ->]; [now right|now left].
Qed.

Lemma consultar_ceps_inv geocode ceps :
  forall e,
  NoDup (map fst (cep_cache e)) ->
  consultas e = map consulta_de (rev (map fst (cep_cache e))) ->
  (forall k, In k (map fst (cep_cache e)) -> remover_hifens k = k) ->
  let e' := snd (consultar_ceps geocode ceps e) in
  NoDup (map fst (cep_cache e')) /\
  consultas e' = map consulta_de (rev (map fst (cep_cache e'))) /\
  (forall k, In k (map fst (cep_cache e')) -> remover_hifens k = k) /\
  (forall k, In k (map fst (cep_cache e')) <->
             In k (map fst (cep_cache e)) \/ In k (map normalizar_cep ceps)) /\
  List.length (fst (consultar_ceps geocode ceps e)) = List.length ceps.
Proof.
  induction ceps as [|cep ceps IH]; intros e Hnd Hq Hh; cbn [consultar_ceps].
  - cbn [snd fst map In List.length].
    split; [exact Hnd|]. split; [exact Hq|]. split; [exact Hh|].
    split; [intros k; tauto|reflexivity].
  - destruct (@obter_coordenadas_inv geocode cep e Hnd Hq Hh) as (A1 & A2 & A3 & A4).
    destruct (obter_coordenadas_por_cep geocode cep e) as [v e1]. cbn [snd] in *.
    destruct (IH e1 A1 A2 A3) as (B1 & B2 & B3 & B4 & B5).
    destruct (consultar_ceps geocode ceps e1) as [vs e2]. cbn [snd fst] in *.
    split; [exact B1|]. split; [exact B2|]. split; [exact B3|]. split.
    + intros k. rewrite B4, A4. cbn [map In]. split.
      * intros [[H|H]|H]; [now left|right; left; now symmetry|right; now right].
      * intros [H|[H|H]]; [left; now left|left; right; now symmetry|now right].
    + cbn [List.length]. now rewrite B5.
Qed.

(** X25. Starting with an empty cache, after the lookups of any list of
    CEPs the geocoder has been asked exactly once for each distinct
    normal form in the list, whatever it answered: the queries sent are
    the cached keys, oldest first, each followed by the city; the keys
    are distinct, they are the normal forms of the CEPs looked up, and
    none of them contains a hyphen. *)
Theorem uma_consulta_por_cep (geocode : Geocoder) (ceps : list string) :
  let r := consultar_ceps geocode ceps estado_geo_inicial in
  let chaves := map fst (cep_cache (snd r)) in
  List.length (fst r) = List.length ceps /\
  consultas (snd r) = map consulta_de (rev chaves) /\
  NoDup chaves /\
  (forall k, In k chaves <-> In k (map normalizar_cep ceps)) /\
  (forall k, In k chaves -> remover_hifens k = k) /\
  List.length (consultas (snd r)) =
    List.length (nodup string_dec (map normalizar_cep ceps)).
Proof.
  intros r chaves.
  destruct (@consultar_ceps_inv geocode ceps estado_geo_inicial)
    as (B1 & B2 & B3 & B4 & B5);
    [constructor|reflexivity|intros k []|].
  fold r in B1, B2, B3, B4, B5. fold chaves in B1, B2, B3, B4.
  assert (Hk : forall k, In k chaves <-> In k (map normalizar_cep ceps)).
  { intros k. rewrite B4. cbn [estado_geo_inicial cep_cache map In]. tauto. }
  split; [exact B5|]. split; [exact B2|]. split; [exact B1|].
  split; [exact Hk|]. split; [exact B3|].
  rewrite B2, length_map, length_rev.
  apply Permutation_length, NoDup_Permutation; [exact B1|apply NoDup_nodup|].
  intros k. rewrite Hk. symmetry. apply nodup_In.
Qed.

(** * The steps of [executar_analise_completa] together *)

Lemma otimizacao_restrita_otimizador solver te tp an rr an' :
  otimizacao_com_restricoes_tempo solver te tp an = Retorna rr an' ->
  otimizador an' = otimizador an.
Proof.
  unfold otimizacao_com_restricoes_tempo.
  destruct (solver _) as [status s].
  destruct status; try (intros H; injection H as _ <-; reflexivity).
  destruct (soma_valores _); [|discriminate].
  intros H. injection H as _ <-. reflexivity.
Qed.

Lemma comparar_cenarios_original solver an cen an' r :
  comparar_cenarios solver an = Retorna cen an' ->
  resultado (otimizador an) = Some r ->
  In (Original, cenario_de r) cen.
Proof.
  intros H Hr.
  destruct (restrita_vazia_ou_nao an) as [(rest & Hrest & Ha)|Hne].
  - rewrite (comparar_cenarios_sem_alocacoes solver an Hrest Ha) in H. discriminate.
  - destruct (comparar_cenarios_de solver an) as (cen0 & _ & Horig & Hcmp & Hlev).
    destruct (resolver_modelo solver
                (criar_modelo (com_capacidade_reduzida (otimizador an))))
      as [ok ot2|e ot2].
    + rewrite (Hcmp ok ot2 eq_refl Hne) in H.
      destruct ok; [destruct (resultado ot2); [|discriminate]|];
        injection H as <- _; [apply in_or_app; left|]; now apply Horig.
    + rewrite (Hlev e ot2 eq_refl Hne) in H. discriminate.
Qed.

(** X26. The sweep, the deadline variant and the comparison run one
    after the other, as in [executar_analise_completa]: the scenario
    that [comparar_cenarios] stores under [Original] is the Solution of
    the last row of the sweep table (the sweep left it in
    [self.resultado], and the variant does not touch the optimizer),
    not the Solution of the solve made before the sweep. *)
Theorem original_e_a_ultima_linha (solver solver_v solver_c : Solver)
    (rg : Z * Z) (te tp : Q) (an an1 an2 an3 : Analisador)
    (res : list LinhaSensibilidade) (l : LinhaSensibilidade)
    (rr : option ResultadoRestrito) (cen : list (NomeCenario * Cenario))
    (HN : pedidos (otimizador an) <> [])
    (H1 : analise_sensibilidade_capacidade solver rg an = Retorna (res ++ [l]) an1)
    (H2 : otimizacao_com_restricoes_tempo solver_v te tp an1 = Retorna rr an2)
    (H3 : comparar_cenarios solver_c an2 = Retorna cen an3) :
  exists c, In (Original, c) cen /\
            cn_tempo_total c = ls_tempo_total l /\
            cn_tempo_medio c = ls_tempo_medio l /\
            cn_entregadores_usados c = ls_entregadores_usados l.
Proof.
  unfold analise_sensibilidade_capacidade in H1.
  destruct (@laco_sensibilidade_efeito solver (otimizador an)
              (py_range (fst rg) (snd rg)) HN (otimizador an) []
              (Forall2_mesmos_refl _) eq_refl)
    as [(res1 & ot' & Hl & _ & Hlast & _)|(ot' & c & Hl & _)];
    [|rewrite Hl in H1; discriminate].
  rewrite Hl in H1. cbn [app] in H1. injection H1 as -> <-.
  rewrite rev_app_distr in Hlast. cbn [rev app] in Hlast.
  destruct Hlast as (r & Hr & Hlr).
  assert (Hr2 : resultado (otimizador an2) = Some r).
  { rewrite (otimizacao_restrita_otimizador _ _ _ _ H2). exact Hr. }
  exists (cenario_de r). split; [exact (comparar_cenarios_original _ _ H3 Hr2)|].
  rewrite Hlr. repeat split.
Qed.

Lemma original_e_a_ultima_linha_witness :
  exists l cen,
    ls_capacidade l = 2%Z /\
    exists c, In (Original, c) cen /\ cn_tempo_total c = ls_tempo_total l.
Proof.
  set (sv := solver_forca_bruta ot_dois_por_dois).
  destruct (analise_sensibilidade_capacidade sv (1, 2)%Z
              (analisador_de ot_dois_por_dois)) as [res an1|e an1] eqn:E1;
    [|vm_compute in E1; discriminate].
  destruct (otimizacao_com_restricoes_tempo sv 20 45 an1) as [rr an2|e an2] eqn:E2;
    [|vm_compute in E1; injection E1 as _ <-; vm_compute in E2; discriminate].
  destruct (comparar_cenarios sv an2) as [cen an3|e an3] eqn:E3;
    [|vm_compute in E1; injection E1 as _ <-;
      vm_compute in E2; injection E2 as _ <-; vm_compute in E3; discriminate].
  assert (Hres : exists res0 l, res = res0 ++ [l] /\ ls_capacidade l = 2%Z).
  { vm_compute in E1. injection E1 as <- _. eexists [_]. eexists.
    split; reflexivity. }
  destruct Hres as (res0 & l & -> & Hc).
  exists l, cen. split; [exact Hc|].
  destruct (@original_e_a_ultima_linha sv sv sv (1, 2)%Z 20 45
              (analisador_de ot_dois_por_dois) an1 an2 an3 res0 l rr cen)
    as (c & Hin & Ht & _); [discriminate|exact E1|exact E2|exact E3|].
  exists c. now split.
Defined.

(** * The feasible points of the model *)

Lemma expr_finita_lpSum (l : list LpAffineExpression) :
  Forall expr_finita l -> expr_finita (lpSum l).
Proof.
  unfold expr_finita, lpSum; cbn [termos]. intros H.
  apply Forall_flat_map. exact H.
Qed.

Lemma vars_lpSum (l : list LpAffineExpression) :
  vars_expr (lpSum l) = flat_map vars_expr l.
Proof.
  unfold vars_expr, lpSum; cbn [termos].
  induction l as [|e l IH]; simpl; [reflexivity|]. now rewrite map_app, IH.
Qed.

Lemma expr_mul_ok v x c :
  is_fin c -> dominio_ok v x ->
  expr_finita (expr_mul x c) /\ Forall (dominio_ok v) (vars_expr (expr_mul x c)).
Proof.
  intros Hc Hx. unfold expr_mul, expr_finita, vars_expr.
  destruct c as [q| |]; try contradiction.
  destruct (Qeq_bool q 0); cbn [termos map fst].
  - split; constructor.
  - split; (constructor; [|constructor]); [exact I|exact Hx].
Qed.

Lemma expr_var_ok v x :
  dominio_ok v x ->
  expr_finita (expr_var x) /\ Forall (dominio_ok v) (vars_expr (expr_var x)).
Proof.
  intros Hx. unfold expr_var, expr_finita, vars_expr. cbn [termos map fst].
  split; (constructor; [|constructor]); [exact I|exact Hx].
Qed.

Lemma expr_const_ok v c :
  expr_finita (expr_const c) /\ Forall (dominio_ok v) (vars_expr (expr_const c)).
Proof. split; constructor. Qed.

Lemma lpSum_ok {A} v (f : A -> LpAffineExpression) (l : list A) :
  (forall a, In a l -> expr_finita (f a) /\ Forall (dominio_ok v) (vars_expr (f a))) ->
  expr_finita (lpSum (map f l)) /\
  Forall (dominio_ok v) (vars_expr (lpSum (map f l))).
Proof.
  intros H. split.
  - apply expr_finita_lpSum, Forall_map, Forall_forall. intros a Ha. apply (H a Ha).
  - rewrite vars_lpSum, flat_map_concat_map, map_map.
    apply Forall_concat, Forall_map, Forall_forall. intros a Ha. apply (H a Ha).
Qed.

Lemma dominio_ok_x v i j :
  dominio_ok v (var_x i j) <-> v (x_ i j) == 0 \/ v (x_ i j) == 1.
Proof. unfold dominio_ok, var_x; cbn. tauto. Qed.

Lemma dominio_ok_T v j : dominio_ok v (var_T j) <-> 0 <= v (T_ j).
Proof. unfold dominio_ok, var_T; cbn. tauto. Qed.

(** X27. When every cost is a finite number (so that [criar_modelo]
    builds its model), the feasible points of the model are exactly the
    binary assignments that give every order one courier, respect every
    capacity and set every [T[j]], a non-negative number, to the cost of
    the chosen pair. *)
Theorem viavel_caracterizado (st : Otimizador) (v : valoracao)
    (Hfin : custos_finitos st) :
  viavel (construir_modelo st) v <-> atribuicao_viavel st v.
Proof.
  split.
  - intros Hv. destruct (viavel_fatos Hv) as (Hb & H1 & HT & H2 & H3).
    now repeat split.
  - intros (Hb & H1 & HT & H2 & H3).
    set (Is := seq 0 (List.length (entregadores st))) in *.
    set (Js := seq 0 (List.length (pedidos st))) in *.
    apply viavel_por_restricao. split.
    + unfold objetivo_ok. rewrite objective_construir_modelo. fold Js.
      unfold objetivo_ponderado. apply lpSum_ok. intros j Hj.
      apply expr_mul_ok; [exact I|]. apply dominio_ok_T. now apply HT.
    + rewrite constraints_construir_modelo, !map_app, !Forall_app.
      unfold restricoes_R1, restricoes_R2, restricoes_R3.
      rewrite !map_map. cbn [snd]. fold Is Js.
      split; [|split]; apply Forall_map, Forall_forall.
      * intros j Hj. unfold restricao_ok, R1. cbn [restr c_lhs c_rhs].
        destruct (@lpSum_ok _ v (fun i => expr_var (var_x i j)) Is) as [Hf Hd].
        { intros i Hi. apply expr_var_ok, dominio_ok_x. now apply Hb. }
        split; [exact Hf|]. split; [apply expr_const_ok with (v := v)|].
        split; [exact Hd|]. split; [apply expr_const_ok|].
        apply satisfaz_R1. now apply H1.
      * intros j Hj. unfold restricao_ok, R2. cbn [restr c_lhs c_rhs].
        destruct (@lpSum_ok _ v (fun i => expr_mul (var_x i j) (custo st i j)) Is)
          as [Hf Hd].
        { intros i Hi. apply expr_mul_ok.
          - apply in_seq in Hi, Hj. apply Hfin; lia.
          - apply dominio_ok_x. now apply Hb. }
        destruct (@expr_var_ok v (var_T j)) as [HfT HdT];
          [apply dominio_ok_T; now apply HT|].
        split; [exact HfT|]. split; [exact Hf|]. split; [exact HdT|].
        split; [exact Hd|].
        apply (satisfaz_R2 st v Is j). now apply H2.
      * intros i Hi. unfold restricao_ok, R3. cbn [restr c_lhs c_rhs].
        destruct (@lpSum_ok _ v (fun j => expr_var (var_x i j)) Js) as [Hf Hd].
        { intros j Hj. apply expr_var_ok, dominio_ok_x. now apply Hb. }
        split; [exact Hf|]. split; [apply expr_const_ok with (v := v)|].
        split; [exact Hd|]. split; [apply expr_const_ok|].
        apply (satisfaz_R3 st v Js i). now apply H3.
Qed.

Lemma viavel_caracterizado_witness :
  viavel (construir_modelo ot_dois_por_dois)
         (val_de (valores_de_atribuicao ot_dois_por_dois [0; 1]%nat)).
Proof.
  assert (Hfin : custos_finitos ot_dois_por_dois).
  { apply custos_finitos_velocidades. repeat constructor; vm_compute; discriminate. }
  apply (proj2 (@viavel_caracterizado ot_dois_por_dois
                  (val_de (valores_de_atribuicao ot_dois_por_dois [0; 1]%nat)) Hfin)).
  unfold atribuicao_viavel.
  change (seq 0 (List.length (entregadores ot_dois_por_dois))) with [0; 1]%nat.
  change (seq 0 (List.length (pedidos ot_dois_por_dois))) with [0; 1]%nat.
  repeat split.
  - intros i j [<-|[<-|[]]] [<-|[<-|[]]]; vm_compute; auto.
  - intros j [<-|[<-|[]]]; vm_compute; reflexivity.
  - intros j [<-|[<-|[]]]; vm_compute; discriminate.
  - intros j [<-|[<-|[]]]; vm_compute; reflexivity.
  - intros i [<-|[<-|[]]]; vm_compute; discriminate.
Defined.
